(* ===== verification/_CoqProject ===== *)
-Q . S2P
Prelude.v
GoReflect.v
Orm.v
App.v
Copier.v
FillStruct.v
Shapes.v
Engine.v
Update1.v
Repository.v
Interfaces.v
Service.v
Routes.v
Server.v
Concurrency.v
