(* ===== verification/Prelude.v ===== *)
(** * A verification library for MuhmdHsn313/origin

    [origin] is a Go CRUD scaffolding layer built on reflection, GORM and
    Iris.  A model struct (the example application in src/unnamed/part_000
    declares [Blog] with a [Contents []BlogContent] slice of multilingual
    records) is turned into REST endpoints: the service layer reads request
    parameters into reflectively generated "shape" structs, an engine copies
    those parameters into model values field by field, and a repository
    persists the models in database transactions.

    ** The parts of the program and how they interact

    - src/orm/model.go: the base records [Model], [Language], [ContentModel],
      the [IContentModel] interface and the generic helpers
      [GetAllContentsWithUpdated] (merge two content slices through a map
      keyed by language id, incoming entries winning), [IsContentContained],
      [ExtractContent] and [IsContentModel].
    - src/service/helpers.go: the reflective copiers ([copyField],
      [copyStruct], and the recursive [fillStruct] that only commented-out
      code calls), the content merges on reflect values ([getLanguageID],
      [mergeContents], [handleContentUpdate], [handleSliceUpdate]), and the
      names [toSnakeCase] and [structNameToSnake].
    - src/unnamed/part_001 (service/engine.go): the interface [Engine[T]]
      and its implementation; it generates the create, update and filter
      shapes and fills or updates a model from the submitted parameters,
      calling the copier and the content merge ([UpdateModelFromUpdateParameters1]
      is an unused first version).
    - src/repository: the interface [Repository[T]], [hasContents] and the
      transactional CRUD operations of [GenericRepository], on top of GORM.
    - src/service/handler.go: the interface [Service[T]], the five REST
      handlers of [modelService], which call the engine and the repository
      through their interfaces and turn failures into a status and an error
      code, and [RegisterHandler], which puts them on five routes.
    - src/unnamed/part_000: the example [Blog] application; its [main]
      opens the database (panicking if it cannot), migrates the schema,
      wires [CreateEngine], [NewGenericRepository], [NewModelService] and
      [RegisterHandler] on the party [/api], and listens on [:8080].

    ** Files of the development, in dependency order

    - [Prelude] (this file): the scope [origin_scope], the [let!] notation of
      the result monad [result], the hint database [origin] with its
      rewriting lemmas [origin_rw], the tactics of the development, the
      fold invariants of a loop that stops at its first error
      ([foldl_result_inv], [foldl_result_err], and [foldl_result_sim] for two
      loops run in lock step), and the theory of the Go loop
      [for _, x := range l { m[key(x)] = x }] that every content merge is
      built from ([assign_by_key], [lastByKey], [map_values]).
    - [GoReflect]: Go types [ty] and values [val] (bool, int, uint, string,
      structs with tags and embedding, slices, pointers), the typing
      judgement [val_wt] with its boolean decision [val_wtb], and the
      operations of package [reflect] the code calls: [Kind], [FieldByName]
      with promotion by depth, [CanSet] on exported fields, [AssignableTo],
      [ConvertibleTo], [Convert] with 64-bit wrap-around, [reflect.Zero];
      the errors of the program as [goerr], a panic being [ErrPanic].
      The fuel of [FieldByName] is proved enough ([FieldByName_fuel_enough]).
    - [Orm]: model.go, with [IContentModel] as a type class; the merge is
      proved to refine its abstract specification (per language, the
      incoming entry if any, else the current one), to keep one entry per
      language and to be idempotent.
    - [App]: the [Blog] and [BlogContent] types of part_000.
    - [Copier]: helpers.go but [fillStruct]; a copier takes the destination value and
      returns the value it holds afterwards with the error, so the partial
      write left by a failing [copyStruct] is visible.  Theorems: copy round
      trip, mismatch and nil-source errors, int/uint wrap-around, the
      refinement of [mergeContents] (which panics, as [reflect.Append]
      does, on an element of another type) and [handleContentUpdate] to
      [GetAllContentsWithUpdated], preservation of well-typedness.
    - [FillStruct]: [fillStruct], one fixpoint on the source value whose
      field and element loops take the recursive call as a parameter.
      Theorems: deep copy round trip, equivalence with [copyStruct] on flat
      sources (errors renamed by [toFillErr]), well-typedness, and the loss
      of every [time.Time] (its fields are unexported).
    - [Shapes]: the three shape generators with the Go map [addedFields]
      threaded as a [gset string], and the tag parser [StructTag.Lookup].
      Theorems: generation fails only by a panic, the update shape is the
      create shape with pointer fields, filter shapes keep only top-level
      [ID] fields, the names added by [generateInnerStruct] are fresh, tags
      round trip through [Lookup], the tag scan terminates within its fuel
      ([paramTag_fuel_enough]), and the defects of the generators.
    - [Engine]: [FillModelFromCreateParameters] and
      [UpdateModelFromUpdateParameters] as folds over the parameter fields;
      theorems: results well typed, the [Blog] scenarios, the failure on a
      nil pointer element, the reset of [LanguageID] on update.
    - [Update1]: [UpdateModelFromUpdateParameters1], its loop written for
      any [modelVal]; it is shown never to update anything, its model
      pointer being nil.
    - [Repository]: GORM as the class [Gorm] of database effects, a fault
      plan [faults] choosing which driver call fails, a connection counting
      open transactions; the control flow of [GetByID], [GetAll], [Create],
      [Update], [Delete] for every instance (writes are atomic, reads leave
      their transaction open, a rollback error replaces the write error,
      [Update] panics without an embedded [Model]); the instance
      [TableStore] (rows in a [gmap Z val]) runs the scenarios.
    - [Interfaces]: [Engine[T]] and [Repository[T]] as records of their
      methods (modules [EngineI], [RepositoryI]) with the constructors
      [CreateEngine] and [NewGenericRepository], and the classes
      [EngineSpec] and [RepositorySpec] that the handlers' theorems assume
      and the implementations satisfy.
    - [Service]: the handlers as functions of the engine and repository
      interfaces, from the connection and the request to the connection and
      a response; the recover middleware answers a panic with 500.
      Theorems, against [EngineSpec] and [RepositorySpec]: status and error
      code on every path, the dead [GENERATE_*_PARAMS_ERROR] answers, the
      bound on the transactions a request leaves open; update and delete
      scenarios on the table store.
    - [Routes]: [Service[T]] as a record of handlers ([ServiceI]) built by
      [NewModelService], [structNameToSnake] (with [strcase.ToSnake] as a
      parameter), [RegisterHandler], the router matching the routes rely
      on ([serve]), the wiring of [main] ([mainRoutes]) and a runner of
      request sequences.  Theorems: the routes are unambiguous, each
      request reaches its handler, and a five-request session of the
      [Blog] service, in which the open transactions add up.
    - [Server]: [main] (the result of [gorm.Open] an input, [AutoMigrate] a
      parameter whose error is ignored, [Listen] failing at once or
      serving) and the server it starts, as a labelled transition system
      [step] whose label is the fault plan of the request it serves.
      The loop itself answers every request and terminates whatever the
      routes (lemmas of the model).  The theorems on origin's code, by
      induction on runs ([steps]): along every run of [main]'s server each
      response answers its request in order with a status its method
      allows (200/201/204 on success, 400 for every reported failure, 500
      for a panic, 404 only without a route), the open transactions are at
      most the responses sent (invariant), [GET]s never change the
      database (safety), and [n] list requests leave [n] transactions open
      (the bound is reached).
    - [Concurrency]: the handlers again, each split at its repository
      calls into a [prog] (its answer, or one atomic repository call and
      the rest), and a pool of such threads on the shared connection run
      by a scheduler ([cstep], labelled by the thread it picks), the way
      Iris serves each request on a goroutine of its own.  Lemmas of the
      model: a [prog] run alone is its handler, the serial order is one
      schedule, no schedule is infinite.  Theorems on origin's code, for
      any table whose row 1 holds a blog, with any contents, owner and
      flag: two concurrent [PATCH]es lose an update that both serial
      orders keep, and a [DELETE] run between a [PATCH]'s read and its
      save is undone, both requests reporting success.

    ** Fuel

    [FieldByName] searches depth by depth with fuel [S (ty_depth t)]: no
    field lies at an embedding depth beyond the nesting depth, so any
    larger fuel gives the same answer ([FieldByName_fuel_enough]).  The tag
    parser [lookupTag] runs with fuel [S (length tag)]: each pair it reads
    consumes characters, so any fuel above the length gives the same
    answer ([Lookup_fuel_enough]).  Every other definition is structural,
    [fillStruct] included (its recursion is on the source value).

    ** Not modelled

    The libraries the code only calls: Iris beyond the route matching
    (the router is modelled by [serve], the JSON decoding of request
    bodies is an abstract [readBody]), [strcase.ToSnake] (a parameter),
    logging (logrus), GORM internals (SQL, associations, [Preload] beyond a
    flag, the effect of auto-migration on the schema), Iris's listener
    beyond serving the routes (one request after the other in [Server],
    interleaved at repository calls in [Concurrency]): the driver calls
    inside one repository call are not interleaved with other requests,
    their transaction being taken as isolating them, and the routing of
    concurrent requests is not repeated in [Concurrency], whose threads
    are the handlers themselves.  The logger of [main] only writes.
    Commented-out code
    ([FillModelFromCreateParameters1], the older [copyField] and
    [handleContentUpdate]) is not code.  Go pointers are values: a pointer
    stored by an assignment is not shared with its source, which no
    theorem depends on.

    ** Known deviations

    On a non-struct value, [getLanguageID] returns "" and the engine's
    [fillField] skips the field where Go's [FieldByName] panics; the
    callers only pass structs, and no theorem depends on these cases.
    [toSnakeCase] is modelled on ASCII letters.  The table store used by
    the scenarios does not set association foreign keys ([BlogID]) on
    [Create], as GORM does. *)

From stdpp Require Export base list gmap strings.
From Stdlib Require Export ZArith Lia.

Declare Scope origin_scope.
Delimit Scope origin_scope with origin.
Open Scope origin_scope.

(** [a <?> b]: the first of two optional results that is present. *)
Definition orElse {A} (a b : option A) : option A :=
  match a with Some x => Some x | None => b end.
Notation "a <?> b" := (orElse a b) (at level 50, left associativity) : origin_scope.

Lemma orElse_assoc {A} (a b c : option A) : a <?> (b <?> c) = (a <?> b) <?> c.
Proof. by destruct a. Qed.

Lemma orElse_absorb {A} (a b : option A) : a <?> (a <?> b) = a <?> b.
Proof. by destruct a. Qed.

Lemma orElse_None_r {A} (a : option A) : a <?> None = a.
Proof. by destruct a. Qed.

(** Go functions return a value and an [error]: [Ok] is the nil error,
    [Err e] a non-nil one.  [let! x := c in k] continues only on [Ok]. *)
Inductive result (E A : Type) : Type :=
| Ok (a : A)
| Err (e : E).
Arguments Ok {E A} a.
Arguments Err {E A} e.

Notation "'let!' x ':=' c 'in' k" :=
  (match c with Ok x => k | Err e => Err e end)
  (at level 10, x name, c at level 100, k at level 200) : origin_scope.

Notation "'let!' ' p ':=' c 'in' k" :=
  (match c with Ok p => k | Err e => Err e end)
  (at level 10, p pattern, c at level 100, k at level 200) : origin_scope.

Create HintDb origin.
Create Rewrite HintDb origin_rw.

Ltac invc H := inversion H; subst; clear H.

(** ** Maps filled by key

    Go code of the form

      m := make(map[string]T)
      for _, x := range l { m[key(x)] = x }
      out := make([]T, 0, len(m))
      for _, v := range m { out = append(out, v) }

    builds a map in which each key holds the last element of [l] with that
    key, and reads it back in an unspecified order.  [assign_by_key] is the
    first loop; [map_values] is the second, in the order of [map_to_list]:
    every theorem on its result is invariant under permutation, so it holds
    for every order the Go runtime may choose. *)
Section KeyedMap.
Context {A : Type} (key : A -> string).

Definition assign_by_key (m : gmap string A) (l : list A) : gmap string A :=
foldl (fun acc x => <[key x := x]> acc) m l.

Definition map_values (m : gmap string A) : list A := (map_to_list m).*2.

(** The last element of [l] whose key is [k]. *)
Fixpoint lastByKey (k : string) (l : list A) : option A :=
match l with
| [] => None
| x :: l' => lastByKey k l' <?> (if String.eqb (key x) k then Some x else None)
end.

(** Every entry of the map is stored under its own key. *)
Definition keyed_wf (m : gmap string A) : Prop := map_Forall (fun k v => key v = k) m.

Lemma lastByKey_app k l1 l2 : lastByKey k (l1 ++ l2) = lastByKey k l2 <?> lastByKey k l1.
Proof.
induction l1 as [|x l1 IH]; simpl; [by destruct (lastByKey k l2)|].
rewrite IH. by destruct (lastByKey k l2), (lastByKey k l1).
Qed.

Lemma lookup_assign_by_key m l k :
assign_by_key m l !! k = lastByKey k l <?> m !! k.
Proof.
revert m. induction l as [|x l IH]; intros m; simpl; [done|].
unfold assign_by_key in *. simpl. rewrite IH.
destruct (lastByKey k l); simpl; [done|].
destruct (String.eqb_spec (key x) k) as [<-|Hne].
- by rewrite lookup_insert_eq.
- by rewrite lookup_insert_ne.
Qed.

Lemma lastByKey_Some k l x : lastByKey k l = Some x -> x ∈ l /\ key x = k.
Proof.
induction l as [|y l IH]; simpl; [done|].
destruct (lastByKey k l) eqn:E; simpl.
- intros [= <-]. destruct (IH eq_refl). split; [set_solver|done].
- destruct (String.eqb_spec (key y) k); intros; simplify_eq; split; [set_solver|done].
Qed.

Lemma lastByKey_None k l : lastByKey k l = None <-> k ∉ key <$> l.
Proof.
induction l as [|y l IH]; cbn [lastByKey]; [set_solver|].
rewrite fmap_cons, elem_of_cons.
destruct (lastByKey k l) eqn:E; simpl.
- split; [done|]. intros Hn. destruct Hn. right.
  destruct (decide (k ∈ key <$> l)) as [|Hni]; [done|]. apply IH in Hni. congruence.
- apply proj1 in IH. specialize (IH eq_refl).
  destruct (String.eqb_spec (key y) k); naive_solver.
Qed.

Lemma lastByKey_NoDup k l x :
NoDup (key <$> l) -> (lastByKey k l = Some x <-> x ∈ l /\ key x = k).
Proof.
intros Hnd. split; [apply lastByKey_Some|].
induction l as [|y l IH]; cbn [lastByKey]; [set_solver|].
rewrite fmap_cons in Hnd. apply NoDup_cons in Hnd as [Hy Hnd].
intros [Hin Hk]. apply elem_of_cons in Hin as [->|Hin].
- subst k. assert (lastByKey (key y) l = None) as -> by (by apply lastByKey_None).
  simpl. by rewrite String.eqb_refl.
- by rewrite IH.
Qed.

Lemma keyed_wf_assign m l : keyed_wf m -> keyed_wf (assign_by_key m l).
Proof.
revert m. induction l as [|x l IH]; intros m Hm; simpl; [done|].
apply IH. by apply map_Forall_insert_2.
Qed.

Lemma keyed_wf_empty : keyed_wf ∅.
Proof. apply map_Forall_empty. Qed.

Lemma map_values_keys m : keyed_wf m -> key <$> map_values m = (map_to_list m).*1.
Proof.
intros Hwf. unfold map_values. rewrite <-!list_fmap_compose.
apply list_fmap_ext. intros _ [k v] Hin%list_elem_of_lookup_2.
apply elem_of_map_to_list in Hin. by apply Hwf in Hin.
Qed.

Lemma map_values_NoDup m : keyed_wf m -> NoDup (key <$> map_values m).
Proof. intros Hwf. rewrite map_values_keys by done. apply NoDup_fst_map_to_list. Qed.

Lemma elem_of_map_values m x : x ∈ map_values m <-> exists k, m !! k = Some x.
Proof.
unfold map_values. rewrite list_elem_of_fmap. split.
- intros [[k v] [-> Hin]]. exists k. by apply elem_of_map_to_list.
- intros [k Hk]. exists (k, x). split; [done|]. by apply elem_of_map_to_list.
Qed.

(** A property of every value stored is a property of every element of
    [map_values]; storing elements that have it keeps it. *)
Lemma map_values_Forall (P : A -> Prop) m : map_Forall (fun _ v => P v) m -> Forall P (map_values m).
Proof.
  intros Hm. apply Forall_forall. intros x (k & Hk)%elem_of_map_values. exact (Hm k x Hk).
Qed.

Lemma assign_by_key_Forall (P : A -> Prop) m l :
  map_Forall (fun _ v => P v) m -> Forall P l -> map_Forall (fun _ v => P v) (assign_by_key m l).
Proof.
  revert m. induction l as [|x l IH]; intros m Hm Hl; [done|]. apply Forall_cons in Hl as [Hx Hl].
  apply IH; [|done]. by apply map_Forall_insert_2.
Qed.

Lemma lastByKey_map_values m k : keyed_wf m -> lastByKey k (map_values m) = m !! k.
Proof.
intros Hwf. destruct (m !! k) as [x|] eqn:Hk.
- apply lastByKey_NoDup; [by apply map_values_NoDup|].
  split; [apply elem_of_map_values; eauto|]. by apply Hwf in Hk.
- destruct (lastByKey k (map_values m)) as [x|] eqn:E; [|done].
  apply lastByKey_Some in E as [[k' Hk']%elem_of_map_values Hkx].
  pose proof (Hwf _ _ Hk') as Hkey. simpl in Hkey. congruence.
Qed.

(** Two key-unique lists that agree on every key are permutations. *)
Lemma perm_of_lastByKey l1 l2 :
NoDup (key <$> l1) -> NoDup (key <$> l2) ->
(forall k, lastByKey k l1 = lastByKey k l2) -> l1 ≡ₚ l2.
Proof.
intros Hnd1 Hnd2 Heq. apply NoDup_Permutation.
- by eapply NoDup_fmap_1.
- by eapply NoDup_fmap_1.
- intros x. split; intros Hin.
  + assert (lastByKey (key x) l1 = Some x) as Hx by (by apply lastByKey_NoDup).
    rewrite Heq in Hx. by apply lastByKey_Some in Hx as [? _].
  + assert (lastByKey (key x) l2 = Some x) as Hx by (by apply lastByKey_NoDup).
    rewrite <-Heq in Hx. by apply lastByKey_Some in Hx as [? _].
Qed.
End KeyedMap.


(** ** Loops that can fail

    A Go loop whose body may return an error is a [foldl] over a
    [result] accumulator whose step leaves an error untouched.  An
    invariant of the successful states ([Inv]) and of the errors
    ([ErrInv]) preserved by one step holds after the loop. *)
Definition res_holds {E S} (Inv : S -> Prop) (ErrInv : E -> Prop) (r : result E S) : Prop :=
  match r with Ok s => Inv s | Err e => ErrInv e end.

Section ResultFold.
Context {E A S : Type} (step : result E S -> A -> result E S).
Hypothesis step_err : forall e x, step (Err e) x = Err e.

Lemma foldl_result_inv (Inv : S -> Prop) (ErrInv : E -> Prop) l r :
  (forall s x, Inv s -> res_holds Inv ErrInv (step (Ok s) x)) ->
  res_holds Inv ErrInv r -> res_holds Inv ErrInv (foldl step r l).
Proof.
  intros Hstep. revert r. induction l as [|x l IH]; intros r Hr; simpl; [done|].
  apply IH. destruct r as [s|e]; [by apply Hstep|]. by rewrite step_err.
Qed.
Lemma foldl_result_err e l : foldl step (Err e) l = Err e.
Proof. induction l as [|x l IH]; simpl; [done|by rewrite step_err]. Qed.
End ResultFold.

(** Two loops run in lock step: a relation between their states preserved
    by each pair of steps holds after them; both fail with the same error
    at the same element. *)
Definition rel_res {E S1 S2} (R : S1 -> S2 -> Prop) (r1 : result E S1) (r2 : result E S2) : Prop :=
  match r1, r2 with
  | Ok s1, Ok s2 => R s1 s2
  | Err e1, Err e2 => e1 = e2
  | _, _ => False
  end.

Section ResultSim.
Context {E A S1 S2 : Type} (step1 : result E S1 -> A -> result E S1)
(step2 : result E S2 -> A -> result E S2) (R : S1 -> S2 -> Prop).
Hypothesis step1_err : forall e x, step1 (Err e) x = Err e.
Hypothesis step2_err : forall e x, step2 (Err e) x = Err e.

Lemma foldl_result_sim l r1 r2 :
(forall s1 s2 x, R s1 s2 -> rel_res R (step1 (Ok s1) x) (step2 (Ok s2) x)) ->
rel_res R r1 r2 -> rel_res R (foldl step1 r1 l) (foldl step2 r2 l).
Proof.
intros Hstep. revert r1 r2. induction l as [|x l IH]; intros r1 r2 Hr; simpl; [done|].
apply IH. destruct r1 as [s1|e1], r2 as [s2|e2]; simpl in Hr; try done.
- by apply Hstep.
- subst. by rewrite step1_err, step2_err.
Qed.
End ResultSim.


(** Strings: [+:+] is [String.append], which stdpp keeps from [simpl]. *)
Lemma string_app_cons c (s1 s2 : string) : String c s1 +:+ s2 = String c (s1 +:+ s2).
Proof. done. Qed.

Lemma string_app_nil_l (s : string) : "" +:+ s = s.
Proof. done. Qed.

Lemma string_app_assoc (s1 s2 s3 : string) : (s1 +:+ s2) +:+ s3 = s1 +:+ (s2 +:+ s3).
Proof. induction s1 as [|c s1 IH]; [done|]. by rewrite !string_app_cons, IH. Qed.

Lemma string_app_nil_r (s : string) : s +:+ "" = s.
Proof. induction s as [|c s IH]; [done|]. by rewrite string_app_cons, IH. Qed.

(** A plain loop: an invariant preserved by every step on the elements of
    the list holds after it. *)
Lemma foldl_inv {A S} (step : S -> A -> S) (Inv : S -> Prop) l s :
  (forall s x, x ∈ l -> Inv s -> Inv (step s x)) -> Inv s -> Inv (foldl step s l).
Proof.
  revert s. induction l as [|x l IH]; intros s Hstep Hs; simpl; [done|].
  apply IH; [intros; apply Hstep; [by right|done]|]. apply Hstep; [by left|done].
Qed.

#[export] Hint Resolve keyed_wf_empty keyed_wf_assign map_values_NoDup : origin.
#[export] Hint Rewrite string_app_assoc string_app_nil_r string_app_cons string_app_nil_l : origin_rw.
#[export] Hint Rewrite @lookup_assign_by_key @lastByKey_app @orElse_absorb @orElse_None_r : origin_rw.
