(* ===== verification/GoReflect.v ===== *)
(** * GoReflect: the Go types and values that origin's reflective code handles

    The engine and the copier of origin work on [reflect.Type] and
    [reflect.Value].  Module [GoReflect] gives them a semantics: a Go type
    is a [ty] (the predeclared [bool], [int], [uint], [string], struct
    types with named, tagged, possibly embedded fields, slices and
    pointers), a Go value a [val].  The operations of package [reflect]
    that origin calls are functions on them: [Kind], [Name],
    [FieldByName] (with promotion through embedded structs), [CanSet],
    [AssignableTo], [ConvertibleTo], [Convert] (64-bit wrap-around of
    [int] and [uint], the rune conversion of an integer to a string) and
    [reflect.Zero].  Errors returned through [fmt.Errorf] are the
    constructors of [goerr], one per format string of the sources, [%w]
    wrapping being nesting.  [FieldByName] searches depth by depth with
    fuel; the end of the file shows the fuel enough.

    Not modelled: interfaces, maps, channels, functions and floats (no
    model type of origin has them), pointer-embedded structs, and the
    aliasing of pointers (a pointer owns its target: every pointer the
    sources write through is freshly allocated or a struct field). *)

From S2P Require Import Prelude.

Scheme All for list.
Scheme All for option.
Scheme All for prod.

Module GoReflect.

(** A struct field: [reflect.StructField] with its [Name], [Type], [Tag]
    and [Anonymous] (embedded) flag. *)
Record fieldOf (T : Type) := Field { fname : string; ftype : T; ftag : string; fanon : bool }.
Arguments Field {T} _ _ _ _.
Arguments fname {T} _.
Arguments ftype {T} _.
Arguments ftag {T} _.
Arguments fanon {T} _.
Scheme All for fieldOf.

(** A Go type.  [TStruct name fs] is a struct type; [name] is its type
    name ("" for the unnamed types [reflect.StructOf] builds). *)
Inductive ty : Type :=
| TBool
| TInt
| TUint
| TString
| TStruct (name : string) (fs : list (fieldOf ty))
| TSlice (t : ty)
| TPtr (t : ty).

Abbreviation field := (fieldOf ty).

(** [reflect.Kind]: [reflect.Bool], ..., [reflect.Ptr]. *)
Inductive kind := KBool | KInt | KUint | KString | KStruct | KSlice | KPtr.

Definition Kind (t : ty) : kind :=
  match t with
  | TBool => KBool | TInt => KInt | TUint => KUint | TString => KString
  | TStruct _ _ => KStruct | TSlice _ => KSlice | TPtr _ => KPtr
  end.

(** [reflect.Type.Name]: the predeclared names, a struct's type name, and
    "" for unnamed types. *)
Definition Name (t : ty) : string :=
  match t with
  | TBool => "bool" | TInt => "int" | TUint => "uint" | TString => "string"
  | TStruct n _ => n | TSlice _ | TPtr _ => ""
  end.

(** Type identity; with [ignore_tags] the identity used by conversions,
    which ignores the tags of unnamed struct types. *)
Fixpoint ty_ident (ignore_tags : bool) (a b : ty) : bool :=
  match a, b with
  | TBool, TBool | TInt, TInt | TUint, TUint | TString, TString => true
  | TStruct n fs, TStruct n' fs' =>
      let ign := ignore_tags && bool_decide (n = "") in
      bool_decide (n = n') &&
      (fix go (xs ys : list field) : bool :=
         match xs, ys with
         | [], [] => true
         | Field x t g e :: xs', Field y u h e' :: ys' =>
             bool_decide (x = y) && ty_ident ign t u &&
             (ign || bool_decide (g = h)) && Bool.eqb e e' && go xs' ys'
         | _, _ => false
         end) fs fs'
  | TSlice a, TSlice b | TPtr a, TPtr b => ty_ident ignore_tags a b
  | _, _ => false
  end.

Lemma prod_all_snd {A B : Type} (PA : A -> Type) (PB : B -> Prop) (p : A * B) :
  prod_all A PA B PB p -> PB p.2.
Proof. by destruct 1. Qed.

Lemma fieldOf_all_ftype (P : ty -> Prop) (f : field) : fieldOf_all ty P f -> P (ftype f).
Proof. by destruct 1. Qed.

Lemma ty_ident_eq a b : ty_ident false a b = true <-> a = b.
Proof.
  revert b. induction a as [| | | |n fs IH| a IH| a IH] using ty_ind; intros [| | | |n' fs'|b|b];
    simpl; try (split; congruence).
  2,3: specialize (IH b); split; [intros ->%IH; done | intros [= ->]; by apply IH].
  rewrite andb_true_iff, bool_decide_eq_true.
  assert ((fix go (xs ys : list field) : bool :=
      match xs, ys with
      | [], [] => true
      | Field x t g e :: xs', Field y u h e' :: ys' =>
          bool_decide (x = y) && ty_ident false t u && (false || bool_decide (g = h)) &&
          Bool.eqb e e' && go xs' ys'
      | _, _ => false
      end) fs fs' = true <-> fs = fs') as ->.
  { revert fs'. induction IH as [|[x t g e] Ht fs _ IHfs]; intros [|[y u h e'] fs'];
      simpl; try (split; congruence).
    rewrite !andb_true_iff, !bool_decide_eq_true, Bool.eqb_true_iff, IHfs.
    apply fieldOf_all_ftype in Ht. simpl in Ht.
    rewrite Ht. naive_solver. }
  naive_solver.
Qed.

#[export] Instance ty_eq_dec : EqDecision ty.
Proof.
  intros a b. destruct (ty_ident false a b) eqn:E.
  - left. by apply ty_ident_eq.
  - right. intros <-. assert (ty_ident false a a = true) by (by apply ty_ident_eq). congruence.
Defined.

(** A Go value.  A struct value carries its type name and its fields with
    their descriptors; a slice its element type; a pointer its target type
    and [None] for nil. *)
Inductive val : Type :=
| VBool (b : bool)
| VInt (z : Z)
| VUint (z : Z)
| VString (s : string)
| VStruct (name : string) (fvs : list (field * val))
| VSlice (t : ty) (xs : list val)
| VPtr (t : ty) (p : option val).

(** [reflect.Value.Type] *)
Definition typeOf (v : val) : ty :=
  match v with
  | VBool _ => TBool | VInt _ => TInt | VUint _ => TUint | VString _ => TString
  | VStruct n fvs => TStruct n fvs.*1
  | VSlice t _ => TSlice t
  | VPtr t _ => TPtr t
  end.

(** [int] and [uint] are 64 bits wide. *)
Definition int_min : Z := (- 2 ^ 63)%Z.
Definition int_max : Z := (2 ^ 63 - 1)%Z.
Definition uint_max : Z := (2 ^ 64 - 1)%Z.

(** Well-typed values: integers within their width, struct fields, slice
    elements and pointer targets of the declared types. *)
Fixpoint val_wt (v : val) : Prop :=
  match v with
  | VBool _ | VString _ => True
  | VInt z => (int_min <= z <= int_max)%Z
  | VUint z => (0 <= z <= uint_max)%Z
  | VStruct _ fvs =>
      (fix go (l : list (field * val)) : Prop :=
         match l with
         | [] => True
         | (f, x) :: l' => typeOf x = ftype f /\ val_wt x /\ go l'
         end) fvs
  | VSlice t xs =>
      (fix go (l : list val) : Prop :=
         match l with [] => True | x :: l' => typeOf x = t /\ val_wt x /\ go l' end) xs
  | VPtr t p => match p with None => True | Some x => typeOf x = t /\ val_wt x end
  end.

(** [val_wt] as a boolean test, so that concrete values are checked by
    computation. *)
Fixpoint val_wtb (v : val) : bool :=
  match v with
  | VBool _ | VString _ => true
  | VInt z => (int_min <=? z)%Z && (z <=? int_max)%Z
  | VUint z => (0 <=? z)%Z && (z <=? uint_max)%Z
  | VStruct _ fvs =>
      (fix go (l : list (field * val)) : bool :=
         match l with
         | [] => true
         | (f, x) :: l' => bool_decide (typeOf x = ftype f) && val_wtb x && go l'
         end) fvs
  | VSlice t xs =>
      (fix go (l : list val) : bool :=
         match l with [] => true | x :: l' => bool_decide (typeOf x = t) && val_wtb x && go l' end) xs
  | VPtr t p => match p with None => true | Some x => bool_decide (typeOf x = t) && val_wtb x end
  end.

(** [reflect.Zero(t)] (also what [reflect.New(t).Elem()] holds). *)
Fixpoint zeroOf (t : ty) : val :=
  match t with
  | TBool => VBool false
  | TInt => VInt 0%Z
  | TUint => VUint 0%Z
  | TString => VString ""
  | TStruct n fs =>
      VStruct n ((fix go (l : list field) : list (field * val) :=
                    match l with
                    | [] => []
                    | Field x t' g e :: l' => (Field x t' g e, zeroOf t') :: go l'
                    end) fs)
  | TSlice t' => VSlice t' []
  | TPtr t' => VPtr t' None
  end.

(** ** Errors *)

(** One constructor per [fmt.Errorf] format of the sources; [ErrPanic] is a
    run-time panic of package [reflect], [ErrDB] an error of the database
    backend, [ErrRequest] an error of the web framework reading a request
    (its path parameter or its body). *)
Inductive goerr : Type :=
| ErrTypeMismatch (src dst : ty)
| ErrNotStructs
| ErrField (name : string) (e : goerr)
| ErrElement (i : nat) (e : goerr)
| ErrFillNotStructs
| ErrSliceMismatch (name : string)
| ErrAssign (name : string) (src dst : ty)
| ErrAssignUpdate (name : string) (src dst : ty)
| ErrCannotSet (name : string)
| ErrIndexed (name : string) (j : nat) (e : goerr)
| ErrNamed (name : string) (e : goerr)
| ErrPanic (msg : string)
| ErrDB (msg : string)
| ErrRequest (msg : string).

Abbreviation gres := (result goerr).

(** ** Fields and promotion *)

(** A name is exported when its first letter is upper case (ASCII). *)
Definition is_upper (c : Ascii.ascii) : bool :=
  (65 <=? Ascii.nat_of_ascii c) && (Ascii.nat_of_ascii c <=? 90).

Definition isExported (name : string) : bool :=
  match name with EmptyString => false | String c _ => is_upper c end.

(** The fields of the struct type a field embeds (pointer-embedded
    structs are not modelled). *)
Definition embedded_fields (f : field) : list field :=
  if fanon f then match ftype f with TStruct _ fs => fs | _ => [] end else [].

(** The fields reachable at embedding depth [d], each with its index path. *)
Fixpoint fieldsAtDepth (d : nat) (fs : list field) : list (list nat * field) :=
  match d with
  | O => imap (fun i f => ([i], f)) fs
  | S d' => concat (imap (fun i f => (fun '(p, g) => (i :: p, g)) <$> fieldsAtDepth d' (embedded_fields f)) fs)
  end.

(** Nesting depth of a type: a bound on the embedding depth. *)
Fixpoint ty_depth (t : ty) : nat :=
  match t with
  | TStruct _ fs => S (list_max ((fix go (l : list field) : list nat :=
                                     match l with [] => [] | Field _ t' _ _ :: l' => ty_depth t' :: go l' end) fs))
  | TSlice t' | TPtr t' => S (ty_depth t')
  | _ => O
  end.

(** The shallowest field satisfying [P], searched like [FieldByName]
    (method promotion follows the same rule). *)
Fixpoint fieldWhereAt (P : field -> bool) (fs : list field) (d fuel : nat) : option (list nat * field) :=
  match fuel with
  | O => None
  | S fuel' =>
      match filter (fun pf => P pf.2 = true) (fieldsAtDepth d fs) with
      | [pf] => Some pf
      | [] => fieldWhereAt P fs (S d) fuel'
      | _ => None
      end
  end.

(** [reflect.Type.FieldByName] on a struct type: the shallowest field with
    that name, searched depth by depth through embedded structs; two
    fields of that name at the shallowest depth make the name ambiguous,
    and no field is found. *)
Definition FieldByName (t : ty) (name : string) : option (list nat * field) :=
  match t with
  | TStruct _ fs => fieldWhereAt (fun f => bool_decide (fname f = name)) fs 0 (S (ty_depth t))
  | _ => None
  end.

(** [reflect.Value.FieldByIndex] and the write through a settable field. *)
Fixpoint getPath (p : list nat) (v : val) : option val :=
  match p with
  | [] => Some v
  | i :: p' =>
      match v with
      | VStruct _ fvs => match fvs !! i with Some (_, x) => getPath p' x | None => None end
      | _ => None
      end
  end.

Fixpoint setPath (p : list nat) (x : val) (v : val) : val :=
  match p with
  | [] => x
  | i :: p' =>
      match v with
      | VStruct n fvs => VStruct n (alter (fun fy => (fy.1, setPath p' x fy.2)) i fvs)
      | _ => v
      end
  end.

(** [reflect.Value.FieldByName] on a value: the field's value. *)
Definition fieldValue (v : val) (name : string) : option val :=
  match FieldByName (typeOf v) name with
  | Some (p, _) => getPath p v
  | None => None
  end.

(** [dst.FieldByName(name)] is valid and [CanSet] when the field exists and
    is exported ([dst] is always addressable at the call sites). *)
Definition settableField (t : ty) (name : string) : option (list nat * field) :=
  match FieldByName t name with
  | Some (p, f) => if isExported (fname f) then Some (p, f) else None
  | None => None
  end.

(** The method [GetLanguageID] is declared on [orm.ContentModel] with a
    value receiver; a struct type has it when it is [ContentModel] or
    embeds it (promotion), a pointer type when its base type has it.
    [contentModelPath t] is the path to the [ContentModel] whose method a
    call on a value of type [t] runs. *)
Definition is_content_embedding (f : field) : bool :=
  fanon f && bool_decide (Name (ftype f) = "ContentModel").

Definition contentModelPath (t : ty) : option (list nat) :=
  match t with
  | TStruct "ContentModel" _ => Some []
  | TStruct _ fs => fst <$> fieldWhereAt is_content_embedding fs 0 (S (ty_depth t))
  | _ => None
  end.

(** [t.Implements(iContentModelType)]: [t] implements [orm.IContentModel]. *)
Definition implementsContent (t : ty) : bool :=
  match t with
  | TPtr t' => bool_decide (is_Some (contentModelPath t'))
  | _ => bool_decide (is_Some (contentModelPath t))
  end.

(** A double quote, for struct tags. *)
Definition dq : string := String (Ascii.ascii_of_nat 34) EmptyString.

(** [reflect.Type.String] (unnamed struct types are printed without their
    tags). *)
Fixpoint typeString (t : ty) : string :=
  match t with
  | TBool => "bool" | TInt => "int" | TUint => "uint" | TString => "string"
  | TStruct "" fs =>
      "struct {" ++
      (fix go (l : list field) : string :=
         match l with
         | [] => ""
         | Field x t' _ _ :: l' => " " +:+ x +:+ " " +:+ typeString t' +:+ (if bool_decide (l' = []) then " " else ";") +:+ go l'
         end) fs +:+ "}"
  | TStruct n _ => n
  | TSlice t' => "[]" +:+ typeString t'
  | TPtr t' => "*" +:+ typeString t'
  end.

(** [reflect.Value.String]: the string of a string value, ["<T Value>"]
    for any other kind. *)
Definition valueString (v : val) : string :=
  match v with
  | VString s => s
  | _ => "<" +:+ typeString (typeOf v) +:+ " Value>"
  end.

(** ** Assignability and conversion *)

Definition named (t : ty) : bool :=
  match t with
  | TStruct n _ => negb (bool_decide (n = ""))
  | TSlice _ | TPtr _ => false
  | _ => true
  end.

Definition underlying (t : ty) : ty :=
  match t with TStruct _ fs => TStruct "" fs | _ => t end.

(** [V.AssignableTo(T)]: identical types, or identical underlying types
    of which one is unnamed. *)
Definition AssignableTo (v t : ty) : bool :=
  ty_ident false v t ||
  (ty_ident false (underlying v) (underlying t) && (negb (named v) || negb (named t))).

Definition is_integer (t : ty) : bool :=
  match t with TInt | TUint => true | _ => false end.

(** [V.ConvertibleTo(T)] *)
Definition ConvertibleTo (v t : ty) : bool :=
  AssignableTo v t
  || ty_ident true (underlying v) (underlying t)
  || match v, t with TPtr a, TPtr b => ty_ident true (underlying a) (underlying b) | _, _ => false end
  || (is_integer v && is_integer t)
  || (is_integer v && bool_decide (t = TString)).

(** Two's complement wrap-around to 64 bits. *)
Definition wrapU (z : Z) : Z := (z mod 2 ^ 64)%Z.
Definition wrapI (z : Z) : Z :=
  let u := wrapU z in if (u <=? int_max)%Z then u else (u - 2 ^ 64)%Z.

(** [string(rune(z))]: the UTF-8 encoding of a code point, "�" for
    values that are not Unicode scalar values. *)
Definition byte_of (z : Z) : Ascii.ascii := Ascii.ascii_of_N (Z.to_N z).

Definition runeString (z : Z) : string :=
  if ((z <? 0) || (1114111 <? z) || ((55296 <=? z) && (z <=? 57343)))%Z then
    String (byte_of 239) (String (byte_of 191) (String (byte_of 189) EmptyString))
  else if (z <? 128)%Z then String (byte_of z) EmptyString
  else if (z <? 2048)%Z then
    String (byte_of (192 + z / 64)) (String (byte_of (128 + z mod 64)) EmptyString)
  else if (z <? 65536)%Z then
    String (byte_of (224 + z / 4096))
      (String (byte_of (128 + (z / 64) mod 64)) (String (byte_of (128 + z mod 64)) EmptyString))
  else
    String (byte_of (240 + z / 262144))
      (String (byte_of (128 + (z / 4096) mod 64))
         (String (byte_of (128 + (z / 64) mod 64)) (String (byte_of (128 + z mod 64)) EmptyString))).

(** A value re-typed at a type with the same structure (the result of a
    conversion between types with identical underlying types). *)
Fixpoint retype (t : ty) (x : val) : val :=
  match t, x with
  | TStruct n fs, VStruct _ fvs =>
      VStruct n ((fix go (fs : list field) (fvs : list (field * val)) : list (field * val) :=
                    match fs, fvs with
                    | Field a t' g e :: fs', (_, y) :: fvs' => (Field a t' g e, retype t' y) :: go fs' fvs'
                    | _, _ => []
                    end) fs fvs)
  | TSlice t', VSlice _ xs => VSlice t' (retype t' <$> xs)
  | TPtr t', VPtr _ p => VPtr t' (retype t' <$> p)
  | _, _ => x
  end.

(** [x.Convert(T)] for [x.Type().ConvertibleTo(T)]. *)
Definition Convert (x : val) (t : ty) : val :=
  match x, t with
  | VInt z, TInt | VUint z, TInt => VInt (wrapI z)
  | VInt z, TUint | VUint z, TUint => VUint (wrapU z)
  | VInt z, TString | VUint z, TString => VString (runeString z)
  | _, _ => retype t x
  end.

(** ** Basic facts *)

Lemma ty_ident_refl t : ty_ident false t t = true.
Proof. by apply ty_ident_eq. Qed.

Lemma AssignableTo_refl t : AssignableTo t t = true.
Proof. unfold AssignableTo. by rewrite ty_ident_refl. Qed.

Lemma typeOf_zeroOf t : typeOf (zeroOf t) = t.
Proof.
  induction t as [| | | |n fs IH| |] using ty_ind; simpl; try done.
  f_equal. induction IH as [|[x t' g e] Ht fs _ IHfs]; simpl; [done|].
  f_equal. apply IHfs.
Qed.

Lemma val_wt_struct n f x l : val_wt (VStruct n ((f, x) :: l)) <-> typeOf x = ftype f /\ val_wt x /\ val_wt (VStruct n l).
Proof. done. Qed.

Lemma retype_id v : val_wt v -> retype (typeOf v) v = v.
Proof.
  induction v as [| | | |n fvs IH|t xs IH|t p IH] using val_ind; simpl; try done.
  - intros Hwt. f_equal. induction IH as [|fy Hy fvs _ IHl]; [done|].
    destruct fy as [[x t' g e] y]. simpl in *.
    destruct Hwt as (Hty & Hwy & Hwt). subst t'.
    apply prod_all_snd in Hy. simpl in Hy. rewrite (Hy Hwy). f_equal. by apply IHl.
  - intros Hwt. f_equal. revert Hwt. induction IH as [|y Hy ys _ IHl]; intros Hwt; [done|].
    destruct Hwt as (Hty & Hwy & Hwt). rewrite Hty in Hy.
    rewrite fmap_cons, (Hy Hwy). f_equal. by apply IHl.
  - destruct IH as [y Hy|]; simpl; [|done]. intros [Hty Hwy]. rewrite Hty in Hy. by rewrite (Hy Hwy).
Qed.

#[export] Hint Resolve ty_ident_refl AssignableTo_refl : origin.
#[export] Hint Rewrite typeOf_zeroOf AssignableTo_refl : origin_rw.

Lemma val_wt_zeroOf t : val_wt (zeroOf t).
Proof.
  induction t as [| | | |n fs IH| |] using ty_ind; simpl; try done;
    unfold int_min, int_max, uint_max; try lia.
  induction IH as [|[x t' g e] Ht fs _ IHfs]; simpl; [done|].
    apply fieldOf_all_ftype in Ht. simpl in Ht.
    split; [apply typeOf_zeroOf|]. split; [exact Ht|exact IHfs].
Qed.

(** Pointer base: the type a chain of pointers finally points to. *)
Fixpoint ptr_base (t : ty) : ty := match t with TPtr t' => ptr_base t' | _ => t end.

(** A value whose pointer chain ends in a non-nil target. *)
Fixpoint nonnil_chain (v : val) : bool :=
  match v with VPtr _ None => false | VPtr _ (Some x) => nonnil_chain x | _ => true end.

Lemma wrapU_bounds z : (0 <= wrapU z <= uint_max)%Z.
Proof. unfold wrapU, uint_max. pose proof (Z.mod_pos_bound z (2 ^ 64)). lia. Qed.

Lemma wrapI_bounds z : (int_min <= wrapI z <= int_max)%Z.
Proof. unfold wrapI, int_min, int_max. pose proof (wrapU_bounds z) as H. unfold uint_max in H.
  destruct (Z.leb_spec (wrapU z) (2 ^ 63 - 1)); lia. Qed.

Lemma wrapI_wrapU z : (int_min <= z <= int_max)%Z -> wrapI (wrapU z) = z.
Proof.
  unfold wrapI, wrapU, int_min, int_max. intros Hz.
  rewrite Z.mod_mod by lia.
  destruct (Z.le_gt_cases 0 z).
  - rewrite Z.mod_small by lia. destruct (Z.leb_spec z (2 ^ 63 - 1)); lia.
  - assert (z mod 2 ^ 64 = z + 2 ^ 64)%Z as ->.
    { rewrite <-(Z.mod_small (z + 2 ^ 64) (2 ^ 64)) by lia.
      rewrite Z.add_mod, Z.mod_same, Z.add_0_r, Z.mod_mod by lia. done. }
    destruct (Z.leb_spec (z + 2 ^ 64) (2 ^ 63 - 1)); lia.
Qed.

Lemma runeString_length z : 1 <= String.length (runeString z) <= 4.
Proof. unfold runeString. repeat case_match; simpl; lia. Qed.

Lemma val_wt_struct_Forall n fvs :
  val_wt (VStruct n fvs) <-> Forall (fun fv => typeOf fv.2 = ftype fv.1 /\ val_wt fv.2) fvs.
Proof.
  induction fvs as [|[f x] l IH]; [split; intros _; [constructor|exact I]|].
  rewrite Forall_cons, <-IH. simpl.
  split; [intros (H1 & H2 & H3); split; [split|]; assumption
         |intros ((H1 & H2) & H3); split; [|split]; assumption].
Qed.

(** Depth-0 lookup: with distinct field names, the field named [x] at
    index [i] is the only candidate. *)
Lemma filter_imap_absent (fs : list field) x k :
  x ∉ fname <$> fs ->
  filter (fun pf : list nat * field => bool_decide (fname pf.2 = x) = true) (imap (fun j g => ([k + j], g)) fs) = [].
Proof.
  revert k. induction fs as [|g fs IH]; intros k Hx; [done|].
  rewrite imap_cons, filter_cons. rewrite fmap_cons, elem_of_cons in Hx.
  rewrite decide_False by (rewrite bool_decide_eq_true; simpl; naive_solver).
  rewrite <-(IH (S k)) by naive_solver. f_equal. apply imap_ext. intros j y _. simpl. by rewrite Nat.add_succ_r.
Qed.

Lemma filter_imap_unique (fs : list field) x i f k :
  NoDup (fname <$> fs) -> fs !! i = Some f -> fname f = x ->
  filter (fun pf : list nat * field => bool_decide (fname pf.2 = x) = true) (imap (fun j g => ([k + j], g)) fs) = [([k + i], f)].
Proof.
  revert i k. induction fs as [|g fs IH]; intros i k Hnd Hi Hx; [done|].
  rewrite fmap_cons, NoDup_cons in Hnd. destruct Hnd as [Hg Hnd].
  rewrite imap_cons, filter_cons. destruct i as [|i]; simpl in Hi.
  - injection Hi as ->. rewrite decide_True by (by apply bool_decide_eq_true).
    rewrite Nat.add_0_r. f_equal. subst x.
    rewrite <-(filter_imap_absent fs (fname f) (S k)) by done.
    f_equal. apply imap_ext. intros j y _. simpl. by rewrite Nat.add_succ_r.
  - assert (fname g <> x).
    { intros Heq. apply Hg. subst x. apply list_elem_of_fmap. exists f. split; [done|].
      by eapply list_elem_of_lookup_2. }
    rewrite decide_False by (rewrite bool_decide_eq_true; done).
    rewrite <-Nat.add_succ_comm. rewrite <-(IH i (S k)) by done.
    f_equal. apply imap_ext. intros j y _. simpl. by rewrite Nat.add_succ_r.
Qed.

Lemma fieldWhereAt_found P fs d fuel pf :
  filter (fun pf => P pf.2 = true) (fieldsAtDepth d fs) = [pf] -> fieldWhereAt P fs d (S fuel) = Some pf.
Proof. intros H. simpl. by rewrite H. Qed.

Lemma settableField_direct n fs i f :
  NoDup (fname <$> fs) -> fs !! i = Some f -> isExported (fname f) = true ->
  settableField (TStruct n fs) (fname f) = Some ([i], f).
Proof.
  intros Hnd Hi He. unfold settableField, FieldByName.
  rewrite (fieldWhereAt_found _ _ _ _ ([i], f)); [simpl; by rewrite He|].
  exact (filter_imap_unique fs (fname f) i f 0 Hnd Hi eq_refl).
Qed.

Lemma getPath_middle n pre f v l :
  getPath [length pre] (VStruct n (pre ++ (f, v) :: l)) = Some v.
Proof. simpl. by rewrite list_lookup_middle. Qed.

Lemma setPath_middle n pre f v y l :
  setPath [length pre] y (VStruct n (pre ++ (f, v) :: l)) = VStruct n (pre ++ (f, y) :: l).
Proof. simpl. rewrite <-(Nat.add_0_r (length pre)), alter_app_r. done. Qed.

(** ** Paths found by [FieldByName] in well-typed values *)

Lemma fieldWhereAt_sound P fs d fuel pf :
  fieldWhereAt P fs d fuel = Some pf -> P pf.2 = true /\ exists d', pf ∈ fieldsAtDepth d' fs.
Proof.
  revert d. induction fuel as [|fuel IH]; intros d; simpl; [done|].
  destruct (filter _ (fieldsAtDepth d fs)) as [|pf' [|? ?]] eqn:E; [apply IH|intros [= <-]|done].
  assert (pf' ∈ filter (fun pf => P pf.2 = true) (fieldsAtDepth d fs)) as Hin by (rewrite E; left).
  apply list_elem_of_filter in Hin as [HP Hin]. eauto.
Qed.

Lemma typeOf_struct_inv x n fs : typeOf x = TStruct n fs -> exists fvs, x = VStruct n fvs /\ fvs.*1 = fs.
Proof. destruct x; simpl; try discriminate. intros [= -> <-]. eauto. Qed.

Lemma val_wt_lookup n fvs i f x :
  val_wt (VStruct n fvs) -> fvs !! i = Some (f, x) -> typeOf x = ftype f /\ val_wt x.
Proof.
  rewrite val_wt_struct_Forall. intros Hwt Hi.
  by apply (Forall_lookup_1 _ _ _ _ Hwt Hi).
Qed.

(** The value at a path of [fieldsAtDepth] exists and has the type of the
    field found there. *)
Lemma getPath_fieldsAtDepth d n fvs p f :
  val_wt (VStruct n fvs) -> (p, f) ∈ fieldsAtDepth d fvs.*1 ->
  exists v, getPath p (VStruct n fvs) = Some v /\ typeOf v = ftype f /\ val_wt v.
Proof.
  revert n fvs p f. induction d as [|d IH]; intros n fvs p f Hwt Hin; simpl in Hin.
  - apply elem_of_lookup_imap in Hin as (i & g & [= -> ->] & Hg).
    rewrite list_lookup_fmap in Hg. destruct (fvs !! i) as [[g' x]|] eqn:Ei; [|done].
    injection Hg as <-. destruct (val_wt_lookup n fvs i g' x Hwt Ei). exists x. simpl. by rewrite Ei.
  - apply list_elem_of_In, in_concat in Hin as (l & Hl & Hin). apply list_elem_of_In in Hl, Hin.
    apply elem_of_lookup_imap in Hl as (i & g & -> & Hg).
    apply list_elem_of_fmap in Hin as ([p' f'] & [= -> ->] & Hin).
    rewrite list_lookup_fmap in Hg. destruct (fvs !! i) as [[g' x]|] eqn:Ei; [|done].
    injection Hg as <-. destruct (val_wt_lookup n fvs i g' x Hwt Ei) as [Hty Hwx].
    unfold embedded_fields in Hin. destruct (fanon g'), (ftype g') as [| | | |n' gfs| |] eqn:Et;
      try (destruct d; simpl in Hin; set_solver).
    apply typeOf_struct_inv in Hty as (xfvs & -> & <-).
    destruct (IH n' xfvs p' _ Hwx Hin) as (v & Hv & Hvt). exists v. simpl. by rewrite Ei.
Qed.

(** The field [FieldByName] finds in the type of a
    well-typed value is at a path where the value holds a well-typed value
    of the field's type. *)
Lemma FieldByName_wt m name p f :
  val_wt m -> FieldByName (typeOf m) name = Some (p, f) ->
  fname f = name /\ exists v, getPath p m = Some v /\ typeOf v = ftype f /\ val_wt v.
Proof.
  intros Hwt. destruct m as [| | | |n fvs| |]; try discriminate.
  unfold FieldByName, typeOf. intros (HP & d & Hin)%fieldWhereAt_sound. simpl in HP. apply bool_decide_eq_true in HP.
  split; [done|]. by eapply getPath_fieldsAtDepth.
Qed.

(** ** Conversions keep values well typed *)

Lemma ty_ident_refl_b b t : ty_ident b t t = true.
Proof.
  revert b. induction t as [| | | |n fs IH|t IH|t IH] using ty_ind; intros b; simpl; try done.
  rewrite bool_decide_eq_true_2 by done. simpl.
  induction IH as [|[x t g e] Ht fs _ IHfs]; [done|]. simpl.
  apply fieldOf_all_ftype in Ht. simpl in Ht.
  rewrite bool_decide_eq_true_2, Ht by done. simpl.
  rewrite (bool_decide_eq_true_2 (g = g)), orb_true_r, Bool.eqb_reflx by done. simpl. exact IHfs.
Qed.

Lemma ty_ident_underlying b t u :
  ty_ident b t u = true -> ty_ident b (underlying t) (underlying u) = true.
Proof.
  destruct t as [| | | |n fs| |], u as [| | | |n' fs'| |]; simpl; try done.
  destruct (decide (n = "")) as [->|Hn].
  - intros H. apply andb_prop in H as [Hn' H]. apply bool_decide_eq_true in Hn'. subst n'.
    exact H.
  - intros H. assert (TStruct n fs = TStruct n' fs') as Heq.
    { apply ty_ident_eq. simpl. rewrite (bool_decide_eq_false_2 (n = "")) in H by done.
      rewrite andb_false_r in H. exact H. }
    injection Heq as -> ->. apply (ty_ident_refl_b b (TStruct "" fs')).
Qed.

Lemma typeOf_slice_inv x t : typeOf x = TSlice t -> exists xs, x = VSlice t xs.
Proof. destruct x; simpl; try discriminate. intros [= ->]. eauto. Qed.

Lemma typeOf_ptr_inv x t : typeOf x = TPtr t -> exists p, x = VPtr t p.
Proof. destruct x; simpl; try discriminate. intros [= ->]. eauto. Qed.

(** [retype c x] has type [c] and is well typed when [x] is, provided the
    underlying types are identical (up to tags when [b]). *)
Lemma retype_wt c : forall b a x,
  ty_ident b (underlying a) (underlying c) = true -> typeOf x = a -> val_wt x ->
  typeOf (retype c x) = c /\ val_wt (retype c x).
Proof.
  induction c as [| | | |n fs IH|c IH|c IH] using ty_ind; intros b a x Hid Hty Hwt.
  1-4: destruct a as [| | | |? ?| |]; simpl in Hid; try discriminate; subst; done.
  - destruct a as [| | | |n' fs'| |]; simpl in Hid; try discriminate.
    apply typeOf_struct_inv in Hty as (fvs & -> & <-). rewrite andb_true_r in Hid.
    revert fvs Hid Hwt. induction IH as [|[fx t' g e] Ht fs _ IHfs]; intros [|[[fy ty' gy ey] y] fvs] Hid Hwt;
      simpl in Hid; try discriminate; [done|].
    apply andb_prop in Hid as [Hid Hrest]. apply andb_prop in Hid as [Hid _].
    apply andb_prop in Hid as [Hid _]. apply andb_prop in Hid as [_ Hid].
    destruct Hwt as (Hyt & Hwy & Hwt). simpl in Hyt.
    apply fieldOf_all_ftype in Ht. simpl in Ht.
    destruct (Ht b ty' y) as [Ht1 Ht2]; [by apply ty_ident_underlying|done|done|].
    destruct (IHfs fvs Hrest Hwt) as [IH1 IH2]. simpl in IH1. injection IH1 as IH1.
    simpl. split; [f_equal; f_equal; exact IH1|]. split; [done|]. split; [done|]. exact IH2.
  - destruct a as [| | | |? ?|a|]; simpl in Hid; try discriminate.
    apply typeOf_slice_inv in Hty as (xs & ->). simpl.
    split; [done|]. revert Hwt. induction xs as [|y xs IHxs]; intros Hwt; [done|].
    destruct Hwt as (Hyt & Hwy & Hwt). rewrite fmap_cons.
    destruct (IH b a y) as [H1 H2]; [by apply ty_ident_underlying|done|done|].
    split; [done|]. split; [done|]. by apply IHxs.
  - destruct a as [| | | |? ?| |a]; simpl in Hid; try discriminate.
    apply typeOf_ptr_inv in Hty as ([y|] & ->); simpl; [|done].
    destruct Hwt as [Hyt Hwy]. destruct (IH b a y) as [H1 H2]; [by apply ty_ident_underlying|done|done|].
    done.
Qed.

Lemma AssignableTo_wt x t :
  AssignableTo (typeOf x) t = true -> val_wt x -> typeOf (retype t x) = t /\ val_wt (retype t x).
Proof.
  intros Ha Hwt. unfold AssignableTo in Ha. apply orb_prop in Ha as [Ha|Ha].
  - apply ty_ident_eq in Ha. rewrite <- Ha.
    eapply (retype_wt _ false); [apply ty_ident_refl_b|done|done].
  - apply andb_prop in Ha as [Ha _]. by eapply retype_wt.
Qed.

Lemma retype_conv_wt x t :
  (AssignableTo (typeOf x) t || ty_ident true (underlying (typeOf x)) (underlying t) ||
   match typeOf x, t with TPtr a, TPtr b => ty_ident true (underlying a) (underlying b) | _, _ => false end) = true ->
  val_wt x -> typeOf (retype t x) = t /\ val_wt (retype t x).
Proof.
  intros H Hwt. apply orb_prop in H as [H|H]; [apply orb_prop in H as [H|H]|].
  - by apply AssignableTo_wt.
  - by eapply retype_wt.
  - destruct (typeOf x) as [| | | |? ?| |a] eqn:Ex, t as [| | | |? ?| |c]; try discriminate.
    apply typeOf_ptr_inv in Ex as ([y|] & ->); simpl; [|done].
    destruct Hwt as [Hy Hwy]. by destruct (retype_wt c true a y H Hy Hwy).
Qed.

Lemma Convert_retype x t :
  match x, t with
  | VInt _, (TInt | TUint | TString) | VUint _, (TInt | TUint | TString) => False
  | _, _ => True
  end -> Convert x t = retype t x.
Proof. by destruct x, t. Qed.

(** [Convert] gives a well-typed value of the target type; integers are
    wrapped to 64 bits. *)
Lemma Convert_wt x t :
  ConvertibleTo (typeOf x) t = true -> val_wt x -> typeOf (Convert x t) = t /\ val_wt (Convert x t).
Proof.
  intros Hc Hwt. unfold ConvertibleTo in Hc.
  destruct x as [b|z|z|s|n fvs|et xs|pt p], t as [| | | |n' fs'|t'|t'];
    try (simpl; split; [done|]; first [apply wrapI_bounds|apply wrapU_bounds|done]);
    (rewrite Convert_retype by done; apply retype_conv_wt; [|done]);
    revert Hc; simpl; rewrite ?andb_false_l, ?andb_false_r, ?orb_false_r; auto.
Qed.

(** Writing a well-typed value of the same type at a path keeps the
    enclosing value's type and well-typedness. *)
Lemma setPath_wt p v w w' :
  getPath p v = Some w -> typeOf w' = typeOf w -> val_wt v -> val_wt w' ->
  typeOf (setPath p w' v) = typeOf v /\ val_wt (setPath p w' v).
Proof.
  revert v. induction p as [|i p IH]; intros v Hg Ht Hv Hw'; simpl in *.
  - by injection Hg as <-.
  - destruct v as [| | | |n fvs| |]; try discriminate.
    destruct (fvs !! i) as [[f x]|] eqn:Ei; [|discriminate].
    destruct (val_wt_lookup n fvs i f x Hv Ei) as [Hxt Hxw].
    destruct (IH x Hg Ht Hxw Hw') as [H1 H2]. split.
    + simpl. f_equal. rewrite (list_fmap_alter _ _ id); [by rewrite list_alter_id|].
      by apply Forall_true.
    + apply val_wt_struct_Forall. apply val_wt_struct_Forall in Hv. apply Forall_alter; [done|].
      intros [f' y] Hy _. rewrite Ei in Hy. injection Hy as <- <-. simpl. split; [by rewrite H1|done].
Qed.

Lemma val_wt_slice_Forall t xs :
  val_wt (VSlice t xs) <-> Forall (fun x => typeOf x = t /\ val_wt x) xs.
Proof.
  induction xs as [|x l IH]; [split; intros _; [constructor|exact I]|].
  rewrite Forall_cons, <-IH. simpl. tauto.
Qed.

Lemma settableField_FieldByName t name pf : settableField t name = Some pf -> FieldByName t name = Some pf.
Proof. unfold settableField. destruct (FieldByName t name) as [[p f]|]; [|done]. by case_match. Qed.

Lemma settableField_exported t name p f : settableField t name = Some (p, f) -> isExported (fname f) = true.
Proof. unfold settableField. destruct (FieldByName t name) as [[p' f']|]; [|done]. case_match; congruence. Qed.

Lemma val_wtb_spec v : val_wtb v = true <-> val_wt v.
Proof.
  induction v as [b|z|z|s|n fvs IH|t xs IH|t p IH] using val_ind; simpl; try done.
  - by rewrite andb_true_iff, !Z.leb_le.
  - by rewrite andb_true_iff, !Z.leb_le.
  - induction IH as [|[f x] Hx fvs _ IHl]; [done|]. apply prod_all_snd in Hx. simpl in Hx.
    rewrite !andb_true_iff, bool_decide_eq_true, Hx, IHl. tauto.
  - induction IH as [|x Hx xs _ IHl]; [done|].
    rewrite !andb_true_iff, bool_decide_eq_true, Hx, IHl. tauto.
  - destruct IH as [x Hx|]; [|done]. by rewrite andb_true_iff, bool_decide_eq_true, Hx.
Qed.

#[export] Instance val_wt_dec v : Decision (val_wt v).
Proof. destruct (val_wtb v) eqn:E; [left; by apply val_wtb_spec|right; by rewrite <- val_wtb_spec, E]. Defined.

(** ** The fuel of [FieldByName] is enough *)

Lemma fieldsAtDepth_nil d : fieldsAtDepth d [] = [].
Proof. by destruct d. Qed.

(** The depth below which the fields of [fs] lie: one more than the
    nesting depth of the deepest field type, 0 for no field. *)
Definition fields_depth (fs : list field) : nat := list_max ((fun f => S (ty_depth (ftype f))) <$> fs).

Lemma fields_depth_cons f fs : fields_depth (f :: fs) = Nat.max (S (ty_depth (ftype f))) (fields_depth fs).
Proof. done. Qed.

Lemma fields_depth_ty_depth n fs : fields_depth fs <= ty_depth (TStruct n fs).
Proof.
  induction fs as [|[x t g e] fs IH]; [apply Nat.le_0_l|]. rewrite fields_depth_cons.
  unfold fields_depth in *. cbn [ty_depth] in *. unfold list_max in *. simpl in *.
  remember (foldr Init.Nat.max 0 ((fun f : field => S (ty_depth (ftype f))) <$> fs)) as a.
  remember (foldr Init.Nat.max 0 _) as b. lia.
Qed.

Lemma embedded_fields_depth f : fields_depth (embedded_fields f) <= ty_depth (ftype f).
Proof.
  unfold embedded_fields. destruct (fanon f); [|apply Nat.le_0_l].
  destruct (ftype f) as [| | | |n fs| |]; try apply Nat.le_0_l. apply fields_depth_ty_depth.
Qed.

(** No field lies at an embedding depth beyond the nesting depth. *)
Lemma fieldsAtDepth_deep d fs : fields_depth fs <= d -> fieldsAtDepth d fs = [].
Proof.
  revert fs. induction d as [|d IH]; intros fs Hd; [destruct fs as [|g fs]; [done|rewrite fields_depth_cons in Hd; lia]|].
  simpl. apply concat_nil_Forall, Forall_forall. intros l Hl.
  apply elem_of_lookup_imap in Hl as (i & f & -> & Hf).
  rewrite IH; [done|]. pose proof (embedded_fields_depth f) as Hef.
  assert (S (ty_depth (ftype f)) <= fields_depth fs); [|lia].
  clear IH Hd Hef. revert i Hf. induction fs as [|g fs IHfs]; intros [|i] Hf; try done;
    rewrite fields_depth_cons; simpl in Hf; [injection Hf as <-; lia|].
  specialize (IHfs i Hf). lia.
Qed.

Lemma fieldWhereAt_deep P fs d fuel : fields_depth fs <= d -> fieldWhereAt P fs d fuel = None.
Proof.
  revert d. induction fuel as [|fuel IH]; intros d Hd; [done|]. simpl.
  rewrite fieldsAtDepth_deep by done. apply IH. lia.
Qed.

Lemma fieldWhereAt_fuel P fs d f1 f2 :
  fields_depth fs <= d + f1 -> fields_depth fs <= d + f2 -> fieldWhereAt P fs d f1 = fieldWhereAt P fs d f2.
Proof.
  revert d f2. induction f1 as [|f1 IH]; intros d [|f2] H1 H2.
  - done.
  - symmetry. apply fieldWhereAt_deep. lia.
  - apply fieldWhereAt_deep. lia.
  - simpl. case_match; try done. apply IH; lia.
Qed.

(** the fuel of [FieldByName] is enough: searching the fields of a
    struct type depth by depth with any fuel beyond its nesting depth
    gives [FieldByName]'s answer, no field lying deeper. *)
Theorem FieldByName_fuel_enough n fs name fuel :
  ty_depth (TStruct n fs) <= fuel ->
  fieldWhereAt (fun f => bool_decide (fname f = name)) fs 0 fuel = FieldByName (TStruct n fs) name.
Proof. intros H. pose proof (fields_depth_ty_depth n fs). unfold FieldByName. apply fieldWhereAt_fuel; lia. Qed.

End GoReflect.
