(* ===== verification/Orm.v ===== *)
(** * Orm: the base records and content helpers of src/orm/model.go

    Module [Orm] holds [Model], [Language] and [ContentModel] as Rocq
    records, the [IContentModel] interface as a type class with the
    [ContentModel] instance, and the generic helpers
    [GetAllContentsWithUpdated] and [IsContentContained]; the same records
    as Go struct types ([TModel], [TLanguage], [TContentModel], with their
    tags) and the reflective helpers [ExtractContent] and [IsContentModel]
    on the values of [GoReflect].  The merge is
    related to its abstract specification (per language: the incoming
    entry if there is one, else the current one) and to the spec's claims
    about empty inputs. *)

From S2P Require Import Prelude GoReflect.
Import GoReflect.

Module Orm.

(** [time.Time] values are only stored and compared by this code: an
    instant, counted in nanoseconds. *)
Definition Time := Z.

(** [type Model struct { ID uint; CreatedAt, UpdatedAt time.Time }] *)
Module Model.
Record t := mk { ID : Z; CreatedAt : Time; UpdatedAt : Time }.
End Model.

(** [type Language struct { ID string; Title string; CreatedAt, UpdatedAt }] *)
Module Language.
Record t := mk { ID : string; Title : string; CreatedAt : Time; UpdatedAt : Time }.
End Language.

(** [type IContentModel interface { GetLanguageID() string }] *)
Class IContentModel (CM : Type) := GetLanguageID : CM -> string.

(** [type ContentModel struct { LanguageID string; Language Language; ... }]
    with its value-receiver method [GetLanguageID]. *)
Module ContentModel.
Record t := mk {
  LanguageID : string;
  Language : Language.t;
  CreatedAt : Time;
  UpdatedAt : Time
}.
Definition GetLanguageID (content : t) : string := LanguageID content.
End ContentModel.

#[export] Instance ContentModel_IContentModel : IContentModel ContentModel.t :=
  ContentModel.GetLanguageID.

(** [GetAllContentsWithUpdated[CM IContentModel](currentContents, inputContents []CM) []CM]
    (model.go:63-86): both slices are written into one map keyed by
    language id, [inputContents] second, and the map's values are
    returned. *)
Definition GetAllContentsWithUpdated `{IContentModel CM}
    (currentContents inputContents : list CM) : list CM :=
  let contentMap := assign_by_key GetLanguageID ∅ currentContents in
  let contentMap := assign_by_key GetLanguageID contentMap inputContents in
  map_values contentMap.

(** [IsContentContained(content, contents)] (model.go:208-215). *)
Definition IsContentContained (content : ContentModel.t) (contents : list ContentModel.t) : bool :=
  existsb (fun c => String.eqb (ContentModel.LanguageID c) (ContentModel.LanguageID content)) contents.

(** [func (content ContentModel) IsContained(contents []ContentModel) bool] (model.go:195-197). *)
Definition IsContained (content : ContentModel.t) (contents : list ContentModel.t) : bool :=
  IsContentContained content contents.

(** The abstract specification of the merge: for each language, the last
    incoming entry with that language if there is one, else the last
    current one. *)
Definition merged_spec `{IContentModel CM} (cur inp : list CM) (k : string) : option CM :=
  lastByKey GetLanguageID k inp <?> lastByKey GetLanguageID k cur.

Section Merge.
Context `{IContentModel CM}.
Implicit Types cur inp : list CM.

Lemma merge_map_wf cur inp :
  keyed_wf GetLanguageID (assign_by_key GetLanguageID (assign_by_key GetLanguageID ∅ cur) inp).
Proof. auto with origin. Qed.

Lemma GetAll_lastByKey cur inp k :
  lastByKey GetLanguageID k (GetAllContentsWithUpdated cur inp) = merged_spec cur inp k.
Proof.
  unfold GetAllContentsWithUpdated, merged_spec.
  rewrite lastByKey_map_values by apply merge_map_wf.
  rewrite !lookup_assign_by_key, lookup_empty.
  by destruct (lastByKey _ k cur), (lastByKey _ k inp).
Qed.

Lemma GetAll_NoDup cur inp : NoDup (GetLanguageID <$> GetAllContentsWithUpdated cur inp).
Proof. apply map_values_NoDup, merge_map_wf. Qed.

Lemma GetAll_perm_merged l cur inp :
  NoDup (GetLanguageID <$> l) -> (forall k, lastByKey GetLanguageID k l = merged_spec cur inp k) ->
  GetAllContentsWithUpdated cur inp ≡ₚ l.
Proof.
  intros Hnd Hl. apply (perm_of_lastByKey GetLanguageID); [apply GetAll_NoDup|done|].
  intros k. by rewrite GetAll_lastByKey, Hl.
Qed.

(** C1: [GetAllContentsWithUpdated] refines [merged_spec]: its result
    holds exactly one entry per language id, and for every language id
    that entry is the last incoming entry with that id or, when the
    incoming slice has none, the last current entry with it. *)
Theorem GetAllContentsWithUpdated_refines cur inp :
  NoDup (GetLanguageID <$> GetAllContentsWithUpdated cur inp) /\
  forall k, lastByKey GetLanguageID k (GetAllContentsWithUpdated cur inp) = merged_spec cur inp k.
Proof. split; [apply GetAll_NoDup | apply GetAll_lastByKey]. Qed.

(** merging the same incoming slice a second time changes nothing:
    the result is a permutation of the first merge's result. *)
Theorem GetAllContentsWithUpdated_idempotent cur inp :
  GetAllContentsWithUpdated (GetAllContentsWithUpdated cur inp) inp ≡ₚ
  GetAllContentsWithUpdated cur inp.
Proof.
  apply GetAll_perm_merged; [apply GetAll_NoDup|]. intros k.
  unfold merged_spec at 1. rewrite GetAll_lastByKey. unfold merged_spec. by rewrite orElse_absorb.
Qed.

(** with an empty incoming slice the merge returns the current slice
    as a set, provided no two current entries share a language id. *)
Theorem GetAllContentsWithUpdated_nil_r cur :
  NoDup (GetLanguageID <$> cur) -> GetAllContentsWithUpdated cur [] ≡ₚ cur.
Proof. intros Hnd. by apply GetAll_perm_merged. Qed.

(** With an empty current slice the merge returns the incoming slice
    as a set, provided no two incoming entries share a language id. *)
Theorem GetAllContentsWithUpdated_nil_l inp :
  NoDup (GetLanguageID <$> inp) -> GetAllContentsWithUpdated [] inp ≡ₚ inp.
Proof.
  intros Hnd. apply GetAll_perm_merged; [done|]. intros k.
  unfold merged_spec. cbn [lastByKey]. by rewrite orElse_None_r.
Qed.

(** when two current entries share a language id, the merge with an
    empty incoming slice is not the current slice: the duplicates
    collapse to one entry, contrary to the spec's "merge(current, []) ==
    current". *)
Theorem GetAllContentsWithUpdated_nil_r_dup cur :
  ~ NoDup (GetLanguageID <$> cur) -> ~ (GetAllContentsWithUpdated cur [] ≡ₚ cur).
Proof. intros Hnd Hp. apply Hnd. rewrite <-Hp. apply GetAll_NoDup. Qed.
End Merge.

Lemma IsContentContained_lastByKey content contents :
  IsContentContained content contents =
  bool_decide (is_Some (lastByKey GetLanguageID (ContentModel.LanguageID content) contents)).
Proof.
  unfold IsContentContained.
  destruct (lastByKey _ _ contents) as [x|] eqn:E.
  - rewrite bool_decide_true by by eexists.
    apply lastByKey_Some in E as [Hin Hk]. apply existsb_exists.
    exists x. split; [by apply list_elem_of_In|]. by apply String.eqb_eq.
  - rewrite bool_decide_false by (intros [? ?]; discriminate).
    apply lastByKey_None in E. apply not_true_iff_false. rewrite existsb_exists.
    intros (x & Hin & Hx%String.eqb_eq). apply E.
    apply list_elem_of_fmap. exists x. split; [done|]. by apply list_elem_of_In.
Qed.

(** after a merge, a language is contained in the result exactly when
    it is contained in the current or in the incoming slice. *)
Theorem IsContentContained_merge content cur inp :
  IsContentContained content (GetAllContentsWithUpdated cur inp) =
  IsContentContained content cur || IsContentContained content inp.
Proof.
  rewrite !IsContentContained_lastByKey, GetAll_lastByKey. unfold merged_spec.
  destruct (lastByKey _ _ inp), (lastByKey _ _ cur); reflexivity.
Qed.

Definition cm (lang : string) : ContentModel.t := ContentModel.mk lang (Language.mk lang "" 0%Z 0%Z) 0%Z 0%Z.

(** [GetAllContentsWithUpdated_nil_r_dup] at two current "en" entries, which collapse to one. *)
Lemma GetAllContentsWithUpdated_nil_r_dup_witness :
  ~ NoDup (GetLanguageID <$> [cm "en"; cm "en"]) /\
  ~ (GetAllContentsWithUpdated [cm "en"; cm "en"] [] ≡ₚ [cm "en"; cm "en"]).
Proof.
  assert (~ NoDup (GetLanguageID <$> [cm "en"; cm "en"])) as Hnd.
  { simpl. rewrite NoDup_cons. intros [Hn _]. apply Hn. left. }
  split; [exact Hnd | exact (GetAllContentsWithUpdated_nil_r_dup _ Hnd)].
Defined.

(** [GetAllContentsWithUpdated_nil_r] at an "en" and an "ar" entry. *)
Lemma GetAllContentsWithUpdated_nil_r_witness :
  NoDup (GetLanguageID <$> [cm "en"; cm "ar"]) /\
  GetAllContentsWithUpdated [cm "en"; cm "ar"] [] ≡ₚ [cm "en"; cm "ar"].
Proof.
  assert (NoDup (GetLanguageID <$> [cm "en"; cm "ar"])) as Hnd by (simpl; apply NoDup_ListNoDup; repeat constructor; simpl; intuition discriminate).
  split; [exact Hnd | exact (GetAllContentsWithUpdated_nil_r _ Hnd)].
Defined.

(** [GetAllContentsWithUpdated_nil_l] at an "en" and an "ar" entry. *)
Lemma GetAllContentsWithUpdated_nil_l_witness :
  NoDup (GetLanguageID <$> [cm "en"; cm "ar"]) /\
  GetAllContentsWithUpdated [] [cm "en"; cm "ar"] ≡ₚ [cm "en"; cm "ar"].
Proof.
  assert (NoDup (GetLanguageID <$> [cm "en"; cm "ar"])) as Hnd by (simpl; apply NoDup_ListNoDup; repeat constructor; simpl; intuition discriminate).
  split; [exact Hnd | exact (GetAllContentsWithUpdated_nil_l _ Hnd)].
Defined.

(** ** The records as Go struct types, with their tags *)

(** A struct tag [k:"v"], and two of them separated by a space. *)
Definition kv (k v : string) : string := k +:+ ":" +:+ dq +:+ v +:+ dq.
Definition kv2 (k1 v1 k2 v2 : string) : string := kv k1 v1 +:+ " " +:+ kv k2 v2.

(** [time.Time] of the standard library: unexported fields only. *)
Definition TTime : ty :=
  TStruct "Time" [Field "wall" TUint "" false; Field "ext" TInt "" false;
                  Field "loc" (TPtr (TStruct "Location" [])) "" false].

Definition TModel : ty :=
  TStruct "Model"
    [Field "ID" TUint (kv2 "json" "id" "gorm" "primaryKey") false;
     Field "CreatedAt" TTime (kv2 "json" "created_at" "gorm" "not null;autoCreateTime") false;
     Field "UpdatedAt" TTime (kv2 "json" "updated_at" "gorm" "not null;autoUpdateTime:milli") false].

Definition TLanguage : ty :=
  TStruct "Language"
    [Field "ID" TString (kv2 "json" "id" "gorm" "primaryKey;type:varchar(2);index") false;
     Field "Title" TString (kv2 "json" "title" "gorm" "not null;type:varchar(50)") false;
     Field "CreatedAt" TTime (kv2 "json" "created_at" "gorm" "not null;autoCreateTime") false;
     Field "UpdatedAt" TTime (kv2 "json" "updated_at" "gorm" "not null;autoUpdateTime:milli") false].

Definition TContentModel : ty :=
  TStruct "ContentModel"
    [Field "LanguageID" TString (kv2 "json" "language_id" "gorm" "primaryKey;type:varchar(2);index") false;
     Field "Language" TLanguage (kv "json" "-") false;
     Field "CreatedAt" TTime (kv2 "json" "created_at" "gorm" "not null;autoCreateTime") false;
     Field "UpdatedAt" TTime (kv2 "json" "updated_at" "gorm" "not null;autoUpdateTime:milli") false].

(** ** [ExtractContent[CM]] (model.go:109-149) *)

(** The fields of one input item copied by name into a zero [CM]:
    [contentField.Set(inputFieldValue)] panics unless the value is
    assignable to the field's type. *)
Fixpoint extractFields (newContent : val) (l : list (field * val)) : gres val :=
  match l with
  | [] => Ok newContent
  | (f, x) :: l' =>
      match settableField (typeOf newContent) (fname f) with
      | Some (p, cf) =>
          if AssignableTo (typeOf x) (ftype cf)
          then extractFields (setPath p (retype (ftype cf) x) newContent) l'
          else Err (ErrPanic "reflect.Set: value is not assignable")
      | None => extractFields newContent l'
      end
  end.

Definition ExtractContent (contentType : ty) (inputContents : val) : gres (list val) :=
  match inputContents with
  | VSlice _ items =>
      (fix go (items : list val) : gres (list val) :=
         match items with
         | [] => Ok []
         | VStruct _ fvs :: items' =>
             let! c := extractFields (zeroOf contentType) fvs in
             let! rest := go items' in
             Ok (c :: rest)
         | _ :: _ => Err (ErrPanic "reflect: call of reflect.Value.NumField on non-struct")
         end) items
  | _ => Err (ErrPanic "inputContents must be a slice")
  end.

(** [IsContentModel[model](m)] (model.go:162-168) *)
Definition IsContentModel (m : val) : bool := implementsContent (typeOf m).

End Orm.
