(* ===== verification/App.v ===== *)
(** * App: the example application of src/unnamed/part_000

    The [Blog] model and its [BlogContent] content model, as the Go struct
    types the engine reflects on, with constructors of their values used by
    the scenarios of the other files.  Opening the database, migrating the
    schema and starting the Iris server are I/O and are not modelled. *)

From S2P Require Import Prelude GoReflect Orm.
Import GoReflect Orm.

Module App.

(** [type BlogContent struct { orm.ContentModel; Content string; BlogID uint }] *)
Definition TBlogContent : ty :=
  TStruct "BlogContent"
    [Field "ContentModel" TContentModel "" true;
     Field "Content" TString (kv "json" "content") false;
     Field "BlogID" TUint (kv "json" "blog_id") false].

(** [type Blog struct { orm.Model; Contents []BlogContent; Owner string; IsPublished bool }] *)
Definition TBlog : ty :=
  TStruct "Blog"
    [Field "Model" TModel "" true;
     Field "Contents" (TSlice TBlogContent)
       (kv2 "json" "contents" "gorm" "foreignKey:BlogID;constraint:OnUpdate:CASCADE,OnDelete:CASCADE") false;
     Field "Owner" TString (kv "json" "owner") false;
     Field "IsPublished" TBool (kv2 "json" "is_published" "gorm" "default:false;index") false].

(** A [BlogContent{ContentModel: {LanguageID: lang}, Content: text, BlogID: blog}]. *)
Definition blogContent (lang text : string) (blog : Z) : val :=
  setPath [0; 0] (VString lang)
    (setPath [1] (VString text) (setPath [2] (VUint blog) (zeroOf TBlogContent))).

(** A [Blog] with the given id, contents and owner. *)
Definition blog (id : Z) (contents : list val) (owner : string) : val :=
  setPath [0; 0] (VUint id)
    (setPath [1] (VSlice TBlogContent contents) (setPath [2] (VString owner) (zeroOf TBlog))).

End App.
