(* ===== verification/Copier.v ===== *)
(** * Copier: the reflective helpers of src/service/helpers.go

    Module [Copier] translates the helpers the engine calls: [toSnakeCase],
    the field copier ([copyField], [copyStruct]; the older [fillStruct] is in [FillStruct]),
    the language key of a content value ([getLanguageID]) and the two merges
    of content slices ([mergeContents] with [handleSliceUpdate], and
    [handleContentUpdate]).  Go mutates the destination through
    [reflect.Value]; here each copier takes the destination value and
    returns the value it holds afterwards together with the error, so a
    partial write before an error is visible in the result. *)

From S2P Require Import Prelude GoReflect Orm App.
Import GoReflect Orm App.

Module Copier.

(** ** [toSnakeCase] (helpers.go:10-19), on ASCII strings *)

Definition to_lower (c : Ascii.ascii) : Ascii.ascii :=
  if is_upper c then Ascii.ascii_of_nat (Ascii.nat_of_ascii c + 32) else c.

(** One iteration per rune [r] at index [i]: an underscore (ASCII 95) before an upper
    case rune that is not the first, then the rune in lower case. *)
Fixpoint snake_from (first : bool) (s : string) : string :=
  match s with
  | EmptyString => EmptyString
  | String r s' =>
      let rest := String (to_lower r) (snake_from false s') in
      if is_upper r && negb first then String (Ascii.ascii_of_nat 95) rest else rest
  end.

Definition toSnakeCase (str : string) : string := snake_from true str.

(** ** [copyField] (helpers.go:102-123) *)

(** [for src.Kind() == reflect.Ptr && !src.IsNil() { src = src.Elem() }] *)
Fixpoint derefSrc (src : val) : val :=
  match src with
  | VPtr _ (Some x) => derefSrc x
  | _ => src
  end.

(** The final assignment or conversion into a non-pointer destination. *)
Definition assignOrConvert (dst src : val) : val * option goerr :=
  let V := typeOf src in
  let T := typeOf dst in
  if AssignableTo V T then (retype T src, None)
  else if ConvertibleTo V T then (Convert src T, None)
  else (dst, Some (ErrTypeMismatch V T)).

(** [for dst.Kind() == reflect.Ptr { if dst.IsNil() { dst.Set(reflect.New(..)) };
    dst = dst.Elem() }] followed by the assignment: the loop follows the
    destination's type, allocating a zero target for each nil pointer. *)
Fixpoint storeThrough (t : ty) (dst src : val) : val * option goerr :=
  match t with
  | TPtr t' =>
      let inner := match dst with VPtr _ (Some x) => x | _ => zeroOf t' end in
      let '(inner', e) := storeThrough t' inner src in
      (VPtr t' (Some inner'), e)
  | _ => assignOrConvert dst src
  end.

Definition copyField (dst src : val) : val * option goerr :=
  storeThrough (typeOf dst) dst (derefSrc src).

(** ** [copyStruct] (helpers.go:126-144) *)

(** The loop over the source fields: each source field with a settable
    destination field of the same name is copied with [copyField]; the
    first error is returned wrapped as ["field %s: %w"], the fields copied
    before it staying written. *)
Fixpoint copyFields (dst : val) (l : list (field * val)) : val * option goerr :=
  match l with
  | [] => (dst, None)
  | (f, sv) :: l' =>
      match settableField (typeOf dst) (fname f) with
      | Some (p, _) =>
          match getPath p dst with
          | Some dv =>
              let '(dv', e) := copyField dv sv in
              let dst' := setPath p dv' dst in
              match e with
              | Some err => (dst', Some (ErrField (fname f) err))
              | None => copyFields dst' l'
              end
          | None => copyFields dst l'
          end
      | None => copyFields dst l'
      end
  end.

Definition copyStruct (dst src : val) : val * option goerr :=
  match dst, src with
  | VStruct _ _, VStruct _ sfvs => copyFields dst sfvs
  | _, _ => (dst, Some ErrNotStructs)
  end.

(** ** [getLanguageID] (helpers.go:284-301) *)

(** The method [GetLanguageID] when the value's type has it (it returns the
    [LanguageID] of the promoted [ContentModel]); otherwise the value's
    [LanguageID] field through [reflect.Value.String]; otherwise "".  The
    call sites pass slice elements and fresh values, which are
    addressable. *)
Definition getLanguageID (v : val) : string :=
  match contentModelPath (typeOf v) with
  | Some p =>
      match getPath p v ≫= (fun cm => fieldValue cm "LanguageID") with
      | Some (VString s) => s
      | _ => ""
      end
  | None =>
      match fieldValue v "LanguageID" with
      | Some x => valueString x
      | None => ""
      end
  end.

#[export] Instance val_IContentModel : Orm.IContentModel val := getLanguageID.

(** ** [mergeContents] (helpers.go:171-195) *)

Definition mergeContents (existing newContents : val) : gres val :=
  match existing, newContents with
  | VSlice t xs, VSlice _ ys =>
      let contentMap := assign_by_key getLanguageID ∅ xs in
      let contentMap := assign_by_key getLanguageID contentMap ys in
      let vs := map_values contentMap in
      (* [reflect.Append(merged, v)] sets [v] into a slice of
         [existing.Type()]: it panics on a value not assignable to [t]. *)
      if forallb (fun v => AssignableTo (typeOf v) t) vs then Ok (VSlice t vs)
      else Err (ErrPanic "reflect.Set: value is not assignable to the slice's element type")
  | _, _ => Err (ErrPanic "reflect: call of reflect.Value.Len on non-slice")
  end.

(** ** [handleContentUpdate] (helpers.go:250-281) *)

(** Step 2 of the function: each update item is copied into a fresh
    element; on success the copy is stored under the update item's
    language id, on failure the item is silently dropped. *)
Definition updateStep (elemType : ty) (contentMap : gmap string val) (updateItem : val) : gmap string val :=
  let langID := getLanguageID updateItem in
  let '(newItem, e) := copyStruct (zeroOf elemType) updateItem in
  match e with
  | None => <[langID := newItem]> contentMap
  | Some _ => contentMap
  end.

Definition handleContentUpdate (modelField paramValue : val) : val * option goerr :=
  match modelField, paramValue with
  | VSlice elemType xs, VSlice _ ys =>
      let contentMap := assign_by_key getLanguageID ∅ xs in
      let contentMap := foldl (updateStep elemType) contentMap ys in
      (VSlice elemType (map_values contentMap), None)
  | _, _ => (modelField, Some (ErrPanic "reflect: call of reflect.Value.Len on non-slice"))
  end.

(** ** [handleSliceUpdate] (helpers.go:146-169) *)

(** The elements of the parameter slice copied into fresh elements, a
    pointer element being dereferenced once; the first failure is returned
    as ["element %d: %w"]. *)
Fixpoint extractElems (elemType : ty) (i : nat) (ys : list val) : gres (list val) :=
  match ys with
  | [] => Ok []
  | y :: ys' =>
      let src := match y with VPtr _ (Some x) => Some x | VPtr _ None => None | _ => Some y end in
      let '(dstElem, e) :=
        match src with
        | Some s => copyStruct (zeroOf elemType) s
        | None => (zeroOf elemType, Some ErrNotStructs)
        end in
      match e with
      | Some err => Err (ErrElement i err)
      | None => let! rest := extractElems elemType (S i) ys' in Ok (dstElem :: rest)
      end
  end.

Definition handleSliceUpdate (modelField paramValue : val) : val * option goerr :=
  match modelField, paramValue with
  | VSlice elemType _, VSlice _ ys =>
      match extractElems elemType 0 ys with
      | Err e => (modelField, Some e)
      | Ok newContents =>
          match mergeContents modelField (VSlice elemType newContents) with
          | Ok merged => (merged, None)
          | Err e => (modelField, Some e)
          end
      end
  | _, _ => (modelField, Some (ErrPanic "reflect: call of reflect.Value.Len on non-slice"))
  end.

(** ** Properties of [toSnakeCase] *)

Fixpoint no_upper (s : string) : bool :=
  match s with EmptyString => true | String c s' => negb (is_upper c) && no_upper s' end.

Fixpoint count_upper (s : string) : nat :=
  match s with EmptyString => 0 | String c s' => (if is_upper c then 1 else 0) + count_upper s' end.

Lemma to_lower_not_upper c : is_upper (to_lower c) = false.
Proof.
  unfold to_lower. destruct (is_upper c) eqn:E; [|exact E].
  unfold is_upper in *. apply andb_prop in E as [E1 E2]. apply Nat.leb_le in E1, E2.
  rewrite Ascii.nat_ascii_embedding by lia.
  apply andb_false_iff. right. apply Nat.leb_gt. lia.
Qed.

Lemma to_lower_id c : is_upper c = false -> to_lower c = c.
Proof. unfold to_lower. by intros ->. Qed.

Lemma underscore_not_upper : is_upper (Ascii.ascii_of_nat 95) = false.
Proof. reflexivity. Qed.

Lemma snake_from_no_upper b s : no_upper (snake_from b s) = true.
Proof.
  revert b. induction s as [|c s IH]; intros b; [done|]. simpl.
  destruct (is_upper c && negb b); simpl; rewrite ?to_lower_not_upper, IH; done.
Qed.

Lemma snake_from_id b s : no_upper s = true -> snake_from b s = s.
Proof.
  revert b. induction s as [|c s IH]; intros b; [done|]. simpl.
  intros [Hc Hs]%andb_prop. apply negb_true_iff in Hc.
  rewrite Hc, to_lower_id, IH by done. done.
Qed.

Lemma snake_from_false_length s :
  String.length (snake_from false s) = String.length s + count_upper s.
Proof.
  induction s as [|c s IH]; [done|]. simpl.
  destruct (is_upper c); simpl; rewrite IH; lia.
Qed.

(** the tags [toSnakeCase] builds contain no upper-case letter. *)
Theorem toSnakeCase_lower str : no_upper (toSnakeCase str) = true.
Proof. apply snake_from_no_upper. Qed.

(** [toSnakeCase] is idempotent: a name already in its output form is
    left unchanged. *)
Theorem toSnakeCase_idempotent str : toSnakeCase (toSnakeCase str) = toSnakeCase str.
Proof. apply snake_from_id, snake_from_no_upper. Qed.

(** [toSnakeCase] adds exactly one underscore per upper-case letter
    after the first character. *)
Theorem toSnakeCase_length str :
  String.length (toSnakeCase str) =
  String.length str + count_upper (match str with String _ s => s | EmptyString => EmptyString end).
Proof.
  destruct str as [|c s]; [done|]. unfold toSnakeCase. simpl.
  rewrite andb_false_r. simpl. rewrite snake_from_false_length. lia.
Qed.

(** an acronym is split letter by letter: the filter tag of
    [LanguageID] is ["language_i_d"], where a snake-case convention (and
    the [strcase.ToSnake] the route names use) gives ["language_id"]. *)
Example toSnakeCase_LanguageID : toSnakeCase "LanguageID" = "language_i_d".
Proof. reflexivity. Qed.

(** ** Properties of [copyField] *)

Lemma derefSrc_nonptr v : Kind (typeOf v) <> KPtr -> derefSrc v = v.
Proof. by destruct v. Qed.

Lemma assignOrConvert_same d s : typeOf d = typeOf s -> val_wt s -> assignOrConvert d s = (s, None).
Proof. intros Hty Hwt. unfold assignOrConvert. by rewrite Hty, AssignableTo_refl, retype_id. Qed.

Lemma storeThrough_nonptr t d s : Kind t <> KPtr -> storeThrough t d s = assignOrConvert d s.
Proof. by destruct t. Qed.

(** Copying into a destination of the source's type stores the source. *)
Lemma copyField_same d s :
  typeOf d = typeOf s -> val_wt d -> val_wt s -> nonnil_chain s = true -> copyField d s = (s, None).
Proof.
  revert d. induction s as [b|z|z|str|n fvs _|t xs _|t p IH] using val_ind; intros d Hty Hwd Hws Hnn;
    unfold copyField; rewrite ?Hty; try (by apply assignOrConvert_same).
  destruct IH as [x Hx|]; [|done]. simpl in Hws, Hnn |- *. destruct Hws as [Hxt Hwx].
  assert (typeOf (match d with VPtr _ (Some y) => y | _ => zeroOf t end) = t /\
          val_wt (match d with VPtr _ (Some y) => y | _ => zeroOf t end)) as [Hit Hiw].
  { destruct d as [| | | | | |t' [y|]]; simpl in Hty; try discriminate; injection Hty as ->;
      [exact Hwd|split; [apply typeOf_zeroOf|apply val_wt_zeroOf]]. }
  unfold copyField in Hx.
  assert (storeThrough t (match d with VPtr _ (Some y) => y | _ => zeroOf t end) (derefSrc x) = (x, None)) as Hst.
  { rewrite <-Hit at 1. apply Hx; [congruence|done..]. }
  by rewrite Hst.
Qed.

Lemma nonptr_not_assignable_from_ptr t s : Kind t <> KPtr -> AssignableTo (TPtr s) t = false.
Proof. by destruct t. Qed.

Lemma nonptr_not_convertible_from_ptr t s : Kind t <> KPtr -> ConvertibleTo (TPtr s) t = false.
Proof. by destruct t. Qed.

Lemma assignOrConvert_nil d s :
  Kind (typeOf d) <> KPtr -> assignOrConvert d (VPtr s None) = (d, Some (ErrTypeMismatch (TPtr s) (typeOf d))).
Proof.
  intros Hk. unfold assignOrConvert. cbv zeta. change (typeOf (VPtr s None)) with (TPtr s).
  rewrite nonptr_not_assignable_from_ptr by done.
  rewrite nonptr_not_convertible_from_ptr by done. reflexivity.
Qed.

Lemma Kind_ptr_base t : Kind (ptr_base t) <> KPtr.
Proof. by induction t. Qed.

Lemma storeThrough_nil_source t d s :
  typeOf d = t -> val_wt d ->
  snd (storeThrough t d (VPtr s None)) = Some (ErrTypeMismatch (TPtr s) (ptr_base t)).
Proof.
  revert d. induction t as [| | | |n fs _|t' _|t' IH] using ty_ind; intros d Hty Hwd;
    try (simpl; rewrite assignOrConvert_nil, Hty by (rewrite Hty; done); reflexivity).
  simpl. destruct (storeThrough t' _ _) as [inner' e] eqn:E. simpl.
  rewrite <-(IH (match d with VPtr _ (Some y) => y | _ => zeroOf t' end)), E; [done| |].
  - destruct d as [| | | | | |t'' [y|]]; simpl in Hty; try discriminate; injection Hty as ->;
      [apply Hwd|apply typeOf_zeroOf].
  - destruct d as [| | | | | |t'' [y|]]; simpl in Hty; try discriminate; injection Hty as ->;
      [apply Hwd|apply val_wt_zeroOf].
Qed.

(** C23: a nil source pointer is not skipped: [copyField] fails with a
    type mismatch between the pointer type and the destination's base
    type, and a nil destination pointer has been allocated by then. *)
Theorem copyField_nil_source dst t :
  val_wt dst ->
  snd (copyField dst (VPtr t None)) = Some (ErrTypeMismatch (TPtr t) (ptr_base (typeOf dst))) /\
  (forall t', dst = VPtr t' None -> fst (copyField dst (VPtr t None)) <> dst).
Proof.
  intros Hwd. unfold copyField. simpl derefSrc. split.
  - by apply storeThrough_nil_source.
  - intros t' ->. simpl. by destruct (storeThrough _ _ _).
Qed.

Lemma copyField_nil_source_witness :
  val_wt (VPtr TString None) /\
  snd (copyField (VPtr TString None) (VPtr TString None)) = Some (ErrTypeMismatch (TPtr TString) TString) /\
  fst (copyField (VPtr TString None) (VPtr TString None)) <> VPtr TString None.
Proof.
  assert (val_wt (VPtr TString None)) as Hw by exact I.
  destruct (copyField_nil_source (VPtr TString None) TString Hw) as [H1 H2].
  split; [exact Hw|]. split; [exact H1|]. exact (H2 TString eq_refl).
Defined.

(** between non-pointer types that do not convert, [copyField]
    leaves the destination as it was and reports both types. *)
Theorem copyField_mismatch dst src :
  Kind (typeOf dst) <> KPtr -> Kind (typeOf src) <> KPtr ->
  ConvertibleTo (typeOf src) (typeOf dst) = false ->
  copyField dst src = (dst, Some (ErrTypeMismatch (typeOf src) (typeOf dst))).
Proof.
  intros Hd Hs Hc. unfold copyField. rewrite derefSrc_nonptr, storeThrough_nonptr by done.
  unfold assignOrConvert. cbv zeta.
  destruct (AssignableTo (typeOf src) (typeOf dst)) eqn:Ha.
  - unfold ConvertibleTo in Hc. by rewrite Ha in Hc.
  - by rewrite Hc.
Qed.

Lemma copyField_mismatch_witness :
  Kind (typeOf (VString "")) <> KPtr /\ Kind (typeOf (VBool true)) <> KPtr /\
  ConvertibleTo (typeOf (VBool true)) (typeOf (VString "")) = false /\
  copyField (VString "") (VBool true) = (VString "", Some (ErrTypeMismatch TBool TString)).
Proof.
  split; [discriminate|]. split; [discriminate|]. split; [reflexivity|].
  apply (copyField_mismatch (VString "") (VBool true)); [discriminate|discriminate|reflexivity].
Defined.

(** copying an [int] field into a [uint] field wraps it modulo 2^64,
    and copying the result back into an [int] field restores the value. *)
Theorem copyField_int_uint_roundtrip z :
  (int_min <= z <= int_max)%Z ->
  copyField (VUint 0) (VInt z) = (VUint (z mod 2 ^ 64), None) /\
  (0 <= z mod 2 ^ 64 <= uint_max)%Z /\
  copyField (VInt 0) (VUint (z mod 2 ^ 64)) = (VInt z, None).
Proof.
  intros Hz. split; [reflexivity|]. split; [apply wrapU_bounds|].
  assert (copyField (VInt 0) (VUint (z mod 2 ^ 64)) = (VInt (wrapI (wrapU z)), None)) as -> by reflexivity.
  by rewrite wrapI_wrapU.
Qed.

Lemma copyField_int_uint_roundtrip_witness :
  (int_min <= -1 <= int_max)%Z /\
  copyField (VUint 0) (VInt (-1)) = (VUint ((-1) mod 2 ^ 64), None) /\
  (0 <= (-1) mod 2 ^ 64 <= uint_max)%Z /\
  copyField (VInt 0) (VUint ((-1) mod 2 ^ 64)) = (VInt (-1), None).
Proof.
  assert (Hz : (int_min <= -1 <= int_max)%Z) by (unfold int_min, int_max; lia).
  split; [exact Hz|]. exact (copyField_int_uint_roundtrip (-1) Hz).
Defined.

(** copying an integer into a [string] field stores the UTF-8
    encoding of the integer as a rune (one to four bytes), not its decimal
    digits. *)
Theorem copyField_int_string z s :
  copyField (VString s) (VInt z) = (VString (runeString z), None) /\
  1 <= String.length (runeString z) <= 4.
Proof. split; [reflexivity|apply runeString_length]. Qed.

Example copyField_int_string_65 : copyField (VString "") (VInt 65) = (VString "A", None).
Proof. reflexivity. Qed.

(** ** Properties of [copyStruct] *)

(** A struct value all of whose fields [copyStruct] can reach and copy:
    distinct exported field names, and no field whose pointer chain ends
    in nil. *)
Definition struct_copyable (v : val) : Prop :=
  match v with
  | VStruct _ fvs =>
      NoDup (fname <$> fvs.*1) /\
      Forall (fun fv => isExported (fname fv.1) = true /\ nonnil_chain fv.2 = true) fvs
  | _ => False
  end.

Lemma copyFields_roundtrip n pre dl l :
  NoDup (fname <$> (pre ++ l).*1) -> dl.*1 = l.*1 ->
  Forall (fun fv => typeOf fv.2 = ftype fv.1 /\ val_wt fv.2) dl ->
  Forall (fun fv => typeOf fv.2 = ftype fv.1 /\ val_wt fv.2) l ->
  Forall (fun fv => isExported (fname fv.1) = true /\ nonnil_chain fv.2 = true) l ->
  copyFields (VStruct n (pre ++ dl)) l = (VStruct n (pre ++ l), None).
Proof.
  revert pre dl. induction l as [|[f sv] l IH]; intros pre [|[f' dv] dl] Hnd Hfs Hdw Hsw Hex;
    try discriminate; [by rewrite !app_nil_r|].
  rewrite !fmap_cons in Hfs. injection Hfs as -> Hfs.
  apply Forall_cons in Hdw as [[Hdt Hdw] Hdws]. apply Forall_cons in Hsw as [[Hst Hsw] Hsws].
  apply Forall_cons in Hex as [[He Hnn] Hexs]. simpl in Hdt, Hst, Hdw, Hsw, He, Hnn.
  assert ((pre ++ (f, dv) :: dl).*1 = (pre ++ (f, sv) :: l).*1) as Hnames.
  { by rewrite !fmap_app, !fmap_cons, Hfs. }
  cbn [copyFields typeOf].
  assert (NoDup (fname <$> (pre ++ (f, dv) :: dl).*1)) as Hnd' by (by rewrite Hnames).
  assert ((pre ++ (f, dv) :: dl).*1 !! length pre = Some f) as Hlk.
  { by rewrite list_lookup_fmap, list_lookup_middle. }
  rewrite (settableField_direct n _ (length pre) f Hnd' Hlk He).
  rewrite getPath_middle, copyField_same by (try congruence; done).
  rewrite setPath_middle.
  specialize (IH (pre ++ [(f, sv)]) dl). rewrite <-!app_assoc in IH. apply IH; done.
Qed.

(** C7: copying a struct into a destination of the same type reproduces
    the source exactly, when every field is exported and no field's
    pointer chain ends in nil. *)
Theorem copyStruct_roundtrip d s :
  typeOf d = typeOf s -> val_wt d -> val_wt s -> struct_copyable s ->
  copyStruct d s = (s, None).
Proof.
  destruct s as [| | | |n fvs| |]; try contradiction.
  destruct d as [| | | |n' dfvs| |]; try discriminate.
  intros [= -> Hfs] Hwd Hws [Hnd Hex]. apply val_wt_struct_Forall in Hwd, Hws.
  exact (copyFields_roundtrip n [] dfvs fvs Hnd Hfs Hwd Hws Hex).
Qed.

Lemma copyStruct_roundtrip_witness :
  let s := blogContent "en" "Hello" 7 in
  typeOf (zeroOf TBlogContent) = typeOf s /\ val_wt (zeroOf TBlogContent) /\ val_wt s /\
  struct_copyable s /\ copyStruct (zeroOf TBlogContent) s = (s, None).
Proof.
  cbv zeta.
  assert (Hty : typeOf (zeroOf TBlogContent) = typeOf (blogContent "en" "Hello" 7)) by reflexivity.
  assert (Hwd : val_wt (zeroOf TBlogContent)) by apply val_wt_zeroOf.
  assert (Hws : val_wt (blogContent "en" "Hello" 7)).
  { vm_compute. repeat split; try reflexivity; discriminate. }
  assert (Hc : struct_copyable (blogContent "en" "Hello" 7)).
  { split; [apply NoDup_ListNoDup; vm_compute; repeat constructor; simpl; intuition discriminate|].
    repeat constructor. }
  split; [exact Hty|]. split; [exact Hwd|]. split; [exact Hws|]. split; [exact Hc|].
  exact (copyStruct_roundtrip _ _ Hty Hwd Hws Hc).
Defined.

(** Two structs whose field [B] has types that do not convert. *)
Definition TPair (n : string) (tb : ty) : ty := TStruct n [Field "A" TInt "" false; Field "B" tb "" false].

(** [copyStruct] is not atomic: when a field fails to copy, the
    fields copied before it stay written, so the destination is neither
    the source nor left untouched. *)
Theorem copyStruct_partial_write :
  let dst := setPath [1] (VString "old") (zeroOf (TPair "P" TString)) in
  let src := setPath [0] (VInt 5) (setPath [1] (VBool true) (zeroOf (TPair "Q" TBool))) in
  copyStruct dst src =
    (setPath [0] (VInt 5) dst, Some (ErrField "B" (ErrTypeMismatch TBool TString))) /\
  setPath [0] (VInt 5) dst <> dst.
Proof. split; [reflexivity|discriminate]. Qed.

(** ** Properties of the content merges *)



(** An incoming element of another struct type makes the append panic. *)
Lemma mergeContents_panics :
  mergeContents (VSlice TBlogContent []) (VSlice TString [VString "x"]) =
  Err (ErrPanic "reflect.Set: value is not assignable to the slice's element type").
Proof. reflexivity. Qed.


Lemma foldl_updateStep_ok elemType m ys cs :
  Forall2 (fun u c => copyStruct (zeroOf elemType) u = (c, None) /\ getLanguageID c = getLanguageID u) ys cs ->
  foldl (updateStep elemType) m ys = assign_by_key getLanguageID m cs.
Proof.
  intros Hall. revert m. induction Hall as [|u c ys cs [Hcp Hk] _ IH]; intros m; [done|].
  simpl. unfold updateStep at 2. rewrite Hcp, <-Hk. apply IH.
Qed.

(** C2: when every update item copies into a fresh element and keeps its
    language id, [handleContentUpdate] returns no error and the merge of
    the current contents with the copies ([GetAllContentsWithUpdated]). *)
Theorem handleContentUpdate_refines elemType t xs ys cs :
  Forall2 (fun u c => copyStruct (zeroOf elemType) u = (c, None) /\ getLanguageID c = getLanguageID u) ys cs ->
  handleContentUpdate (VSlice elemType xs) (VSlice t ys) =
    (VSlice elemType (Orm.GetAllContentsWithUpdated xs cs), None).
Proof. intros Hall. unfold handleContentUpdate. by rewrite (foldl_updateStep_ok _ _ _ _ Hall). Qed.

(** an update item that fails to copy is dropped without an error:
    [handleContentUpdate] returns the same as if the item were absent. *)
Theorem handleContentUpdate_drops_failed elemType modelField t pre u post d e :
  copyStruct (zeroOf elemType) u = (d, Some e) ->
  handleContentUpdate (VSlice elemType modelField) (VSlice t (pre ++ u :: post)) =
  handleContentUpdate (VSlice elemType modelField) (VSlice t (pre ++ post)).
Proof.
  intros Hcp. unfold handleContentUpdate. rewrite !foldl_app. simpl.
  unfold updateStep at 2. by rewrite Hcp.
Qed.

(** The element type of the [Contents] slice of the generated update
    parameters of [Blog]: [struct { LanguageID string; Content string }]. *)
Definition TBlogContentParam : ty :=
  TStruct "" [Field "LanguageID" TString (kv "json" "language_id") false;
              Field "Content" TString (kv "json" "content") false].

Definition contentParam (lang text : string) : val :=
  setPath [0] (VString lang) (setPath [1] (VString text) (zeroOf TBlogContentParam)).

Lemma handleContentUpdate_refines_witness :
  Forall2 (fun u c => copyStruct (zeroOf TBlogContent) u = (c, None) /\ getLanguageID c = getLanguageID u)
    [contentParam "en" "Hi"] [blogContent "en" "Hi" 0] /\
  handleContentUpdate (VSlice TBlogContent [blogContent "en" "Hello" 7; blogContent "ar" "Marhaba" 7])
    (VSlice TBlogContentParam [contentParam "en" "Hi"]) =
  (VSlice TBlogContent (Orm.GetAllContentsWithUpdated [blogContent "en" "Hello" 7; blogContent "ar" "Marhaba" 7]
                                                [blogContent "en" "Hi" 0]), None).
Proof.
  assert (H : Forall2 (fun u c => copyStruct (zeroOf TBlogContent) u = (c, None) /\ getLanguageID c = getLanguageID u)
    [contentParam "en" "Hi"] [blogContent "en" "Hi" 0]) by (repeat constructor).
  split; [exact H|]. exact (handleContentUpdate_refines _ _ _ _ _ H).
Defined.

Lemma handleContentUpdate_drops_failed_witness :
  copyStruct (zeroOf TBlogContent) (VPtr TBlogContentParam None) = (zeroOf TBlogContent, Some ErrNotStructs) /\
  handleContentUpdate (VSlice TBlogContent [blogContent "en" "Hello" 7])
    (VSlice TBlogContentParam ([] ++ VPtr TBlogContentParam None :: [contentParam "ar" "Marhaba"])) =
  handleContentUpdate (VSlice TBlogContent [blogContent "en" "Hello" 7])
    (VSlice TBlogContentParam ([] ++ [contentParam "ar" "Marhaba"])).
Proof.
  assert (H : copyStruct (zeroOf TBlogContent) (VPtr TBlogContentParam None) = (zeroOf TBlogContent, Some ErrNotStructs))
    by reflexivity.
  split; [exact H|]. exact (handleContentUpdate_drops_failed _ _ _ _ _ _ _ _ H).
Defined.

(** the spec's update scenario: a blog with "en" and "ar" contents
    updated with one "en" content keeps exactly two contents, "ar"
    unchanged and "en" replaced, the replacement being a fresh element
    (its [BlogID] is 0, not the blog's id 7). *)
Theorem handleContentUpdate_en_ar_scenario :
  exists zs,
    handleContentUpdate (VSlice TBlogContent [blogContent "en" "Hello" 7; blogContent "ar" "Marhaba" 7])
      (VSlice TBlogContentParam [contentParam "en" "Hi"]) = (VSlice TBlogContent zs, None) /\
    zs ≡ₚ [blogContent "ar" "Marhaba" 7; blogContent "en" "Hi" 0].
Proof.
  eexists. split; [vm_compute; reflexivity|].
  vm_compute. first [reflexivity | apply Permutation_swap].
Qed.

(** ** The copier keeps values well typed *)

Lemma val_wt_derefSrc v : val_wt v -> val_wt (derefSrc v).
Proof.
  induction v as [| | | | | |t p IH] using val_ind; simpl; try done.
  destruct IH as [y Hy|]; simpl; [|done]. intros [_ Hw]. by apply Hy.
Qed.

Lemma assignOrConvert_wt d s :
  val_wt s -> typeOf (assignOrConvert d s).1 = typeOf d /\ (val_wt d -> val_wt (assignOrConvert d s).1).
Proof.
  intros Hs. unfold assignOrConvert.
  destruct (AssignableTo (typeOf s) (typeOf d)) eqn:Ha; [by destruct (AssignableTo_wt s (typeOf d))|].
  destruct (ConvertibleTo (typeOf s) (typeOf d)) eqn:Hc; [by destruct (Convert_wt s (typeOf d))|].
  done.
Qed.

Lemma storeThrough_wt t d s :
  typeOf d = t -> val_wt d -> val_wt s ->
  typeOf (storeThrough t d s).1 = t /\ val_wt (storeThrough t d s).1.
Proof.
  revert d. induction t as [| | | |n fs _|t' _|t' IH] using ty_ind; intros d Hty Hd Hs;
    try solve [simpl; rewrite <- Hty; destruct (assignOrConvert_wt d s Hs) as [H1 H2]; auto].
  simpl. apply typeOf_ptr_inv in Hty as (p & ->).
  assert (typeOf (match p with Some x => x | None => zeroOf t' end) = t' /\
          val_wt (match p with Some x => x | None => zeroOf t' end)) as [Hi1 Hi2]
    by (destruct p; [exact Hd|split; [apply typeOf_zeroOf|apply val_wt_zeroOf]]).
  destruct (IH _ Hi1 Hi2 Hs) as [H1 H2].
  destruct (storeThrough t' _ s) as [inner' e]. simpl in *. auto.
Qed.

(** [copyField] keeps the destination's type and well-typedness: every
    assignment or conversion it makes is of the destination's type, with
    integers wrapped to 64 bits. *)
Lemma copyField_wt d s :
  val_wt d -> val_wt s -> typeOf (copyField d s).1 = typeOf d /\ val_wt (copyField d s).1.
Proof. intros Hd Hs. unfold copyField. apply storeThrough_wt; auto using val_wt_derefSrc. Qed.

Lemma copyFields_wt dst l :
  val_wt dst -> Forall (fun fv => val_wt fv.2) l ->
  typeOf (copyFields dst l).1 = typeOf dst /\ val_wt (copyFields dst l).1.
Proof.
  revert dst. induction l as [|[f sv] l IH]; intros dst Hd Hl; simpl; [done|].
  apply Forall_cons in Hl as [Hsv Hl]. simpl in Hsv.
  destruct (settableField (typeOf dst) (fname f)) as [[p f']|] eqn:Hs; [|by apply IH].
  apply settableField_FieldByName in Hs.
  destruct (FieldByName_wt dst _ p f' Hd Hs) as [_ (dv & Hdv & Hdt & Hdw)]. rewrite Hdv.
  destruct (copyField_wt dv sv Hdw Hsv) as [H1 H2].
  destruct (copyField dv sv) as [dv' e]. simpl in H1, H2.
  destruct (setPath_wt p dst dv dv' Hdv H1 Hd H2) as [H3 H4].
  destruct e; simpl; [done|]. rewrite <- H3. apply IH; auto.
Qed.

Lemma copyStruct_wt d s :
  val_wt d -> val_wt s -> typeOf (copyStruct d s).1 = typeOf d /\ val_wt (copyStruct d s).1.
Proof.
  intros Hd Hs. destruct d as [| | | |n fvs| |], s as [| | | |n' sfvs| |]; try done.
  apply copyFields_wt; [done|]. apply val_wt_struct_Forall in Hs.
  eapply Forall_impl; [exact Hs|]. by intros fv [_ ?].
Qed.

(** [handleContentUpdate] keeps a content slice well typed: every element
    it stores is an element of the model's slice or a fresh element of the
    slice's element type filled by [copyStruct]. *)
Lemma handleContentUpdate_wt mf pv :
  val_wt mf -> val_wt pv ->
  typeOf (handleContentUpdate mf pv).1 = typeOf mf /\ val_wt (handleContentUpdate mf pv).1.
Proof.
  intros Hm Hp. destruct mf as [| | | | |et xs|], pv as [| | | | |pt ys|]; try done. simpl.
  split; [done|]. apply val_wt_slice_Forall, map_values_Forall.
  apply val_wt_slice_Forall in Hm, Hp.
  apply (foldl_inv _ (fun m => map_Forall (fun _ v => typeOf v = et /\ val_wt v) m));
    [|apply assign_by_key_Forall; [apply map_Forall_empty|done]].
  intros m u Hu Hm'. unfold updateStep.
  pose proof (copyStruct_wt (zeroOf et) u (val_wt_zeroOf et)) as Hc.
  destruct (copyStruct (zeroOf et) u) as [newItem [e|]]; [done|]. simpl in Hc.
  eapply Forall_forall in Hp as [_ Hwu]; [|exact Hu].
  destruct (Hc Hwu) as [H1 H2]. rewrite typeOf_zeroOf in H1.
  by apply map_Forall_insert_2.
Qed.

End Copier.
