(* ===== verification/FillStruct.v ===== *)
(** * FillStruct: the recursive struct copier [fillStruct] of src/service/helpers.go

    Module [FillStruct] translates [fillStruct] (helpers.go:22-73), the
    older sibling of [copyStruct]: it walks the source struct's fields,
    recurses into nested struct fields, rebuilds slice fields element by
    element with [reflect.MakeSlice], and assigns or converts every other
    field, without following pointers.  As in [Copier], the destination is
    passed in and returned with the error, so the fields written before an
    error stay visible.  The recursion is structural in the source value:
    the field loop and the element loop are fixpoints that receive the
    recursive call [fill] as a parameter. *)

From S2P Require Import Prelude GoReflect Orm App Copier.
Import GoReflect Orm App Copier.

Module FillStruct.

Section Loops.
(** The recursive call [fillStruct] on a nested destination and source. *)
Variable fill : val -> val -> val * option goerr.

(** One element of a slice field (helpers.go:44-56): a fresh zero element
    of the destination's element type, filled recursively when the source
    element is a struct, else assigned or converted; the recursive error is
    returned as it is, a mismatch as ["type mismatch in nested slice field %s"]. *)
Definition fillElem (name : string) (et : ty) (sElem : val) : gres val :=
  let dElem := zeroOf et in
  match sElem with
  | VStruct _ _ =>
      let '(d, e) := fill dElem sElem in
      match e with Some err => Err err | None => Ok d end
  | _ =>
      match assignOrConvert dElem sElem with
      | (d, None) => Ok d
      | (_, Some _) => Err (ErrSliceMismatch name)
      end
  end.

Fixpoint fillElems (name : string) (et : ty) (xs : list val) : gres (list val) :=
  match xs with
  | [] => Ok []
  | x :: xs' =>
      let! y := fillElem name et x in
      let! ys := fillElems name et xs' in
      Ok (y :: ys)
  end.

(** The body of the field loop on the destination field [dv] and the
    source field [sv] (helpers.go:35-68): a struct is filled recursively;
    a slice is rebuilt with [reflect.MakeSlice] of the destination field's
    type (a panic when that type is not a slice type) and stored only when
    every element succeeded; anything else is assigned or converted, else
    ["cannot assign field %s: type mismatch (%s vs %s)"]. *)
Definition fillValue (name : string) (dv sv : val) : val * option goerr :=
  match sv with
  | VStruct _ _ => fill dv sv
  | VSlice _ xs =>
      match typeOf dv with
      | TSlice et =>
          match fillElems name et xs with
          | Ok ys => (VSlice et ys, None)
          | Err e => (dv, Some e)
          end
      | _ => (dv, Some (ErrPanic "reflect.MakeSlice of non-slice type"))
      end
  | _ =>
      match assignOrConvert dv sv with
      | (dv', None) => (dv', None)
      | (_, Some _) => (dv, Some (ErrAssign name (typeOf sv) (typeOf dv)))
      end
  end.

(** The loop over the source fields (helpers.go:27-69): a field without a
    settable destination field of its name is skipped; the first error
    ends the loop, the fields written before it staying written. *)
Fixpoint fillFields (dst : val) (l : list (field * val)) : val * option goerr :=
  match l with
  | [] => (dst, None)
  | (f, sv) :: l' =>
      match settableField (typeOf dst) (fname f) with
      | None => fillFields dst l'
      | Some (p, _) =>
          match getPath p dst with
          | None => fillFields dst l'
          | Some dv =>
              let '(dv', e) := fillValue (fname f) dv sv in
              let dst' := setPath p dv' dst in
              match e with
              | Some err => (dst', Some err)
              | None => fillFields dst' l'
              end
          end
      end
  end.

End Loops.

(** [fillStruct(dst, src)]: both must be structs. *)
Fixpoint fillStruct (dst src : val) {struct src} : val * option goerr :=
  match dst, src with
  | VStruct _ _, VStruct _ sfvs => fillFields fillStruct dst sfvs
  | _, _ => (dst, Some ErrFillNotStructs)
  end.

(** ** Sources that [fillStruct] copies exactly *)

(** Every struct reached through struct fields and slice elements (not
    through pointers, which are assigned whole) has distinct, exported
    field names. *)
Fixpoint fillable (v : val) : bool :=
  match v with
  | VStruct _ fvs =>
      bool_decide (NoDup (fname <$> fvs.*1)) &&
      (fix go (l : list (field * val)) : bool :=
         match l with
         | [] => true
         | (f, x) :: l' => isExported (fname f) && fillable x && go l'
         end) fvs
  | VSlice _ xs => forallb fillable xs
  | _ => true
  end.

(** An example with a nested struct, a slice of structs and a pointer:
    [type Order struct { Customer Person; Items []Item; Note *string }]. *)
Definition TPerson : ty := TStruct "Person" [Field "Name" TString "" false; Field "Age" TInt "" false].
Definition TItem : ty := TStruct "Item" [Field "Sku" TString "" false; Field "Qty" TUint "" false].
Definition TOrder : ty :=
  TStruct "Order" [Field "Customer" TPerson "" false; Field "Items" (TSlice TItem) "" false;
                   Field "Note" (TPtr TString) "" false].

Definition item (sku : string) (q : Z) : val := setPath [0] (VString sku) (setPath [1] (VUint q) (zeroOf TItem)).

Definition order (name : string) (age : Z) (items : list val) (note : option string) : val :=
  setPath [0; 0] (VString name) (setPath [0; 1] (VInt age)
    (setPath [1] (VSlice TItem items) (setPath [2] (VPtr TString (VString <$> note)) (zeroOf TOrder)))).

(** A [Model] with [ID] 3 created at the instant of [wall] 5. *)
Definition model3 : val := setPath [0] (VUint 3) (setPath [1; 0] (VUint 5) (zeroOf TModel)).

(** ** The domain where [fillStruct] and [copyStruct] agree *)

(** A type none of whose fields, at any depth of struct nesting, is a pointer. *)
Fixpoint no_ptr_ty (t : ty) : bool :=
  match t with
  | TPtr _ => false
  | TStruct _ fs =>
      (fix go (l : list field) : bool :=
         match l with [] => true | Field _ t' _ _ :: l' => no_ptr_ty t' && go l' end) fs
  | _ => true
  end.

Definition is_scalar (v : val) : bool :=
  match v with VBool _ | VInt _ | VUint _ | VString _ => true | _ => false end.

(** A struct all of whose fields hold a [bool], an integer or a string
    (and any non-struct, on which both copiers fail). *)
Definition flat_struct (v : val) : bool :=
  match v with VStruct _ fvs => forallb (fun fv => is_scalar fv.2) fvs | _ => true end.

(** The error [fillStruct] reports where [copyStruct] reports [e]. *)
Definition toFillErr (e : goerr) : goerr :=
  match e with
  | ErrField n (ErrTypeMismatch V T) => ErrAssign n V T
  | ErrNotStructs => ErrFillNotStructs
  | _ => e
  end.

(** ** Lemmas on the loops *)

Lemma list_all_prod_Forall (P : val -> Prop) (l : list (field * val)) :
  list_all (field * val) (prod_all field (fun _ => unit) val P) l -> Forall (fun fv => P fv.2) l.
Proof. induction 1 as [|fv Hfv l _ IH]; constructor; [exact (prod_all_snd _ _ _ Hfv)|exact IH]. Qed.

Lemma list_all_Forall (P : val -> Prop) (l : list val) : list_all val P l -> Forall P l.
Proof. induction 1; by constructor. Qed.

Lemma fillable_struct n fvs :
  fillable (VStruct n fvs) = true <->
  NoDup (fname <$> fvs.*1) /\ Forall (fun fv => isExported (fname fv.1) = true /\ fillable fv.2 = true) fvs.
Proof.
  simpl. rewrite andb_true_iff, bool_decide_eq_true. apply and_iff_compat_l.
  induction fvs as [|[f x] l IH]; [split; [intros; constructor|done]|].
  rewrite Forall_cons, !andb_true_iff, IH. simpl. tauto.
Qed.

Lemma fillable_slice t xs : fillable (VSlice t xs) = true <-> Forall (fun x => fillable x = true) xs.
Proof.
  simpl. induction xs as [|x xs IH]; simpl; [split; [intros; constructor|done]|].
  rewrite andb_true_iff, Forall_cons, IH. tauto.
Qed.

(** The field loop reproduces the source fields when each field's body
    does, the destination having the source's field names. *)
Lemma fillFields_roundtrip fill n pre dl l :
  NoDup (fname <$> (pre ++ l).*1) -> dl.*1 = l.*1 ->
  Forall (fun fv => typeOf fv.2 = ftype fv.1 /\ val_wt fv.2) dl ->
  Forall (fun fv => isExported (fname fv.1) = true) l ->
  Forall (fun fv => forall d, typeOf d = ftype fv.1 -> val_wt d ->
                    fillValue fill (fname fv.1) d fv.2 = (fv.2, None)) l ->
  fillFields fill (VStruct n (pre ++ dl)) l = (VStruct n (pre ++ l), None).
Proof.
  revert pre dl. induction l as [|[f sv] l IH]; intros pre [|[f' dv] dl] Hnd Hfs Hdw Hex Hrec;
    try discriminate; [by rewrite !app_nil_r|].
  rewrite !fmap_cons in Hfs. injection Hfs as -> Hfs.
  apply Forall_cons in Hdw as [[Hdt Hdw] Hdws]. apply Forall_cons in Hex as [He Hexs].
  apply Forall_cons in Hrec as [Hr Hrecs]. simpl in Hdt, Hdw, He, Hr.
  assert ((pre ++ (f, dv) :: dl).*1 = (pre ++ (f, sv) :: l).*1) as Hnames.
  { by rewrite !fmap_app, !fmap_cons, Hfs. }
  cbn [fillFields typeOf].
  assert (NoDup (fname <$> (pre ++ (f, dv) :: dl).*1)) as Hnd' by (by rewrite Hnames).
  assert ((pre ++ (f, dv) :: dl).*1 !! length pre = Some f) as Hlk.
  { by rewrite list_lookup_fmap, list_lookup_middle. }
  rewrite (settableField_direct n _ (length pre) f Hnd' Hlk He), getPath_middle, (Hr dv Hdt Hdw).
  rewrite setPath_middle. specialize (IH (pre ++ [(f, sv)]) dl). rewrite <-!app_assoc in IH.
  apply IH; done.
Qed.

Lemma fillElems_roundtrip fill name et xs :
  Forall (fun x => fillElem fill name et x = Ok x) xs -> fillElems fill name et xs = Ok xs.
Proof. induction 1 as [|x xs Hx _ IH]; simpl; [done|]. by rewrite Hx, IH. Qed.

Lemma fillElem_same fill name et x :
  typeOf x = et -> val_wt x -> (forall n fvs, x = VStruct n fvs -> fill (zeroOf et) x = (x, None)) ->
  fillElem fill name et x = Ok x.
Proof.
  intros Ht Hw Hs. destruct x; cbn [fillElem];
    try (rewrite assignOrConvert_same; [done|by rewrite typeOf_zeroOf|done]).
  by rewrite (Hs _ _ eq_refl).
Qed.

Lemma fillValue_roundtrip s : forall d name,
  typeOf d = typeOf s -> val_wt d -> val_wt s -> fillable s = true ->
  fillValue fillStruct name d s = (s, None).
Proof.
  induction s as [b|z|z|str|n fvs IH|t xs IH|t p _] using val_ind; intros d name Hty Hwd Hws Hf;
    cbn [fillValue]; try (by rewrite assignOrConvert_same).
  - destruct (typeOf_struct_inv d n fvs.*1 Hty) as (dfvs & -> & Hfs). cbn [fillStruct].
    apply fillable_struct in Hf as [Hnd HfF]. apply val_wt_struct_Forall in Hwd, Hws.
    apply list_all_prod_Forall in IH.
    apply (fillFields_roundtrip _ n [] dfvs fvs); [done|done|done| |].
    + eapply Forall_impl; [exact HfF|]. by intros fv [? _].
    + apply Forall_and in HfF as [_ HfF]. pose proof (conj IH (conj Hws HfF)) as Hall.
      rewrite <-!Forall_and in Hall. eapply Forall_impl; [exact Hall|].
      intros [f x] (Hx & [Hxt Hxw] & Hxf) d' Hd' Hwd'. apply Hx; [congruence|done..].
  - destruct (typeOf_slice_inv d t Hty) as (ys & ->). cbn [typeOf].
    rewrite fillElems_roundtrip; [done|].
    apply val_wt_slice_Forall in Hws. apply fillable_slice in Hf. apply list_all_Forall in IH.
    pose proof (conj IH (conj Hws Hf)) as Hall. rewrite <-!Forall_and in Hall.
    eapply Forall_impl; [exact Hall|]. intros x (Hx & [Hxt Hxw] & Hxf).
    apply fillElem_same; [done..|]. intros n fvs ->.
    exact (Hx (zeroOf t) name ltac:(by rewrite typeOf_zeroOf) (val_wt_zeroOf t) Hxw Hxf).
Qed.

(** [fillStruct] is a deep copy: filling a destination of the
    source's type (a zero value, say) reproduces the source exactly, nested
    structs and slices of structs included, when every struct reached
    through fields and slice elements has distinct exported field names. *)
Theorem fillStruct_roundtrip d s :
  Kind (typeOf s) = KStruct -> typeOf d = typeOf s -> val_wt d -> val_wt s -> fillable s = true ->
  fillStruct d s = (s, None).
Proof.
  destruct s as [| | | |n fvs| |]; try discriminate. intros _. exact (fillValue_roundtrip (VStruct n fvs) d "").
Qed.

Lemma fillStruct_roundtrip_witness :
  let s := order "Ann" 30 [item "a" 2; item "b" 5] (Some "gift") in
  fillStruct (zeroOf TOrder) s = (s, None).
Proof.
  cbv zeta. apply fillStruct_roundtrip; [vm_compute; reflexivity|vm_compute; reflexivity|apply val_wt_zeroOf| |].
  - apply val_wtb_spec. vm_compute. reflexivity.
  - vm_compute. reflexivity.
Defined.

(** ** Unexported fields *)

Lemma FieldByName_name t name p f : FieldByName t name = Some (p, f) -> fname f = name.
Proof.
  destruct t; try discriminate. intros H. apply fieldWhereAt_sound in H as [H _].
  by apply bool_decide_eq_true in H.
Qed.

(** [CanSet] fails on an unexported field, whatever the destination. *)
Lemma settableField_unexported t name : isExported name = false -> settableField t name = None.
Proof.
  intros He. unfold settableField. destruct (FieldByName t name) as [[p f]|] eqn:E; [|done].
  by rewrite (FieldByName_name _ _ _ _ E), He.
Qed.

Lemma fillFields_unexported fill dst l :
  Forall (fun fv => isExported (fname fv.1) = false) l -> fillFields fill dst l = (dst, None).
Proof. induction 1 as [|[f x] l He _ IH]; simpl; [done|]. by rewrite settableField_unexported. Qed.

(** [fillStruct] copies nothing out of a struct whose fields are all
    unexported, such as [time.Time]: the destination is returned
    unchanged and without error. *)
Theorem fillStruct_unexported_noop d s n fs :
  Kind (typeOf d) = KStruct -> typeOf s = TStruct n fs -> Forall (fun f => isExported (fname f) = false) fs ->
  fillStruct d s = (d, None).
Proof.
  intros Hd Hs Hfs. destruct (typeOf_struct_inv s n fs Hs) as (fvs & -> & <-).
  destruct d; try discriminate. apply fillFields_unexported. by apply Forall_fmap in Hfs.
Qed.

Lemma fillStruct_unexported_noop_witness :
  fillStruct (zeroOf TTime) (setPath [0] (VUint 5) (zeroOf TTime)) = (zeroOf TTime, None).
Proof. apply (fillStruct_unexported_noop _ _ "Time" (match TTime with TStruct _ fs => fs | _ => [] end)); [reflexivity|reflexivity|repeat constructor]. Defined.

(** The fields of a [time.Time] value are all unexported. *)
Lemma time_fields_unexported (fvs : list (field * val)) :
  fvs.*1 = (match TTime with TStruct _ fs => fs | _ => [] end) ->
  Forall (fun fv => isExported (fname fv.1) = false) fvs.
Proof.
  intros E. assert (H : Forall (fun f => isExported (fname f) = false) (fvs.*1)) by (rewrite E; repeat constructor).
  by apply Forall_fmap in H.
Qed.

(** C29: [fillStruct] drops timestamps.  Filling any well-typed [Model]
    [d] from a [Model] with identifier [id] and any timestamps [c] and [u]
    sets the identifier and keeps [d]'s own [CreatedAt] and [UpdatedAt]:
    the recursion enters each [time.Time] field by field and none of them
    can be set.  ([copyStruct] assigns a [time.Time] whole and copies it.) *)
Theorem fillStruct_drops_timestamps d id c u :
  typeOf d = TModel -> val_wt d -> typeOf c = TTime -> typeOf u = TTime ->
  fillStruct d (setPath [0] (VUint id) (setPath [1] c (setPath [2] u (zeroOf TModel)))) =
  (setPath [0] (VUint id) d, None).
Proof.
  intros Hd Hwt Hc Hu. destruct (typeOf_struct_inv _ _ _ Hd) as (fvs & -> & E).
  destruct fvs as [|[g1 a] [|[g2 c0] [|[g3 u0] [|]]]]; simpl in E; try discriminate.
  injection E as -> -> ->. simpl in Hwt. destruct Hwt as (Ha & _ & Hc0 & _ & Hu0 & _ & _).
  destruct (typeOf_struct_inv _ _ _ Hc) as (cf & -> & Ec), (typeOf_struct_inv _ _ _ Hu) as (uf & -> & Eu),
    (typeOf_struct_inv _ _ _ Hc0) as (cf0 & -> & Ec0), (typeOf_struct_inv _ _ _ Hu0) as (uf0 & -> & Eu0).
  destruct a; try discriminate. simpl.
  rewrite (fillFields_unexported fillStruct _ cf) by (apply time_fields_unexported; exact Ec).
  rewrite (fillFields_unexported fillStruct _ uf) by (apply time_fields_unexported; exact Eu).
  reflexivity.
Qed.

Lemma fillStruct_drops_timestamps_witness :
  typeOf (zeroOf TModel) = TModel /\ val_wt (zeroOf TModel) /\
  typeOf (setPath [0] (VUint 5) (zeroOf TTime)) = TTime /\ typeOf (setPath [1] (VInt 7) (zeroOf TTime)) = TTime /\
  fillStruct (zeroOf TModel)
    (setPath [0] (VUint 3) (setPath [1] (setPath [0] (VUint 5) (zeroOf TTime))
       (setPath [2] (setPath [1] (VInt 7) (zeroOf TTime)) (zeroOf TModel)))) =
  (setPath [0] (VUint 3) (zeroOf TModel), None).
Proof.
  assert (H1 : typeOf (zeroOf TModel) = TModel) by reflexivity.
  assert (H2 : val_wt (zeroOf TModel)) by apply val_wt_zeroOf.
  assert (H3 : typeOf (setPath [0] (VUint 5) (zeroOf TTime)) = TTime) by reflexivity.
  assert (H4 : typeOf (setPath [1] (VInt 7) (zeroOf TTime)) = TTime) by reflexivity.
  split_and!; [exact H1|exact H2|exact H3|exact H4|exact (fillStruct_drops_timestamps _ 3 _ _ H1 H2 H3 H4)].
Defined.

(** ** [fillStruct] keeps the destination well typed *)

(** What the recursive call [fill] guarantees: the destination keeps its
    type and stays well typed. *)
Definition keeps_wt (fill : val -> val -> val * option goerr) (sv : val) : Prop :=
  forall d, val_wt d -> typeOf (fill d sv).1 = typeOf d /\ val_wt (fill d sv).1.

Lemma fillStruct_elem_wt fill name et x y :
  val_wt x -> (forall n fvs, x = VStruct n fvs -> keeps_wt fill x) ->
  fillElem fill name et x = Ok y -> typeOf y = et /\ val_wt y.
Proof.
  intros Hx Hk. pose proof (val_wt_zeroOf et) as Hz. pose proof (typeOf_zeroOf et) as Ht.
  destruct x as [| | | |n fvs| |]; cbn [fillElem];
    try solve [destruct (assignOrConvert_wt (zeroOf et) _ Hx) as [H1 H2];
               destruct (assignOrConvert _ _) as [d [e|]]; intros [=<-]; simpl in *; split; [congruence|auto]].
  destruct (Hk _ _ eq_refl (zeroOf et) Hz) as [H1 H2].
  destruct (fill _ _) as [d [e|]]; intros [=<-]; simpl in *; split; [congruence|done].
Qed.

Lemma fillStruct_elems_wt fill name et xs ys :
  Forall (fun x => forall y, fillElem fill name et x = Ok y -> typeOf y = et /\ val_wt y) xs ->
  fillElems fill name et xs = Ok ys -> Forall (fun y => typeOf y = et /\ val_wt y) ys.
Proof.
  intros Hxs. revert ys. induction Hxs as [|x xs Hx _ IH]; intros ys; simpl; [by intros [=<-]|].
  destruct (fillElem fill name et x) as [y|] eqn:E1; simpl; [|done].
  destruct (fillElems fill name et xs) as [zs|] eqn:E2; simpl; [|done].
  intros [=<-]. constructor; [by apply Hx|by apply IH].
Qed.

Lemma fillFields_wt fill dst l :
  val_wt dst -> Forall (fun fv => forall d, val_wt d ->
    typeOf (fillValue fill (fname fv.1) d fv.2).1 = typeOf d /\ val_wt (fillValue fill (fname fv.1) d fv.2).1) l ->
  typeOf (fillFields fill dst l).1 = typeOf dst /\ val_wt (fillFields fill dst l).1.
Proof.
  revert dst. induction l as [|[f sv] l IH]; intros dst Hd Hl; simpl; [done|].
  apply Forall_cons in Hl as [Hsv Hl]. simpl in Hsv.
  destruct (settableField (typeOf dst) (fname f)) as [[p f']|] eqn:Hs; [|by apply IH].
  apply settableField_FieldByName in Hs.
  destruct (FieldByName_wt dst _ p f' Hd Hs) as [_ (dv & Hdv & Hdt & Hdw)]. rewrite Hdv.
  destruct (Hsv dv Hdw) as [H1 H2]. destruct (fillValue fill (fname f) dv sv) as [dv' e]. simpl in H1, H2.
  destruct (setPath_wt p dst dv dv' Hdv H1 Hd H2) as [H3 H4].
  destruct e; simpl; [done|]. rewrite <- H3. apply IH; auto.
Qed.

Lemma fillValue_wt s : forall d name,
  val_wt d -> val_wt s ->
  typeOf (fillValue fillStruct name d s).1 = typeOf d /\ val_wt (fillValue fillStruct name d s).1.
Proof.
  induction s as [b|z|z|str|n fvs IH|t xs IH|t p _] using val_ind; intros d name Hd Hs; cbn [fillValue];
    try solve [destruct (assignOrConvert_wt d _ Hs) as [H1 H2];
               destruct (assignOrConvert d _) as [d' [e|]]; simpl in *; auto].
  - destruct d as [| | | |n' dfvs| |]; cbn [fillStruct]; try done.
    apply fillFields_wt; [done|]. apply list_all_prod_Forall in IH. apply val_wt_struct_Forall in Hs.
    pose proof (conj IH Hs) as Hall. rewrite <-Forall_and in Hall. eapply Forall_impl; [exact Hall|].
    intros [f x] [Hx [_ Hxw]] d' Hd'. by apply Hx.
  - destruct (typeOf d) as [| | | | |et|] eqn:Hty; try done.
    destruct (fillElems fillStruct name et xs) as [ys|] eqn:E; [|done]. simpl.
    apply typeOf_slice_inv in Hty as (zs & ->).
    split; [done|]. apply val_wt_slice_Forall. apply (fillStruct_elems_wt fillStruct name et xs ys); [|exact E].
    apply list_all_Forall in IH. apply val_wt_slice_Forall in Hs.
    pose proof (conj IH Hs) as Hall. rewrite <-Forall_and in Hall. eapply Forall_impl; [exact Hall|].
    intros x [Hx [_ Hxw]] y. apply fillStruct_elem_wt; [done|]. intros n fvs -> d' Hd'.
    exact (Hx d' name Hd' Hxw).
Qed.

(** [fillStruct] keeps the destination's type and well-typedness on
    every path, errors included: each value it stores is assigned,
    converted (integers wrapped to 64 bits) or rebuilt at the type of the
    field it replaces. *)
Theorem fillStruct_well_typed d s :
  val_wt d -> val_wt s -> typeOf (fillStruct d s).1 = typeOf d /\ val_wt (fillStruct d s).1.
Proof.
  intros Hd Hs. destruct s as [| | | |n fvs| |]; try (by destruct d).
  exact (fillValue_wt (VStruct n fvs) d "" Hd Hs).
Qed.

Lemma fillStruct_well_typed_witness :
  let d := zeroOf TOrder in let s := order "Ann" 30 [item "a" 2] None in
  typeOf (fillStruct d s).1 = typeOf d /\ val_wt (fillStruct d s).1.
Proof.
  cbv zeta. apply fillStruct_well_typed; [apply val_wt_zeroOf|]. apply val_wtb_spec. vm_compute. reflexivity.
Defined.

(** [fillStruct] drops timestamps: a [Model] filled from a [Model]
    gets its [ID] but keeps the destination's zero [CreatedAt], since
    [time.Time] is entered field by field and its fields are unexported;
    [copyStruct] assigns the [time.Time] whole and copies it. *)
Example fillStruct_drops_CreatedAt :
  fillStruct (zeroOf TModel) model3 = (setPath [0] (VUint 3) (zeroOf TModel), None) /\
  copyStruct (zeroOf TModel) model3 = (model3, None).
Proof. split; vm_compute; reflexivity. Qed.

(** ** Equivalence with [copyStruct] on flat sources *)

Lemma no_ptr_ty_struct n fs : no_ptr_ty (TStruct n fs) = true <-> Forall (fun f => no_ptr_ty (ftype f) = true) fs.
Proof.
  induction fs as [|[x t g e] fs IH]; simpl; [split; [intros; constructor|done]|].
  rewrite andb_true_iff, Forall_cons, IH. done.
Qed.

Lemma no_ptr_getPath p v w :
  val_wt v -> no_ptr_ty (typeOf v) = true -> getPath p v = Some w -> no_ptr_ty (typeOf w) = true.
Proof.
  revert v. induction p as [|i p IH]; intros v Hv Hn Hg; simpl in Hg; [by injection Hg as <-|].
  destruct v as [| | | |n fvs| |]; try discriminate.
  destruct (fvs !! i) as [[f x]|] eqn:Ei; [|discriminate].
  destruct (val_wt_lookup n fvs i f x Hv Ei) as [Hxt Hxw]. apply (IH x Hxw); [|done].
  apply no_ptr_ty_struct in Hn. rewrite Hxt.
  eapply (Forall_lookup_1 _ _ i) in Hn; [exact Hn|]. by rewrite list_lookup_fmap, Ei.
Qed.

Lemma copyField_scalar dv sv :
  is_scalar sv = true -> no_ptr_ty (typeOf dv) = true -> copyField dv sv = assignOrConvert dv sv.
Proof.
  intros Hs Hn. unfold copyField. rewrite derefSrc_nonptr by (by destruct sv).
  apply storeThrough_nonptr. by destruct (typeOf dv).
Qed.

Lemma fillFields_copyFields fill dst l :
  val_wt dst -> no_ptr_ty (typeOf dst) = true -> Forall (fun fv => is_scalar fv.2 = true /\ val_wt fv.2) l ->
  fillFields fill dst l = ((copyFields dst l).1, toFillErr <$> (copyFields dst l).2).
Proof.
  revert dst. induction l as [|[f sv] l IH]; intros dst Hd Hn Hl; simpl; [done|].
  apply Forall_cons in Hl as [[Hsc Hsw] Hl]. simpl in Hsc, Hsw.
  destruct (settableField (typeOf dst) (fname f)) as [[p f']|] eqn:Hs; [|by apply IH].
  destruct (getPath p dst) as [dv|] eqn:Hdv; [|by apply IH].
  assert (Hwdv : val_wt dv).
  { apply settableField_FieldByName in Hs.
    destruct (FieldByName_wt dst _ p f' Hd Hs) as [_ (v & Hv & _ & Hw)]. congruence. }
  rewrite copyField_scalar by eauto using no_ptr_getPath.
  assert (Hfv : fillValue fill (fname f) dv sv =
                match assignOrConvert dv sv with
                | (dv', None) => (dv', None)
                | (_, Some _) => (dv, Some (ErrAssign (fname f) (typeOf sv) (typeOf dv)))
                end) by (by destruct sv).
  rewrite Hfv. destruct (assignOrConvert_wt dv sv Hsw) as [H1 H2].
  assert (Hcase : (assignOrConvert dv sv).2 = None \/
                  assignOrConvert dv sv = (dv, Some (ErrTypeMismatch (typeOf sv) (typeOf dv)))).
  { unfold assignOrConvert. destruct (AssignableTo (typeOf sv) (typeOf dv)), (ConvertibleTo (typeOf sv) (typeOf dv)); auto. }
  destruct (assignOrConvert dv sv) as [dv' [e|]]; simpl in *.
  - destruct Hcase as [?|Heq]; [done|]. by injection Heq as -> ->.
  - destruct (setPath_wt p dst dv dv' Hdv H1 Hd (H2 Hwdv)) as [H3 H4]. apply IH; rewrite ?H3; done.
Qed.

(** C28: on flat sources, [fillStruct] and [copyStruct] are the same copier:
    into a destination with no pointer fields they write the same
    destination and fail on the same field, the error differing only in
    its message ([toFillErr]). *)
Theorem fillStruct_copyStruct_equiv d s :
  val_wt d -> val_wt s -> no_ptr_ty (typeOf d) = true -> flat_struct s = true ->
  fillStruct d s = ((copyStruct d s).1, toFillErr <$> (copyStruct d s).2).
Proof.
  intros Hd Hs Hn Hf. destruct d as [| | | |n fvs| |], s as [| | | |n' sfvs| |]; try done.
  apply fillFields_copyFields; [done|done|]. apply val_wt_struct_Forall in Hs.
  simpl in Hf. rewrite forallb_forall in Hf. apply Forall_forall. intros fv Hin.
  split; [apply Hf, list_elem_of_In, Hin|]. by eapply Forall_forall in Hs as [_ ?].
Qed.

Lemma fillStruct_copyStruct_equiv_witness :
  let d := zeroOf (TPair "P" TString) in
  let s := VStruct "Q" [(Field "A" TUint "" false, VUint 7); (Field "B" TBool "" false, VBool true)] in
  fillStruct d s = ((copyStruct d s).1, toFillErr <$> (copyStruct d s).2) /\
  (fillStruct d s).2 = Some (ErrAssign "B" TBool TString).
Proof.
  cbv zeta. split; [|vm_compute; reflexivity].
  apply fillStruct_copyStruct_equiv; [apply val_wt_zeroOf| |vm_compute; reflexivity|vm_compute; reflexivity].
  apply val_wtb_spec. vm_compute. reflexivity.
Defined.

End FillStruct.
