(* ===== verification/Shapes.v ===== *)
(** * Shapes: the parameter shapes the engine generates (src/unnamed/part_001)

    Module [Shapes] translates [GenerateCreateParameters],
    [GenerateUpdateParameters] and [GenerateFilterParameters] with their
    helpers [isBaseField], [extractBaseEmbeddedFields] and
    [generateInnerStruct].  The Go map [addedFields] that the helpers share
    with their caller is a [gset string] threaded through every call, so a
    name added while one slice field is expanded is seen by the next ones.
    [reflect.StructOf] panics on a duplicated or unexported field name; a
    panic is the outcome [Err (ErrPanic _)].  The struct-tag parser
    [StructTag.Lookup] of package [reflect] is modelled too, since every
    generated tag is built from the value it returns; it runs with fuel,
    shown enough at the end of the file. *)

From S2P Require Import Prelude GoReflect Orm App Copier.
Import GoReflect Orm.

Module Shapes.

(** ** Strings *)

(** [strings.Contains(s, sub)] *)
Fixpoint str_contains (sub s : string) : bool :=
  String.prefix sub s || match s with EmptyString => false | String _ s' => str_contains sub s' end.

(** [strings.HasSuffix(s, suffix)] *)
Definition hasSuffix (s suffix : string) : bool :=
  (String.length suffix <=? String.length s) &&
  String.eqb (String.substring (String.length s - String.length suffix) (String.length suffix) s) suffix.

(** ** [reflect.StructTag.Lookup] *)

Definition asc (n : nat) : Ascii.ascii := Ascii.ascii_of_nat n.

(** A character of a tag key: above space, not a colon, a double quote or DEL. *)
Definition key_char (c : Ascii.ascii) : bool :=
  let n := Ascii.nat_of_ascii c in (32 <? n) && negb (n =? 58) && negb (n =? 34) && negb (n =? 127).

Fixpoint skipSpaces (s : string) : string :=
  match s with
  | String c s' => if Ascii.nat_of_ascii c =? 32 then skipSpaces s' else s
  | EmptyString => s
  end.

Fixpoint scanKey (s : string) : string * string :=
  match s with
  | String c s' => if key_char c then let '(k, r) := scanKey s' in (String c k, r) else (EmptyString, s)
  | EmptyString => (EmptyString, EmptyString)
  end.

(** The quoted value after the opening quote: its raw text up to the
    closing quote (a backslash skips the next character) and the rest. *)
Fixpoint scanQuoted (s : string) : option (string * string) :=
  match s with
  | EmptyString => None
  | String c s' =>
      if Ascii.nat_of_ascii c =? 34 then Some (EmptyString, s')
      else if Ascii.nat_of_ascii c =? 92 then
        match s' with
        | EmptyString => None
        | String d s'' => '(r, rest) ← scanQuoted s''; Some (String c (String d r), rest)
        end
      else '(r, rest) ← scanQuoted s'; Some (String c r, rest)
  end.

(** [strconv.Unquote] of a double-quoted value: a backslash followed by a
    backslash, a double quote, [n] or [t] is an escape; a newline or
    another escape is an error (the other escapes of Go are not
    modelled). *)
Fixpoint unquote (raw : string) : option string :=
  match raw with
  | EmptyString => Some EmptyString
  | String c s' =>
      if Ascii.nat_of_ascii c =? 10 then None
      else if Ascii.nat_of_ascii c =? 92 then
        match s' with
        | String d s'' =>
            let n := Ascii.nat_of_ascii d in
            let out := if n =? 110 then Some (asc 10) else if n =? 116 then Some (asc 9)
                       else if (n =? 92) || (n =? 34) then Some d else None in
            o ← out; r ← unquote s''; Some (String o r)
        | EmptyString => None
        end
      else r ← unquote s'; Some (String c r)
  end.

Fixpoint lookupTag (fuel : nat) (tag key : string) : option string :=
  match fuel with
  | O => None
  | S fuel' =>
      match skipSpaces tag with
      | EmptyString => None
      | tag' =>
          match scanKey tag' with
          | (EmptyString, _) => None
          | (name, String colon (String quote q)) =>
              if (Ascii.nat_of_ascii colon =? 58) && (Ascii.nat_of_ascii quote =? 34) then
                match scanQuoted q with
                | None => None
                | Some (raw, rest) =>
                    if String.eqb key name then unquote raw else lookupTag fuel' rest key
                end
              else None
          | _ => None
          end
      end
  end.

Definition Lookup (tag key : string) : option string := lookupTag (S (String.length tag)) tag key.

(** ** The engine's helpers *)

(** [isBaseField] (part_001:364-375): the name contains "Model" or
    "ContentModel", or the type is named so. *)
Definition baseTypes : list string := ["Model"; "ContentModel"].

Definition isBaseField (f : field) : bool :=
  existsb (fun base => str_contains base (fname f) || String.eqb (Name (ftype f)) base) baseTypes.

(** The tag [json:"..."] (with [validate:"..."] when the field has one)
    that the create and update shapes give a field. *)
Definition jsonTag (f : field) : string :=
  match Lookup (ftag f) "json" with Some v => v | None => fname f end.

Definition paramTag (f : field) : string :=
  match Lookup (ftag f) "validate" with
  | Some v => kv2 "json" (jsonTag f) "validate" v
  | None => kv "json" (jsonTag f)
  end.

(** [reflect.StructOf]: an unnamed struct type; it panics on an unexported
    or duplicated field name. *)
Definition StructOf (fs : list field) : gres ty :=
  if forallb (fun f => isExported (fname f)) fs then
    if bool_decide (NoDup (fname <$> fs)) then Ok (TStruct "" fs)
    else Err (ErrPanic "reflect.StructOf: duplicate field")
  else Err (ErrPanic "reflect.StructOf: field is unexported but missing PkgPath").

Definition structFields (t : ty) : gres (list field) :=
  match t with
  | TStruct _ fs => Ok fs
  | _ => Err (ErrPanic "reflect: NumField of non-struct type")
  end.

(** [extractBaseEmbeddedFields] (part_001:378-412): only [LanguageID] is
    taken from an embedded base struct, once. *)
Definition extractBaseEmbeddedFields (embeddedType : ty) (addedFields : gset string)
    : gres (list field * gset string) :=
  let! fs := structFields embeddedType in
  Ok (foldl (fun '(acc, added) f =>
               if String.eqb (fname f) "LanguageID" && negb (bool_decide (fname f ∈ added))
               then (acc ++ [Field (fname f) (ftype f) (paramTag f) false], {[fname f]} ∪ added)
               else (acc, added)) ([], addedFields) fs).

(** [generateInnerStruct] (part_001:304-361) *)
Definition innerStep (includeForeignKeys : bool) (acc : gres (list field * gset string)) (f : field)
    : gres (list field * gset string) :=
  let! '(fields, added) := acc in
  if fanon f && isBaseField f then
    let! '(emb, added') := extractBaseEmbeddedFields (ftype f) added in
    Ok (fields ++ emb, added')
  else if bool_decide (fname f ∈ added) then Ok (fields, added)
  else if includeForeignKeys && hasSuffix (fname f) "ID" then Ok (fields, added)
  else Ok (fields ++ [Field (fname f) (ftype f) (paramTag f) false], {[fname f]} ∪ added).

Definition generateInnerStruct (innerType : ty) (addedFields : gset string) (includeForeignKeys : bool)
    : gres (ty * gset string) :=
  let! fs := structFields innerType in
  let! '(innerFields, added) := foldl (innerStep includeForeignKeys) (Ok ([], addedFields)) fs in
  let! st := StructOf innerFields in
  Ok (st, added).

(** ** [GenerateCreateParameters] and [GenerateUpdateParameters] *)

(** The loop body of [GenerateCreateParameters] (part_001:42-112), which
    [GenerateUpdateParameters] (part_001:138-208) repeats with other field
    types: [sliceOf inner] for an expanded slice of structs, [scalarOf t]
    for any other field.  A base field contributes only the [LanguageID]
    of an embedded base struct; a slice of non-structs is dropped. *)
Definition paramStep (sliceOf scalarOf : ty -> ty) (acc : gres (list field * gset string)) (f : field)
    : gres (list field * gset string) :=
  let! '(fields, added) := acc in
  if fanon f || isBaseField f then
    if fanon f && isBaseField f then
      let! '(emb, added') := extractBaseEmbeddedFields (ftype f) added in
      Ok (fields ++ emb, added')
    else Ok (fields, added)
  else
    match ftype f with
    | TSlice et =>
        match et with
        | TStruct _ _ =>
            let! '(inner, added') := generateInnerStruct et added true in
            Ok (fields ++ [Field (fname f) (sliceOf inner) (paramTag f) false], added')
        | _ => Ok (fields, added)
        end
    | t => Ok (fields ++ [Field (fname f) (scalarOf t) (paramTag f) false], added)
    end.

(** [reflect.TypeOf(model)], dereferenced once if it is a pointer type. *)
Definition modelStruct (T : ty) : ty := match T with TPtr t => t | t => t end.

(** The shape's fields, before [reflect.StructOf]. *)
Definition paramFields (sliceOf scalarOf : ty -> ty) (T : ty) : gres (list field) :=
  let! fs := structFields (modelStruct T) in
  let! '(fields, _) := foldl (paramStep sliceOf scalarOf) (Ok ([], ∅)) fs in
  Ok fields.

(** [reflect.New(reflect.StructOf(fields)).Interface()]: a pointer to a
    zero value of the shape. *)
Definition newShape (fields : list field) : gres val :=
  let! st := StructOf fields in
  Ok (VPtr st (Some (zeroOf st))).

Definition GenerateCreateParameters (T : ty) : gres val :=
  let! fields := paramFields TSlice id T in newShape fields.

(** [reflect.PointerTo(reflect.SliceOf(inner))], the type of an expanded
    slice field of the update shape. *)
Definition updSlice (inner : ty) : ty := TPtr (TSlice inner).

Definition GenerateUpdateParameters (T : ty) : gres val :=
  let! fields := paramFields updSlice TPtr T in newShape fields.

(** ** [GenerateFilterParameters] (part_001:221-301) *)

Definition urlTag (name : string) : string := kv "url" (Copier.toSnakeCase name).

(** The field a model field [f] gives the filter shape:
    [reflect.PtrTo(f.Type)] under the tag [url:"snake_case name"]. *)
Definition filterField (f : field) : field := Field (fname f) (TPtr (ftype f)) (urlTag (fname f)) false.

Definition addFilterField (acc : list field * gset string) (f : field) : list field * gset string :=
  let '(fields, added) := acc in
  if bool_decide (fname f ∈ added) then acc
  else (fields ++ [filterField f], {[fname f]} ∪ added).

(** The flattening of one inner field of a content slice. *)
Definition filterInnerStep (acc : list field * gset string) (inner : field) : list field * gset string :=
  let '(_, added) := acc in
  if hasSuffix (fname inner) "ID" then acc
  else if fanon inner || isBaseField inner then
    if String.eqb (fname inner) "LanguageID" && negb (bool_decide (fname inner ∈ added))
    then addFilterField acc inner
    else acc
  else addFilterField acc inner.

Definition filterStep (acc : list field * gset string) (f : field) : list field * gset string :=
  if fanon f || isBaseField f then acc
  else
    match ftype f with
    | TSlice (TStruct _ innerFs as et) =>
        if implementsContent et then foldl filterInnerStep acc innerFs else addFilterField acc f
    | _ => addFilterField acc f
    end.

Definition filterFields (T : ty) : gres (list field) :=
  let! fs := structFields (modelStruct T) in
  Ok (foldl filterStep ([], ∅) fs).1.

Definition GenerateFilterParameters (T : ty) : gres val :=
  let! fields := filterFields T in newShape fields.

(** ** Models of the scenarios *)

(** A model with two slices of the same content type, as an application
    keeping published and draft translations would declare it. *)
Definition TPost : ty :=
  TStruct "Post"
    [Field "Model" TModel "" true;
     Field "Contents" (TSlice App.TBlogContent) (kv "json" "contents") false;
     Field "Drafts" (TSlice App.TBlogContent) (kv "json" "drafts") false].

(** A model with a field whose name contains [Model]. *)
Definition TCar : ty :=
  TStruct "Car"
    [Field "Model" TModel "" true;
     Field "ModelYear" TInt (kv "json" "model_year") false;
     Field "Name" TString (kv "json" "name") false].

(** ** Properties of the shapes *)

Definition panic_or_ok {A} (r : gres A) : Prop :=
  res_holds (fun _ => True) (fun e => exists m, e = ErrPanic m) r.

Lemma structFields_panic t : panic_or_ok (structFields t).
Proof. destruct t; simpl; eauto. Qed.

Lemma StructOf_panic fs : panic_or_ok (StructOf fs).
Proof. unfold StructOf. repeat case_match; simpl; eauto. Qed.

Lemma extractBase_names t a emb a' :
  extractBaseEmbeddedFields t a = Ok (emb, a') -> Forall (fun f => fname f = "LanguageID") emb.
Proof.
  unfold extractBaseEmbeddedFields. destruct (structFields t) as [fs|]; [|done]. intros [= Hf].
  assert (Forall (fun f => fname f = "LanguageID")
            (foldl (fun '(acc, added) f =>
               if String.eqb (fname f) "LanguageID" && negb (bool_decide (fname f ∈ added))
               then (acc ++ [Field (fname f) (ftype f) (paramTag f) false], {[fname f]} ∪ added)
               else (acc, added)) ([], a) fs).1) as H.
  { apply (foldl_inv _ (fun s => Forall (fun f => fname f = "LanguageID") s.1)); [|constructor].
    intros [acc added] f _ Hacc. case_match eqn:E; [|done].
    apply andb_prop in E as [E _]. apply String.eqb_eq in E.
    apply Forall_app; split; [done|]. by constructor. }
  by rewrite Hf in H.
Qed.

Lemma extractBase_panic t a : panic_or_ok (extractBaseEmbeddedFields t a).
Proof.
  unfold extractBaseEmbeddedFields. pose proof (structFields_panic t) as Hp.
  destruct (structFields t) eqn:E; simpl; [done|exact Hp].
Qed.

Lemma generateInnerStruct_panic t a b : panic_or_ok (generateInnerStruct t a b).
Proof.
  unfold generateInnerStruct. pose proof (structFields_panic t) as Hp.
  destruct (structFields t) as [fs|e] eqn:Ef; [|exact Hp].
  pose proof (foldl_result_inv (innerStep b) (fun _ _ => eq_refl) (fun _ => True)
    (fun e => exists m, e = ErrPanic m) fs (Ok ([], a))) as H.
  destruct (foldl (innerStep b) (Ok ([], a)) fs) as [[fields added]|e] eqn:E.
  - pose proof (StructOf_panic fields). by destruct (StructOf fields).
  - apply H; [|done]. intros [acc added] f _. unfold innerStep.
    destruct (fanon f && isBaseField f); simpl.
    + pose proof (extractBase_panic (ftype f) added) as Hx.
      destruct (extractBaseEmbeddedFields (ftype f) added) as [[emb a']|e']; simpl; [done|exact Hx].
    + repeat case_match; simpl; done.
Qed.

Lemma paramStep_panic sl sc s f : panic_or_ok (paramStep sl sc (Ok s) f).
Proof.
  destruct s as [fields added]. unfold paramStep.
  destruct (fanon f || isBaseField f); simpl.
  - destruct (fanon f && isBaseField f); simpl; [|done].
    pose proof (extractBase_panic (ftype f) added) as Hx.
    destruct (extractBaseEmbeddedFields (ftype f) added) as [[emb a']|e']; simpl; [done|exact Hx].
  - destruct (ftype f) as [| | | | |et|]; simpl; try done.
    destruct et; simpl; try done.
    pose proof (generateInnerStruct_panic (TStruct name fs) added true) as Hx.
    destruct (generateInnerStruct _ added true) as [[inner a']|e']; simpl; [done|exact Hx].
Qed.

Lemma paramFields_panic sl sc T : panic_or_ok (paramFields sl sc T).
Proof.
  unfold paramFields. pose proof (structFields_panic (modelStruct T)) as Hp.
  destruct (structFields (modelStruct T)) as [fs|e]; [|exact Hp]. simpl.
  pose proof (foldl_result_inv (paramStep sl sc) (fun _ _ => eq_refl) (fun _ => True)
    (fun e => exists m, e = ErrPanic m) fs (Ok ([], ∅))) as H.
  destruct (foldl (paramStep sl sc) (Ok ([], ∅)) fs) as [[fields added]|e]; [done|].
  apply H; [|done]. intros ? ? _. apply paramStep_panic.
Qed.

Lemma newShape_panic fs : panic_or_ok (newShape fs).
Proof. unfold newShape. pose proof (StructOf_panic fs). by destruct (StructOf fs). Qed.

Lemma shape_panic {A} (r : gres A) (k : A -> gres val) :
  panic_or_ok r -> (forall a, panic_or_ok (k a)) -> panic_or_ok (let! a := r in k a).
Proof. destruct r; simpl; auto. Qed.

(** the three generators never return a non-nil [error]: every
    failure of [GenerateCreateParameters], [GenerateUpdateParameters] and
    [GenerateFilterParameters] is a panic of package [reflect] (a model that
    is not a struct, an unexported or duplicated field), so the
    [GENERATE_*_PARAMS_ERROR] answers of the handlers are unreachable. *)
Theorem Generate_fails_only_by_panic T :
  panic_or_ok (GenerateCreateParameters T) /\ panic_or_ok (GenerateUpdateParameters T) /\
  panic_or_ok (GenerateFilterParameters T).
Proof.
  split_and!; apply shape_panic; auto using paramFields_panic, newShape_panic.
  unfold filterFields. pose proof (structFields_panic (modelStruct T)) as Hp.
  destruct (structFields (modelStruct T)); simpl; [done|exact Hp].
Qed.

(** A field of the update shape and the field of the create shape at the
    same position: same name, tag and embedding, and the type made a
    pointer, except for a [LanguageID] taken from an embedded base struct,
    which keeps its type. *)
Definition shape_rel (c u : field) : Prop :=
  fname u = fname c /\ ftag u = ftag c /\ fanon u = fanon c /\
  (ftype u = TPtr (ftype c) \/ (fname c = "LanguageID" /\ ftype u = ftype c)).

Lemma shape_rel_ptr n t tag : shape_rel (Field n t tag false) (Field n (TPtr t) tag false).
Proof. unfold shape_rel; simpl; auto 10. Qed.

Lemma shape_rel_embedded emb :
  Forall (fun f => fname f = "LanguageID") emb -> Forall2 shape_rel emb emb.
Proof.
  intros H. apply Forall_Forall2_diag. eapply Forall_impl; [exact H|].
  intros f Hf. unfold shape_rel. auto 10.
Qed.

Lemma paramStep_sim (sc su : list field * gset string) f :
  Forall2 shape_rel sc.1 su.1 /\ sc.2 = su.2 ->
  rel_res (fun sc su => Forall2 shape_rel sc.1 su.1 /\ sc.2 = su.2)
    (paramStep TSlice id (Ok sc) f) (paramStep updSlice TPtr (Ok su) f).
Proof.
  destruct sc as [fc a], su as [fu a']; simpl. intros [HF <-]. unfold paramStep.
  destruct (fanon f || isBaseField f); simpl.
  - destruct (fanon f && isBaseField f); simpl; [|done].
    pose proof (extractBase_names (ftype f) a) as Hn.
    destruct (extractBaseEmbeddedFields (ftype f) a) as [[emb a'']|e]; simpl; [|done].
    split; [|done]. apply Forall2_app; [done|]. by apply shape_rel_embedded, (Hn _ a'').
  - destruct (ftype f) as [| | | | |et|];
      try (split; [apply Forall2_app; [done|constructor; [apply shape_rel_ptr|constructor]]|done]).
    destruct et; simpl; try done.
    destruct (generateInnerStruct _ a true) as [[inner a'']|e]; simpl; [|done].
    split; [|done]. apply Forall2_app; [done|constructor; [apply shape_rel_ptr|constructor]].
Qed.

(** The two loops in lock step: same names, tags and order. *)
Lemma paramFields_update_create T :
  rel_res (Forall2 shape_rel) (paramFields TSlice id T) (paramFields updSlice TPtr T).
Proof.
  unfold paramFields. destruct (structFields (modelStruct T)) as [fs|e]; simpl; [|done].
  pose proof (foldl_result_sim (paramStep TSlice id) (paramStep updSlice TPtr)
    (fun sc su => Forall2 shape_rel sc.1 su.1 /\ sc.2 = su.2) (fun _ _ => eq_refl) (fun _ _ => eq_refl)
    fs (Ok ([], ∅)) (Ok ([], ∅))) as H.
  specialize (H ltac:(intros; by apply paramStep_sim) ltac:(done)).
  destruct (foldl (paramStep TSlice id) _ fs) as [[fc ac]|e1],
    (foldl (paramStep updSlice TPtr) _ fs) as [[fu au]|e2]; simpl in *; try done. by destruct H.
Qed.

(** What an exported, non-base field of the model puts in a shape: a
    slice of structs its expanded slice, a slice of other elements
    nothing, any other field itself, each with the tag [paramTag]. *)
Definition contributes (sliceOf scalarOf : ty -> ty) (f : field) (fields : list field) : Prop :=
  match ftype f with
  | TSlice (TStruct _ _) => exists inner, Field (fname f) (sliceOf inner) (paramTag f) false ∈ fields
  | TSlice _ => True
  | t => Field (fname f) (scalarOf t) (paramTag f) false ∈ fields
  end.

Lemma contributes_app so sc f l X : contributes so sc f l -> contributes so sc f (l ++ X).
Proof.
  unfold contributes. intros H. repeat case_match; try done;
    first [destruct H as [inner H]; exists inner | idtac]; apply elem_of_app; by left.
Qed.

Lemma paramStep_grows so sc s f r : paramStep so sc (Ok s) f = Ok r -> exists X, r.1 = s.1 ++ X.
Proof.
  destruct s as [fl a]. unfold paramStep. simpl.
  repeat case_match; intros; simplify_eq/=; eauto using app_nil_r.
Qed.

Lemma paramStep_contributes so sc s f r :
  fanon f = false -> isBaseField f = false -> paramStep so sc (Ok s) f = Ok r -> contributes so sc f r.1.
Proof.
  destruct s as [fl a]. unfold paramStep, contributes. intros -> ->. simpl.
  repeat case_match; intros; simplify_eq/=; try done; try eexists; apply elem_of_app; right; by left.
Qed.

Lemma foldl_paramStep_contributes so sc fs : forall s r,
  foldl (paramStep so sc) (Ok s) fs = Ok r ->
  (exists X, r.1 = s.1 ++ X) /\
  forall f, f ∈ fs -> fanon f = false -> isBaseField f = false -> contributes so sc f r.1.
Proof.
  induction fs as [|g fs IH]; intros s r Hr; cbn [foldl] in Hr.
  - simplify_eq. split; [exists []; by rewrite app_nil_r|]. intros f Hf. by apply elem_of_nil in Hf.
  - destruct (paramStep so sc (Ok s) g) as [s'|e] eqn:Hs;
      [|by rewrite (foldl_result_err (paramStep so sc) (fun _ _ => eq_refl)) in Hr].
    destruct (IH s' r Hr) as [[X HX] Hc]. destruct (paramStep_grows _ _ _ _ _ Hs) as [Y HY].
    split; [exists (Y ++ X); by rewrite HX, HY, app_assoc|].
    intros f [->|Hf]%elem_of_cons Ha Hb; [|by apply Hc].
    rewrite HX. by apply contributes_app, (paramStep_contributes so sc s g).
Qed.

Lemma shape_rel_names cfs ufs : Forall2 shape_rel cfs ufs -> fname <$> ufs = fname <$> cfs.
Proof. induction 1 as [|c u cfs ufs [Hn _] _ IH]; simpl; [done|]. by f_equal. Qed.

Lemma StructOf_names cfs ufs :
  fname <$> ufs = fname <$> cfs ->
  rel_res (fun c u => c = TStruct "" cfs /\ u = TStruct "" ufs) (StructOf cfs) (StructOf ufs).
Proof.
  intros Hn. unfold StructOf.
  assert (He : forallb (fun f => isExported (fname f)) ufs = forallb (fun f => isExported (fname f)) cfs).
  { assert (Hf : forall l : list field, forallb (fun f => isExported (fname f)) l = forallb isExported (fname <$> l))
      by (intros l; induction l as [|x l IHl]; simpl; [done|by rewrite IHl]).
    by rewrite !Hf, Hn. }
  rewrite He, Hn. by repeat case_match.
Qed.

(** C5: the update shape is the create shape with optional fields.  For
    every struct model, both generators fail alike, or both give a pointer
    to a new zero struct whose fields have the same names, tags and order,
    every update field being a pointer to the create field's type (but a
    [LanguageID] taken from an embedded base struct, kept with its own
    type); and every exported, non-base field of the model is in both
    shapes with its tag [paramTag]: a slice of structs as a slice of its
    inner struct (a pointer to one in the update shape), any other
    non-slice field with its own type (a pointer to it in the update
    shape). *)
Theorem GenerateUpdate_refines_create n fs :
  rel_res (fun c u => exists cfs ufs,
             c = VPtr (TStruct "" cfs) (Some (zeroOf (TStruct "" cfs))) /\
             u = VPtr (TStruct "" ufs) (Some (zeroOf (TStruct "" ufs))) /\
             Forall2 shape_rel cfs ufs /\
             forall f, f ∈ fs -> fanon f = false -> isBaseField f = false ->
               contributes TSlice id f cfs /\ contributes updSlice TPtr f ufs)
    (GenerateCreateParameters (TStruct n fs)) (GenerateUpdateParameters (TStruct n fs)).
Proof.
  pose proof (paramFields_update_create (TStruct n fs)) as Hrel.
  unfold GenerateCreateParameters, GenerateUpdateParameters. unfold paramFields in *. simpl in *.
  destruct (foldl (paramStep TSlice id) _ fs) as [[cfs ac]|e1] eqn:Hc,
    (foldl (paramStep updSlice TPtr) _ fs) as [[ufs au]|e2] eqn:Hu; simpl in *; try done.
  pose proof (StructOf_names cfs ufs (shape_rel_names _ _ Hrel)) as Hs.
  unfold newShape. destruct (StructOf cfs) as [tc|], (StructOf ufs) as [tu|]; simpl in *; try done.
  destruct Hs as [-> ->]. exists cfs, ufs. split_and!; [done|done|done|].
  intros f Hf Ha Hb. split.
  - exact (proj2 (foldl_paramStep_contributes _ _ _ _ _ Hc) f Hf Ha Hb).
  - exact (proj2 (foldl_paramStep_contributes _ _ _ _ _ Hu) f Hf Ha Hb).
Qed.

(** The names a helper adds to the shared set: fresh with respect to the
    set [a] it was given, pairwise distinct, and exactly the names added
    to the set. *)
Definition fresh_inv (a : gset string) (s : list field * gset string) : Prop :=
  NoDup (fname <$> s.1) /\ Forall (fun g => fname g ∉ a) s.1 /\ s.2 = a ∪ list_to_set (fname <$> s.1).

Lemma fresh_inv_nil a : fresh_inv a ([], a).
Proof. split_and!; simpl; [constructor|constructor|]. unfold_leibniz. set_solver. Qed.

Lemma fresh_inv_snoc a acc ad f :
  fresh_inv a (acc, ad) -> fname f ∉ ad -> fresh_inv a (acc ++ [f], {[fname f]} ∪ ad).
Proof.
  intros (Hnd & Hfa & Ha) Hf; unfold fresh_inv in *; cbn [fst snd] in *; subst ad. split_and!.
  - rewrite fmap_app. apply NoDup_app. split_and!; [done| |by apply NoDup_singleton].
    intros x Hx ->%list_elem_of_singleton. set_solver.
  - apply Forall_app. split; [done|]. constructor; [set_solver|constructor].
  - rewrite fmap_app, list_to_set_app_L. simpl. unfold_leibniz. set_solver.
Qed.

Lemma fresh_inv_app a acc ad emb ad' :
  fresh_inv a (acc, ad) -> fresh_inv ad (emb, ad') -> fresh_inv a (acc ++ emb, ad').
Proof.
  intros (Hnd & Hfa & Ha) (Hnd' & Hfa' & Ha'); unfold fresh_inv in *; cbn [fst snd] in *; subst ad ad'. split_and!.
  - rewrite fmap_app. apply NoDup_app. split_and!; [done| |done].
    intros x Hx Hx'. apply list_elem_of_fmap in Hx' as (g & -> & Hg).
    eapply Forall_forall in Hfa'; [|exact Hg]. set_solver.
  - apply Forall_app. split; [done|]. eapply Forall_impl; [exact Hfa'|]. set_solver.
  - rewrite fmap_app, list_to_set_app_L. unfold_leibniz. set_solver.
Qed.

Lemma extractBase_fresh t a emb a' :
  extractBaseEmbeddedFields t a = Ok (emb, a') -> fresh_inv a (emb, a').
Proof.
  unfold extractBaseEmbeddedFields. destruct (structFields t) as [fs|]; [|done]. simpl. intros [= Hf].
  rewrite <- Hf. apply foldl_inv; [|apply fresh_inv_nil].
  intros [acc ad] f _ Hi. case_match eqn:E; [|done].
  apply andb_prop in E as [_ E].
  apply (fresh_inv_snoc a acc ad (Field (fname f) (ftype f) (paramTag f) false)); [done|].
  simpl. intros Hin. by rewrite bool_decide_true in E.
Qed.

Lemma innerStep_fresh a b s f :
  fresh_inv a s -> res_holds (fresh_inv a) (fun _ => True) (innerStep b (Ok s) f).
Proof.
  destruct s as [acc ad]. intros Hi. unfold innerStep. simpl.
  destruct (fanon f && isBaseField f); simpl.
  - pose proof (extractBase_fresh (ftype f) ad) as He.
    destruct (extractBaseEmbeddedFields (ftype f) ad) as [[emb ad']|e]; simpl; [|done].
    eapply fresh_inv_app; [exact Hi|by apply He].
  - case_bool_decide as Hin; simpl; [done|].
    destruct (b && hasSuffix (fname f) "ID"); simpl; [done|].
    by apply (fresh_inv_snoc a acc ad (Field (fname f) (ftype f) (paramTag f) false)).
Qed.

(** [generateInnerStruct] gives an unnamed struct whose field names are
    pairwise distinct and not in the shared set [addedFields] it was given,
    and it adds exactly those names to the set.  Since the create and update
    generators pass one set to every slice field, the element struct of a
    second slice field never repeats a name of the first one. *)
Theorem generateInnerStruct_fresh t a b st a' :
  generateInnerStruct t a b = Ok (st, a') ->
  exists fs, st = TStruct "" fs /\ NoDup (fname <$> fs) /\
    Forall (fun f => fname f ∉ a) fs /\ a' = a ∪ list_to_set (fname <$> fs).
Proof.
  unfold generateInnerStruct. destruct (structFields t) as [fs|]; [|done]. simpl.
  pose proof (foldl_result_inv (innerStep b) (fun _ _ => eq_refl) (fresh_inv a) (fun _ => True)
    fs (Ok ([], a)) ltac:(intros; by apply innerStep_fresh) (fresh_inv_nil a)) as H.
  destruct (foldl (innerStep b) (Ok ([], a)) fs) as [[fields added]|e]; [|done]. simpl in H.
  unfold StructOf. repeat case_match; intros; simplify_eq. by exists fields.
Qed.

(** Where a field of the filter shape comes from: a top-level field of the
    model that is neither embedded nor a base field, or a field of the
    element struct of a slice field whose name does not end in [ID]. *)
Definition filter_source (fs : list field) (g : field) : Prop :=
  (g ∈ fs /\ (fanon g || isBaseField g) = false) \/
  (exists f n inner, f ∈ fs /\ ftype f = TSlice (TStruct n inner) /\ g ∈ inner /\
     hasSuffix (fname g) "ID" = false /\ ((fanon g || isBaseField g) = false \/ fname g = "LanguageID")).

Definition filter_inv (fs : list field) (s : list field * gset string) : Prop :=
  NoDup (fname <$> s.1) /\
  Forall (fun h => fname h ∈ s.2 /\ exists g, h = filterField g /\ filter_source fs g) s.1.

Lemma filter_inv_nil fs : filter_inv fs ([], ∅).
Proof. split; constructor. Qed.

Lemma addFilterField_inv fs s g :
  filter_source fs g -> filter_inv fs s -> filter_inv fs (addFilterField s g).
Proof.
  destruct s as [fields added]. intros Hg [Hnd Hfa]. unfold addFilterField. cbn [fst snd] in *.
  case_bool_decide as Hin; [done|]. split; cbn [fst snd].
  - rewrite fmap_app. apply NoDup_app. split_and!; [done| |by apply NoDup_singleton].
    intros x Hx ->%list_elem_of_singleton. apply list_elem_of_fmap in Hx as (h & Hh & Hmem).
    eapply Forall_forall in Hfa as [Hh' _]; [|exact Hmem]. simpl in Hh. by rewrite Hh in Hin.
  - apply Forall_app. split.
    + eapply Forall_impl; [exact Hfa|]. intros h [Hh Hs]. split; [set_solver|done].
    + constructor; [|constructor]. split; [simpl; set_solver|eauto].
Qed.

Lemma filterInnerStep_inv fs f n inner s x :
  f ∈ fs -> ftype f = TSlice (TStruct n inner) -> x ∈ inner ->
  filter_inv fs s -> filter_inv fs (filterInnerStep s x).
Proof.
  intros Hf Ht Hx Hi. destruct s as [fields added]. unfold filterInnerStep.
  destruct (hasSuffix (fname x) "ID") eqn:Hs; [done|].
  destruct (fanon x || isBaseField x) eqn:Hb.
  - case_match eqn:E; [|done]. apply andb_prop in E as [E _]. apply String.eqb_eq in E.
    apply addFilterField_inv; [|done]. right. exists f, n, inner. auto 10.
  - apply addFilterField_inv; [|done]. right. exists f, n, inner. auto 10.
Qed.

Lemma filterStep_inv fs s f : f ∈ fs -> filter_inv fs s -> filter_inv fs (filterStep s f).
Proof.
  intros Hf Hi. unfold filterStep. destruct (fanon f || isBaseField f) eqn:Hb; [done|].
  assert (Htop : filter_source fs f) by (left; done).
  destruct (ftype f) as [| | | | |et|] eqn:Ht; try by apply addFilterField_inv.
  destruct et as [| | | |n inner| |]; try by apply addFilterField_inv.
  destruct (implementsContent _); [|by apply addFilterField_inv].
  apply foldl_inv; [|done]. intros s' x Hx Hs'. by eapply filterInnerStep_inv.
Qed.

Lemma filterFields_inv T fs ffs :
  structFields (modelStruct T) = Ok fs -> filterFields T = Ok ffs ->
  NoDup (fname <$> ffs) /\ Forall (fun h => exists g, h = filterField g /\ filter_source fs g) ffs.
Proof.
  unfold filterFields. intros -> [= <-].
  destruct (foldl_inv filterStep (filter_inv fs) fs ([], ∅)) as [Hnd Hfa];
    [intros; by apply filterStep_inv|apply filter_inv_nil|].
  split; [done|]. eapply Forall_impl; [exact Hfa|]. by intros h [_ ?].
Qed.

Lemma generateInnerStruct_fresh_witness :
  exists fs, TStruct "" [Field "LanguageID" TString (kv "json" "language_id") false;
                         Field "Content" TString (kv "json" "content") false] = TStruct "" fs /\
    NoDup (fname <$> fs) /\ Forall (fun f => fname f ∉ ({[ "Title" ]} : gset string)) fs /\
    ({[ "Title"; "LanguageID"; "Content" ]} : gset string) = {[ "Title" ]} ∪ list_to_set (fname <$> fs).
Proof.
  apply (generateInnerStruct_fresh App.TBlogContent {[ "Title" ]} true). vm_compute. reflexivity.
Defined.

(** C18: the filter shape is a pointer to a new unnamed struct whose
    field names are pairwise distinct, and each of its fields is
    [filterField g] (a pointer to [g]'s type, tagged [url:"snake_case"])
    for a top-level non-base field [g] of the model or a field [g] of the
    element struct of a slice field whose name does not end in [ID]. *)
Theorem GenerateFilterParameters_spec T fs v :
  structFields (modelStruct T) = Ok fs -> GenerateFilterParameters T = Ok v ->
  exists ffs, v = VPtr (TStruct "" ffs) (Some (zeroOf (TStruct "" ffs))) /\
    NoDup (fname <$> ffs) /\ Forall (fun h => exists g, h = filterField g /\ filter_source fs g) ffs.
Proof.
  unfold GenerateFilterParameters, newShape. intros Hfs.
  destruct (filterFields T) as [ffs|] eqn:Ef; [|done]. simpl.
  unfold StructOf. repeat case_match; intros; simplify_eq.
  exists ffs. split; [done|]. by eapply filterFields_inv.
Qed.

Lemma GenerateFilterParameters_spec_witness :
  exists ffs, VPtr (TStruct "" [filterField (Field "Content" TString (kv "json" "content") false);
                                filterField (Field "BlogID" TUint (kv "json" "blog_id") false)])
                (Some (zeroOf (TStruct "" [filterField (Field "Content" TString (kv "json" "content") false);
                                           filterField (Field "BlogID" TUint (kv "json" "blog_id") false)])))
              = VPtr (TStruct "" ffs) (Some (zeroOf (TStruct "" ffs))) /\
    NoDup (fname <$> ffs) /\
    Forall (fun h => exists g, h = filterField g /\
              filter_source (match App.TBlogContent with TStruct _ fs => fs | _ => [] end) g) ffs.
Proof.
  apply (GenerateFilterParameters_spec App.TBlogContent); vm_compute; reflexivity.
Defined.



(** The filter shape of the example [Blog] model: [Content],
    [Owner] and [IsPublished] as optional query parameters, and no
    [LanguageID], although the language is what a content filter needs. *)
Example GenerateFilter_Blog :
  filterFields App.TBlog =
  Ok [filterField (Field "Content" TString (kv "json" "content") false);
      filterField (Field "Owner" TString (kv "json" "owner") false);
      filterField (Field "IsPublished" TBool (kv "json" "is_published") false)].
Proof. vm_compute. reflexivity. Qed.

Lemma isBaseField_Model f : isBaseField f = false -> str_contains "Model" (fname f) = false.
Proof. unfold isBaseField; simpl. by destruct (str_contains "Model" (fname f)). Qed.

Lemma LanguageID_Model : str_contains "Model" "LanguageID" = false.
Proof. reflexivity. Qed.

Definition no_Model (f : field) : Prop := str_contains "Model" (fname f) = false.

Lemma no_Model_LanguageID emb : Forall (fun f => fname f = "LanguageID") emb -> Forall no_Model emb.
Proof. intros H. eapply Forall_impl; [exact H|]. intros f Hf. unfold no_Model. by rewrite Hf. Qed.

Lemma paramStep_no_Model sl sc s f :
  Forall no_Model s.1 -> res_holds (fun s => Forall no_Model s.1) (fun _ => True) (paramStep sl sc (Ok s) f).
Proof.
  destruct s as [fields added]; simpl. intros Hf. unfold paramStep.
  destruct (fanon f || isBaseField f) eqn:Hb; simpl.
  - destruct (fanon f && isBaseField f); simpl; [|done].
    pose proof (extractBase_names (ftype f) added) as Hn.
    destruct (extractBaseEmbeddedFields (ftype f) added) as [[emb a']|e]; simpl; [|done].
    apply Forall_app. split; [done|]. by eapply no_Model_LanguageID, Hn.
  - apply orb_false_iff in Hb as [_ Hb]. pose proof (isBaseField_Model f Hb) as Hm.
    destruct (ftype f) as [| | | | |et|]; simpl;
      try (apply Forall_app; split; [done|by constructor]).
    destruct et; simpl; try done.
    destruct (generateInnerStruct _ added true) as [[inner a']|e]; simpl; [|done].
    apply Forall_app; split; [done|by constructor].
Qed.

Lemma filter_source_no_Model fs g : filter_source fs g -> no_Model (filterField g).
Proof.
  unfold no_Model; simpl.
  intros [[_ Hb]|(f & n & inner & _ & _ & _ & _ & [Hb|HL])].
  - apply orb_false_iff in Hb as [_ Hb]. by apply isBaseField_Model.
  - apply orb_false_iff in Hb as [_ Hb]. by apply isBaseField_Model.
  - by rewrite HL.
Qed.

(** C26: [isBaseField] tests [strings.Contains(field.Name, "Model")], so
    every field whose name merely contains [Model] (a [ModelYear], a
    [ModelName]) is treated as a base field and left out: no top-level field
    of the create, update or filter shape has [Model] in its name. *)
Theorem shapes_drop_Model_names T :
  (forall sl sc fs, paramFields sl sc T = Ok fs -> Forall no_Model fs) /\
  (forall fs, filterFields T = Ok fs -> Forall no_Model fs).
Proof.
  split.
  - intros sl sc fs. unfold paramFields. destruct (structFields (modelStruct T)) as [mfs|]; [|done]. simpl.
    pose proof (foldl_result_inv (paramStep sl sc) (fun _ _ => eq_refl) (fun s => Forall no_Model s.1)
      (fun _ => True) mfs (Ok ([], ∅)) ltac:(intros; by apply paramStep_no_Model) (Forall_nil_2 _)) as H.
    destruct (foldl (paramStep sl sc) _ mfs) as [[fields ?]|]; [|done]. by intros [= <-].
  - intros ffs Hff. destruct (structFields (modelStruct T)) as [mfs|] eqn:Hs;
      [|unfold filterFields in Hff; by rewrite Hs in Hff].
    destruct (filterFields_inv T mfs ffs Hs Hff) as [_ Hfa].
    eapply Forall_impl; [exact Hfa|]. intros h (g & -> & Hg). by eapply filter_source_no_Model.
Qed.

Lemma shapes_drop_Model_names_witness :
  paramFields TSlice id TCar = Ok [Field "Name" TString (kv "json" "name") false] /\
  Forall no_Model [Field "Name" TString (kv "json" "name") false].
Proof.
  split; [vm_compute; reflexivity|].
  apply (proj1 (shapes_drop_Model_names TCar) TSlice id). vm_compute. reflexivity.
Defined.

(** with one [addedFields] set shared by every slice field, the
    element struct of a second slice of the same content type loses every
    field of the first: the create shape of [Post] has
    [Drafts []struct{}]. *)
Example GenerateCreate_second_slice_empty :
  paramFields TSlice id TPost =
  Ok [Field "Contents" (TSlice (TStruct ""
         [Field "LanguageID" TString (kv "json" "language_id") false;
          Field "Content" TString (kv "json" "content") false])) (kv "json" "contents") false;
      Field "Drafts" (TSlice (TStruct "" [])) (kv "json" "drafts") false].
Proof. vm_compute. reflexivity. Qed.

(** The update shape of [BlogContent] keeps [LanguageID] a plain
    [string]: a client updating a content has to send it. *)
Example GenerateUpdate_BlogContent :
  paramFields updSlice TPtr App.TBlogContent =
  Ok [Field "LanguageID" TString (kv "json" "language_id") false;
      Field "Content" (TPtr TString) (kv "json" "content") false;
      Field "BlogID" (TPtr TUint) (kv "json" "blog_id") false].
Proof. vm_compute. reflexivity. Qed.

(** A value the generated tags can carry: [fmt.Sprintf] writes it with
    [%s], unescaped, so it must hold no double quote, backslash or newline. *)
Definition plain_char (c : Ascii.ascii) : bool :=
  let n := Ascii.nat_of_ascii c in negb (n =? 34) && negb (n =? 92) && negb (n =? 10).

Fixpoint plain (s : string) : bool :=
  match s with EmptyString => true | String c s' => plain_char c && plain s' end.

Fixpoint key_ok (s : string) : bool :=
  match s with EmptyString => true | String c s' => key_char c && key_ok s' end.

Lemma plain_cons c s : plain (String c s) = true ->
  Ascii.nat_of_ascii c =? 34 = false /\ Ascii.nat_of_ascii c =? 92 = false /\
  Ascii.nat_of_ascii c =? 10 = false /\ plain s = true.
Proof.
  simpl. unfold plain_char.
  destruct (Ascii.nat_of_ascii c =? 34), (Ascii.nat_of_ascii c =? 92), (Ascii.nat_of_ascii c =? 10),
    (plain s); simpl; auto.
Qed.

Lemma scanQuoted_plain v rest : plain v = true -> scanQuoted (v +:+ dq +:+ rest) = Some (v, rest).
Proof.
  induction v as [|c v IH]; intros Hv; [done|].
  apply plain_cons in Hv as (H34 & H92 & _ & Hv).
  rewrite string_app_cons. simpl. by rewrite H34, H92, IH.
Qed.

Lemma unquote_plain v : plain v = true -> unquote v = Some v.
Proof.
  induction v as [|c v IH]; intros Hv; [done|].
  apply plain_cons in Hv as (_ & H92 & H10 & Hv). simpl. by rewrite H10, H92, IH.
Qed.

Lemma scanKey_key k c rest :
  key_ok k = true -> key_char c = false -> scanKey (k +:+ String c rest) = (k, String c rest).
Proof.
  intros Hk Hc. induction k as [|d k IH]; [simpl; by rewrite Hc|].
  simpl in Hk. apply andb_prop in Hk as [Hd Hk]. rewrite string_app_cons. simpl. by rewrite Hd, IH.
Qed.

Lemma kv_unfold k v rest : kv k v +:+ rest = k +:+ String (Ascii.ascii_of_nat 58) (String (Ascii.ascii_of_nat 34) (v +:+ dq +:+ rest)).
Proof. unfold kv. by rewrite !string_app_assoc. Qed.

Lemma key_char_not_space c : key_char c = true -> (Ascii.nat_of_ascii c =? 32) = false.
Proof.
  unfold key_char. intros Hc. destruct (Ascii.nat_of_ascii c =? 32) eqn:E; [|done].
  apply Nat.eqb_eq in E. rewrite E in Hc. discriminate.
Qed.

(** One pair [key:"value"] of a tag, read by [lookupTag]: the value when
    the key is the one looked for, else the lookup goes on after it. *)
Lemma lookupTag_kv n c k v rest key :
  key_char c = true -> key_ok k = true -> plain v = true ->
  lookupTag (S n) (kv (String c k) v +:+ rest) key =
  if String.eqb key (String c k) then Some v else lookupTag n rest key.
Proof.
  intros Hc Hk Hv. rewrite kv_unfold, string_app_cons. simpl.
  rewrite key_char_not_space, Hc, scanKey_key by done. simpl.
  rewrite scanQuoted_plain by done. by destruct (String.eqb key (String c k)); [rewrite unquote_plain|].
Qed.

(** C27: the tags [json:"name"] and [json:"name" validate:"rule"] that the
    generators write are read back by [StructTag.Lookup]: the shape's field
    keeps the model's JSON name and validation rule, provided both are
    plain (the code writes them with [%s], so a quote would break the tag). *)
Theorem paramTag_roundtrip f :
  plain (jsonTag f) = true ->
  (forall w, Lookup (ftag f) "validate" = Some w -> plain w = true) ->
  Lookup (paramTag f) "json" = Some (jsonTag f) /\
  Lookup (paramTag f) "validate" = Lookup (ftag f) "validate".
Proof.
  intros Hj Hw. unfold paramTag.
  destruct (Lookup (ftag f) "validate") as [w|] eqn:Ev; unfold Lookup.
  - specialize (Hw w eq_refl). unfold kv2.
    rewrite !lookupTag_kv by done. simpl. split; [done|].
    rewrite string_app_nil_l, <- (string_app_nil_r dq), scanQuoted_plain by done.
    by apply unquote_plain.
  - rewrite <- (string_app_nil_r (kv "json" (jsonTag f))), !lookupTag_kv by done.
    simpl. by split.
Qed.

Lemma paramTag_roundtrip_witness :
  Lookup (paramTag (Field "Title" TString (kv2 "json" "title" "validate" "required,max=80") false)) "json"
    = Some "title" /\
  Lookup (paramTag (Field "Title" TString (kv2 "json" "title" "validate" "required,max=80") false)) "validate"
    = Some "required,max=80".
Proof.
  apply (paramTag_roundtrip (Field "Title" TString (kv2 "json" "title" "validate" "required,max=80") false)).
  - reflexivity.
  - intros w Hw. vm_compute in Hw. injection Hw as <-. reflexivity.
Defined.

(** ** [StructTag.Lookup] terminates within its fuel *)

Lemma skipSpaces_length s : String.length (skipSpaces s) <= String.length s.
Proof. induction s as [|c s IH]; simpl; [lia|]. case_match; simpl; lia. Qed.

Lemma scanKey_length s : String.length (scanKey s).1 + String.length (scanKey s).2 = String.length s.
Proof.
  induction s as [|c s IH]; simpl; [done|].
  destruct (key_char c); simpl; [|done]. destruct (scanKey s) as [k r]. simpl in *. lia.
Qed.

Lemma scanQuoted_length q raw rest : scanQuoted q = Some (raw, rest) -> String.length rest < String.length q.
Proof.
  remember (String.length q) as k eqn:Hk. revert q Hk raw.
  induction k as [k IH] using lt_wf_ind. intros [|c q] -> raw; simpl; [done|].
  case_match; [intros [= _ <-]; lia|]. case_match.
  - destruct q as [|d q']; [done|].
    destruct (scanQuoted q') as [[r rest']|] eqn:E; simpl; [|done]. intros [= _ <-].
    assert (String.length rest' < String.length q') by (eapply (IH (String.length q')); [simpl; lia|done|exact E]).
    simpl. lia.
  - destruct (scanQuoted q) as [[r rest']|] eqn:E; simpl; [|done]. intros [= _ <-].
    assert (String.length rest' < String.length q) by (eapply (IH (String.length q)); [simpl; lia|done|exact E]).
    lia.
Qed.

Lemma lookupTag_fuel n m tag key :
  String.length tag < n -> String.length tag < m -> lookupTag n tag key = lookupTag m tag key.
Proof.
  revert m tag. induction n as [|n IH]; intros [|m] tag Hn Hm; try lia. cbn [lookupTag].
  pose proof (skipSpaces_length tag) as Hs.
  destruct (skipSpaces tag) as [|c0 t0]; [done|].
  pose proof (scanKey_length (String c0 t0)) as Hk.
  destruct (scanKey (String c0 t0)) as [[|a name] [|colon [|quote q]]]; try done. simpl in Hk.
  case_match; [|done]. destruct (scanQuoted q) as [[raw rest]|] eqn:Hq; [|done].
  apply scanQuoted_length in Hq. case_match; [done|]. apply IH; simpl in *; lia.
Qed.

(** The fuel of [StructTag.Lookup] is enough: with any fuel above the
    tag's length, the scan returns [Lookup]'s answer, each pair read
    consuming at least the key, the colon and both quotes. *)
Lemma Lookup_fuel_enough tag key n :
  String.length tag < n -> lookupTag n tag key = Lookup tag key.
Proof. intros H. apply lookupTag_fuel; [done|lia]. Qed.

(** the tags the create and update shapes give a field terminate
    within their fuel: [jsonTag] and [paramTag] read the model's tag as
    the unbounded scan of [StructTag.Lookup] does, any fuel beyond the
    tag's length giving the same tags. *)
Theorem paramTag_fuel_enough f n :
  String.length (ftag f) < n ->
  jsonTag f = default (fname f) (lookupTag n (ftag f) "json") /\
  paramTag f = match lookupTag n (ftag f) "validate" with
               | Some v => kv2 "json" (jsonTag f) "validate" v
               | None => kv "json" (jsonTag f)
               end.
Proof.
  intros H. unfold paramTag, jsonTag. rewrite !Lookup_fuel_enough by done.
  split; [by destruct (Lookup (ftag f) "json")|done].
Qed.

Lemma paramTag_fuel_enough_witness :
  let f := Field "Title" TString (kv2 "json" "title" "validate" "required,max=80") false in
  jsonTag f = default (fname f) (lookupTag 100 (ftag f) "json") /\
  paramTag f = match lookupTag 100 (ftag f) "validate" with
               | Some v => kv2 "json" (jsonTag f) "validate" v
               | None => kv "json" (jsonTag f)
               end.
Proof. cbv zeta. apply paramTag_fuel_enough. vm_compute. lia. Defined.


End Shapes.
