(* ===== verification/Engine.v ===== *)
(** * Engine: filling and updating a model from parameters (src/unnamed/part_001)

    Module [Engine] translates [FillModelFromCreateParameters]
    (part_001:415-470) and [UpdateModelFromUpdateParameters]
    (part_001:528-580), the two methods of the engine that write a model
    from a parameter value of the shapes of [Shapes].  Both walk the fields
    of the parameter struct, find the model field of the same name with
    [FieldByName] and write it with the copier of [Copier].  A panic of
    package [reflect] is [Err (ErrPanic _)]; the [error] results are the
    constructors [ErrCannotSet], [ErrNamed] and [ErrIndexed] of [goerr].
    [UpdateModelFromUpdateParameters] writes through the model pointer it
    is given and returns it with the error, so its result pairs the model
    as it is afterwards with the optional error. *)

From S2P Require Import Prelude GoReflect Orm App Copier Shapes.
Import GoReflect Orm App Copier Shapes.

Module Engine.

(** [reflect.ValueOf(p)], dereferenced when it is a pointer: a nil
    pointer gives the zero [reflect.Value], on which [NumField] panics. *)
Definition derefParams (v : val) : gres val :=
  match v with
  | VPtr _ (Some x) => Ok x
  | VPtr _ None => Err (ErrPanic "reflect: call of reflect.Value.NumField on zero Value")
  | _ => Ok v
  end.

(** The fields of the parameter struct with their values ([NumField],
    [Type().Field(i)], [Field(i)]); [NumField] panics on a non-struct. *)
Definition structFieldValues (v : val) : gres (list (field * val)) :=
  match v with
  | VStruct _ fvs => Ok fvs
  | _ => Err (ErrPanic "reflect: call of reflect.Value.NumField on non-struct Value")
  end.

(** ** [FillModelFromCreateParameters] *)

(** The elements of a slice parameter copied into a new slice of the model
    field's element type (part_001:440-460): a nil pointer element is
    skipped and its slot keeps the zero value; a non-nil pointer is
    dereferenced once; a struct goes through [copyStruct], anything else
    through [copyField]; the first failure is ["%s[%d]: %w"]. *)
(** [paramValue.Kind() == reflect.Ptr && paramValue.IsNil()] *)
Definition isNilPtr (x : val) : bool := match x with VPtr _ None => true | _ => false end.

(** [if srcElem.Kind() == reflect.Ptr { srcElem = srcElem.Elem() }] *)
Definition derefOnce (x : val) : val := match x with VPtr _ (Some s) => s | _ => x end.

Definition copyElem (dstElem src : val) : val * option goerr :=
  match src, dstElem with
  | VStruct _ _, VStruct _ _ => copyStruct dstElem src
  | _, _ => copyField dstElem src
  end.

Definition fillElem (name : string) (et : ty) (j : nat) (srcElem : val) : gres val :=
  let dstElem := zeroOf et in
  match srcElem with
  | VPtr _ None => Ok dstElem
  | _ =>
      let '(d, e) := copyElem dstElem (derefOnce srcElem) in
      match e with
      | Some err => Err (ErrIndexed name j err)
      | None => Ok d
      end
  end.

Fixpoint fillElems (name : string) (et : ty) (j : nat) (xs : list val) : gres (list val) :=
  match xs with
  | [] => Ok []
  | x :: xs' =>
      let! y := fillElem name et j x in
      let! ys := fillElems name et (S j) xs' in
      Ok (y :: ys)
  end.

(** One iteration of the loop (part_001:426-466) on the model [m]: a
    parameter field without a model field of its name is skipped, one
    whose model field cannot be set is an error; a slice is rebuilt with
    [reflect.MakeSlice] of the model field's type (which panics when that
    type is not a slice type), any other value is copied with
    [copyField], its error wrapped as ["%s: %w"]. *)
Definition fillField (m : val) (cpField : field) (cpFieldVal : val) : gres val :=
  match FieldByName (typeOf m) (fname cpField) with
  | None => Ok m
  | Some (p, mf) =>
      if negb (isExported (fname mf)) then Err (ErrCannotSet (fname cpField)) else
      match getPath p m with
      | None => Err (ErrPanic "reflect: FieldByIndex of a non-struct value")
      | Some mv =>
          match cpFieldVal with
          | VSlice _ xs =>
              match ftype mf with
              | TSlice et =>
                  let! ys := fillElems (fname cpField) et 0 xs in
                  Ok (setPath p (VSlice et ys) m)
              | _ => Err (ErrPanic "reflect.MakeSlice of non-slice type")
              end
          | _ =>
              let '(mv', e) := copyField mv cpFieldVal in
              match e with
              | Some err => Err (ErrNamed (fname cpField) err)
              | None => Ok (setPath p mv' m)
              end
          end
      end
  end.

Definition fillStep (acc : gres val) (fv : field * val) : gres val :=
  let! m := acc in fillField m fv.1 fv.2.

(** [FillModelFromCreateParameters[T]]: a new zero [T] filled field by
    field; the result is the pointer [modelVal]. *)
Definition FillModelFromCreateParameters (T : ty) (createParams : val) : gres val :=
  let! cpVal := derefParams createParams in
  let! fvs := structFieldValues cpVal in
  let! m := foldl fillStep (Ok (zeroOf T)) fvs in
  Ok (VPtr T (Some m)).

(** ** [UpdateModelFromUpdateParameters] *)

(** One iteration of the loop (part_001:537-576) on the model [m]; the
    result is the model afterwards and the error that ends the loop.  A
    nil pointer parameter and a parameter without a settable model field of
    its name are skipped.  A model field of kind slice is only written when
    the parameter is named [Contents], by [handleContentUpdate] (whose only
    failures are panics); the other slice fields are left as they are.
    Any other field is written by [copyField], through the parameter's
    pointer or directly; its error leaves the fields written before. *)
Definition updateField (m : val) (paramField : field) (paramValue : val) : gres (val * option goerr) :=
  if isNilPtr paramValue then Ok (m, None) else
  match settableField (typeOf m) (fname paramField) with
  | None => Ok (m, None)
  | Some (p, mf) =>
      match getPath p m with
      | None => Ok (m, None)
      | Some mv =>
          match ftype mf with
          | TSlice _ =>
              if String.eqb (fname paramField) "Contents" then
                let '(mv', e) := handleContentUpdate mv (derefOnce paramValue) in
                match e with
                | Some err => Err err
                | None => Ok (setPath p mv' m, None)
                end
              else Ok (m, None)
          | _ =>
              let '(mv', e) := copyField mv (derefOnce paramValue) in
              Ok (setPath p mv' m, ErrNamed (fname paramField) <$> e)
          end
      end
  end.

(** The loop stops at the first error, returning the model as it is. *)
Fixpoint updateFields (m : val) (l : list (field * val)) : gres (val * option goerr) :=
  match l with
  | [] => Ok (m, None)
  | (f, v) :: l' =>
      let! '(m', e) := updateField m f v in
      match e with
      | Some _ => Ok (m', e)
      | None => updateFields m' l'
      end
  end.

(** [UpdateModelFromUpdateParameters(model, updateParams)] with [model]
    pointing to the struct [m]: the struct the pointer holds afterwards and
    the error returned. *)
Definition UpdateModelFromUpdateParameters (m : val) (updateParams : val) : gres (val * option goerr) :=
  let! paramsVal := derefParams updateParams in
  let! fvs := structFieldValues paramsVal in
  updateFields m fvs.

(** ** The example [Blog] model *)

(** The create shape of [Blog]: [Contents] as a slice of
    [struct { LanguageID string; Content string }], [Owner], [IsPublished]. *)
Definition TBlogCreate : ty :=
  TStruct "" [Field "Contents" (TSlice TBlogContentParam) (kv "json" "contents") false;
              Field "Owner" TString (kv "json" "owner") false;
              Field "IsPublished" TBool (kv "json" "is_published") false].

(** A create request for a [Blog], as the JSON decoder fills the shape. *)
Definition blogCreateParams (items : list (string * string)) (owner : string) (pub : bool) : val :=
  VPtr TBlogCreate (Some (VStruct ""
    [(Field "Contents" (TSlice TBlogContentParam) (kv "json" "contents") false,
      VSlice TBlogContentParam ((fun '(l, c) => contentParam l c) <$> items));
     (Field "Owner" TString (kv "json" "owner") false, VString owner);
     (Field "IsPublished" TBool (kv "json" "is_published") false, VBool pub)])).

(** A model with an optional field, as the create shape keeps it. *)
Definition TArticle : ty :=
  TStruct "Article"
    [Field "Model" TModel "" true;
     Field "Subtitle" (TPtr TString) (kv "json" "subtitle") false;
     Field "Title" TString (kv "json" "title") false].

(** The update shape of [Blog] and an update request of that shape. *)
Definition TBlogUpdate : ty :=
  TStruct "" [Field "Contents" (TPtr (TSlice TBlogContentParam)) (kv "json" "contents") false;
              Field "Owner" (TPtr TString) (kv "json" "owner") false;
              Field "IsPublished" (TPtr TBool) (kv "json" "is_published") false].

Definition blogUpdateParams (items : option (list (string * string))) (owner : option string)
    (pub : option bool) : val :=
  VPtr TBlogUpdate (Some (VStruct ""
    [(Field "Contents" (TPtr (TSlice TBlogContentParam)) (kv "json" "contents") false,
      VPtr (TSlice TBlogContentParam)
        ((fun its => VSlice TBlogContentParam ((fun '(l, c) => contentParam l c) <$> its)) <$> items));
     (Field "Owner" (TPtr TString) (kv "json" "owner") false, VPtr TString (VString <$> owner));
     (Field "IsPublished" (TPtr TBool) (kv "json" "is_published") false, VPtr TBool (VBool <$> pub))])).

(** The update shape of [BlogContent]: [LanguageID] stays a [string]. *)
Definition TBlogContentUpdate : ty :=
  TStruct "" [Field "LanguageID" TString (kv "json" "language_id") false;
              Field "Content" (TPtr TString) (kv "json" "content") false;
              Field "BlogID" (TPtr TUint) (kv "json" "blog_id") false].

(** An update request for a [BlogContent] in which the client sends only a
    new text: the JSON decoder leaves [LanguageID] at "" and [BlogID] nil. *)
Definition contentTextUpdate (text : string) : val :=
  VPtr TBlogContentUpdate (Some (VStruct ""
    [(Field "LanguageID" TString (kv "json" "language_id") false, VString "");
     (Field "Content" (TPtr TString) (kv "json" "content") false, VPtr TString (Some (VString text)));
     (Field "BlogID" (TPtr TUint) (kv "json" "blog_id") false, VPtr TUint None)])).

(** ** Properties of [FillModelFromCreateParameters] *)

Lemma fillStep_err e fv : fillStep (Err e) fv = Err e.
Proof. done. Qed.

Lemma fillElems_contents items j :
  fillElems "Contents" TBlogContent j ((fun '(l, c) => contentParam l c) <$> items) =
  Ok ((fun '(l, c) => blogContent l c 0) <$> items).
Proof.
  revert j; induction items as [|[l c] items IH]; intros j; [done|]. cbn [fmap list_fmap fillElems].
  change (fillElem "Contents" TBlogContent j (contentParam l c)) with (Ok (blogContent l c 0) : gres val).
  simpl. by rewrite IH.
Qed.

(** C4: filling a [Blog] from a create request of its create shape gives
    the new blog with the request's owner, flag and contents, in order,
    each content with its language and text and a zero [BlogID], and the
    zero [ID] and timestamps for the database to set. *)
Theorem FillModel_Blog items owner pub :
  FillModelFromCreateParameters TBlog (blogCreateParams items owner pub) =
  Ok (VPtr TBlog (Some (setPath [3] (VBool pub)
        (blog 0 ((fun '(l, c) => blogContent l c 0) <$> items) owner)))).
Proof.
  unfold FillModelFromCreateParameters, blogCreateParams. cbn [derefParams structFieldValues foldl].
  unfold fillStep at 3. unfold fillField. simpl. rewrite fillElems_contents. reflexivity.
Qed.

(** C21: a nil pointer in a create request is not skipped: the model field
    of its name is written by [copyField], which fails on the nil source,
    so the whole request fails with ["%s: type mismatch"].  Every model with
    an optional pointer field therefore rejects a create request that
    omits it. *)
Theorem FillModel_nil_pointer_fails T name s tag e rest p mf :
  FieldByName T name = Some (p, mf) -> isExported (fname mf) = true ->
  FillModelFromCreateParameters T (VStruct "" ((Field name (TPtr s) tag e, VPtr s None) :: rest)) =
  Err (ErrNamed name (ErrTypeMismatch (TPtr s) (ptr_base (ftype mf)))).
Proof.
  intros Hf He. unfold FillModelFromCreateParameters. cbn [derefParams structFieldValues foldl].
  destruct (FieldByName_wt (zeroOf T) name p mf (val_wt_zeroOf T)) as [_ (v & Hv & Hvt & Hwv)];
    [by rewrite typeOf_zeroOf|].
  assert (fillStep (Ok (zeroOf T)) (Field name (TPtr s) tag e, VPtr s None) =
          Err (ErrNamed name (ErrTypeMismatch (TPtr s) (ptr_base (ftype mf))))) as ->.
  { unfold fillStep, fillField. simpl. rewrite typeOf_zeroOf, Hf, He, Hv. simpl.
    unfold copyField. simpl derefSrc.
    pose proof (storeThrough_nil_source (typeOf v) v s eq_refl Hwv) as Hs.
    destruct (storeThrough _ _ _) as [v' e']. simpl in Hs. subst e'. by rewrite Hvt. }
  by rewrite foldl_result_err.
Qed.

Lemma FillModel_nil_pointer_fails_witness :
  FillModelFromCreateParameters TArticle
    (VStruct "" [(Field "Subtitle" (TPtr TString) (kv "json" "subtitle") false, VPtr TString None);
                 (Field "Title" TString (kv "json" "title") false, VString "Hello")]) =
  Err (ErrNamed "Subtitle" (ErrTypeMismatch (TPtr TString) TString)).
Proof.
  apply (FillModel_nil_pointer_fails TArticle "Subtitle" TString _ false _ [1]
           (Field "Subtitle" (TPtr TString) (kv "json" "subtitle") false)); reflexivity.
Defined.

(** ** Filling and updating keep the model well typed *)

Lemma copyElem_wt d x :
  val_wt d -> val_wt x -> typeOf (copyElem d x).1 = typeOf d /\ val_wt (copyElem d x).1.
Proof.
  intros Hd Hx. unfold copyElem.
  destruct x, d; first [by apply copyStruct_wt | by apply copyField_wt].
Qed.

Lemma val_wt_derefOnce x : val_wt x -> val_wt (derefOnce x).
Proof. destruct x as [| | | | | |? [s|]]; simpl; try done. by intros [_ ?]. Qed.

Lemma fillElem_wt name et j x y :
  val_wt x -> fillElem name et j x = Ok y -> typeOf y = et /\ val_wt y.
Proof.
  intros Hx. pose proof (copyElem_wt (zeroOf et) (derefOnce x) (val_wt_zeroOf et) (val_wt_derefOnce x Hx))
    as [H1 H2].
  rewrite typeOf_zeroOf in H1. unfold fillElem.
  destruct (copyElem (zeroOf et) (derefOnce x)) as [d [e|]]; simpl in *;
    destruct x as [| | | | | |pt [s|]]; intros [= <-]; auto using typeOf_zeroOf, val_wt_zeroOf.
Qed.

Lemma fillElems_wt name et j xs ys :
  Forall val_wt xs -> fillElems name et j xs = Ok ys -> val_wt (VSlice et ys).
Proof.
  revert j ys. induction xs as [|x xs IH]; intros j ys Hxs; simpl; [by intros [= <-]|].
  apply Forall_cons in Hxs as [Hx Hxs].
  destruct (fillElem name et j x) as [y|] eqn:Ey; [|done]. simpl.
  destruct (fillElems name et (S j) xs) as [ys'|] eqn:Eys; [|done]. simpl. intros [= <-].
  destruct (fillElem_wt name et j x y Hx Ey). split; [done|]. split; [done|]. exact (IH (S j) ys' Hxs Eys).
Qed.

Lemma fillField_wt m f v m' :
  val_wt m -> val_wt v -> fillField m f v = Ok m' -> typeOf m' = typeOf m /\ val_wt m'.
Proof.
  intros Hm Hv. unfold fillField.
  destruct (FieldByName (typeOf m) (fname f)) as [[p mf]|] eqn:Hf; [|by intros [= <-]].
  destruct (FieldByName_wt m _ p mf Hm Hf) as [_ (mv & Hmv & Hmt & Hmw)]. rewrite Hmv.
  destruct (negb (isExported (fname mf))); [done|].
  destruct v as [| | | | |vt xs|] eqn:Ev;
    try (pose proof (copyField_wt mv v Hmw) as Hc; subst v;
         destruct (copyField mv _) as [mv' [e|]]; [done|]; intros [= <-];
         destruct (Hc Hv) as [H1 H2]; by apply (setPath_wt p m mv mv')).
  destruct (ftype mf) as [| | | | |et|] eqn:Ht; try done.
  destruct (fillElems (fname f) et 0 xs) as [ys|] eqn:Eys; [|done]. simpl. intros [= <-].
  apply (setPath_wt p m mv); [done| |done|].
  - by rewrite Hmt.
  - eapply fillElems_wt; [|exact Eys]. apply val_wt_slice_Forall in Hv.
    eapply Forall_impl; [exact Hv|]. by intros x [_ ?].
Qed.

Lemma foldl_fillStep_wt fvs m m' :
  Forall (fun fv => val_wt fv.2) fvs -> val_wt m ->
  foldl fillStep (Ok m) fvs = Ok m' -> typeOf m' = typeOf m /\ val_wt m'.
Proof.
  revert m. induction fvs as [|[f x] fvs IH]; intros m Hfvs Hm; simpl; [by intros [= <-]|].
  apply Forall_cons in Hfvs as [Hx Hfvs]. simpl in Hx. cbn [fillStep fst snd].
  destruct (fillField m f x) as [m1|e] eqn:E1; [|by rewrite foldl_result_err].
  destruct (fillField_wt m f x m1 Hm Hx E1) as [H1 H2].
  intros Hf. destruct (IH m1 Hfvs H2 Hf). split; [congruence|done].
Qed.

Lemma derefParams_wt cp cpv : val_wt cp -> derefParams cp = Ok cpv -> val_wt cpv.
Proof.
  intros Hcp. destruct cp as [| | | | | |? [x|]]; simpl; intros H; simplify_eq; try done. by destruct Hcp.
Qed.

(** [FillModelFromCreateParameters] returns a well-typed pointer to a
    [T]: every write it makes (assignments, conversions with 64-bit
    wrap-around, slices rebuilt with the model field's element type) keeps
    the model's type, whatever well-typed parameters it is given. *)
Theorem FillModel_well_typed T cp v :
  val_wt cp -> FillModelFromCreateParameters T cp = Ok v -> typeOf v = TPtr T /\ val_wt v.
Proof.
  intros Hcp. unfold FillModelFromCreateParameters.
  destruct (derefParams cp) as [cpv|] eqn:Ed; [|done]. simpl.
  pose proof (derefParams_wt cp cpv Hcp Ed) as Hcpv.
  destruct cpv as [| | | |n fvs| |]; simpl; try done.
  apply val_wt_struct_Forall in Hcpv.
  destruct (foldl fillStep (Ok (zeroOf T)) fvs) as [m|] eqn:Ef; [|done]. simpl. intros [= <-].
  destruct (foldl_fillStep_wt fvs (zeroOf T) m) as [H1 H2]; [|apply val_wt_zeroOf|done|].
  - eapply Forall_impl; [exact Hcpv|]. by intros fv [_ ?].
  - rewrite typeOf_zeroOf in H1. simpl. by rewrite H1.
Qed.

Lemma updateField_wt m f v m' e :
  val_wt m -> val_wt v -> updateField m f v = Ok (m', e) -> typeOf m' = typeOf m /\ val_wt m'.
Proof.
  intros Hm Hv. unfold updateField. destruct (isNilPtr v); [by intros [= <- _]|].
  destruct (settableField (typeOf m) (fname f)) as [[p mf]|] eqn:Hs; [|by intros [= <- _]].
  apply settableField_FieldByName in Hs.
  destruct (FieldByName_wt m _ p mf Hm Hs) as [_ (mv & Hmv & Hmt & Hmw)]. rewrite Hmv.
  pose proof (val_wt_derefOnce v Hv) as Hd.
  destruct (ftype mf) as [| | | | |et|] eqn:Ht;
    try (pose proof (copyField_wt mv (derefOnce v) Hmw Hd) as [H1 H2];
         destruct (copyField mv (derefOnce v)) as [mv' e']; intros [= <- _];
         by apply (setPath_wt p m mv mv')).
  destruct (String.eqb (fname f) "Contents"); [|by intros [= <- _]].
  pose proof (handleContentUpdate_wt mv (derefOnce v) Hmw Hd) as [H1 H2].
  destruct (handleContentUpdate mv (derefOnce v)) as [mv' [e'|]]; [done|]. intros [= <- _].
  by apply (setPath_wt p m mv mv').
Qed.

Lemma updateFields_wt l m m' e :
  Forall (fun fv => val_wt fv.2) l -> val_wt m -> updateFields m l = Ok (m', e) ->
  typeOf m' = typeOf m /\ val_wt m'.
Proof.
  revert m. induction l as [|[f x] l IH]; intros m Hl Hm; simpl; [by intros [= <- _]|].
  apply Forall_cons in Hl as [Hx Hl]. simpl in Hx.
  destruct (updateField m f x) as [[m1 e1]|] eqn:E1; [|done]. simpl.
  destruct (updateField_wt m f x m1 e1 Hm Hx E1) as [H1 H2].
  destruct e1; [by intros [= <- _]|]. intros Hu. destruct (IH m1 Hl H2 Hu). split; [congruence|done].
Qed.

(** [UpdateModelFromUpdateParameters] keeps the model well typed and of
    its type, also when it stops at an error: the model it returns (which the
    caller's pointer shares) never holds a value of a wrong type or an
    integer out of its 64-bit range. *)
Theorem UpdateModel_well_typed m up m' e :
  val_wt m -> val_wt up -> UpdateModelFromUpdateParameters m up = Ok (m', e) ->
  typeOf m' = typeOf m /\ val_wt m'.
Proof.
  intros Hm Hup. unfold UpdateModelFromUpdateParameters.
  destruct (derefParams up) as [pv|] eqn:Ed; [|done]. simpl.
  pose proof (derefParams_wt up pv Hup Ed) as Hpv.
  destruct pv as [| | | |n fvs| |]; simpl; try done.
  apply val_wt_struct_Forall in Hpv. apply updateFields_wt.
  eapply Forall_impl; [exact Hpv|]. by intros fv [_ ?]. done.
Qed.

Lemma FillModel_well_typed_witness :
  typeOf (VPtr TBlog (Some (setPath [3] (VBool true) (blog 0 [blogContent "en" "Hi" 0] "me")))) = TPtr TBlog /\
  val_wt (VPtr TBlog (Some (setPath [3] (VBool true) (blog 0 [blogContent "en" "Hi" 0] "me")))).
Proof.
  apply (FillModel_well_typed TBlog (blogCreateParams [("en", "Hi")] "me" true)).
  - apply val_wtb_spec. vm_compute. reflexivity.
  - vm_compute. reflexivity.
Defined.

Lemma UpdateModel_well_typed_witness :
  typeOf (blogContent "" "Bye" 7) = typeOf (blogContent "en" "Hi" 7) /\ val_wt (blogContent "" "Bye" 7).
Proof.
  apply (UpdateModel_well_typed (blogContent "en" "Hi" 7) (contentTextUpdate "Bye") _ None).
  - apply val_wtb_spec. vm_compute. reflexivity.
  - apply val_wtb_spec. vm_compute. reflexivity.
  - vm_compute. reflexivity.
Defined.

(** the generated shapes of the example [Blog] model are [TBlogCreate]
    and [TBlogUpdate], and the update shape of [BlogContent] is
    [TBlogContentUpdate]: the requests of the other claims are values of
    the shapes the handlers decode into. *)
Example Generate_Blog_shapes :
  GenerateCreateParameters TBlog = Ok (VPtr TBlogCreate (Some (zeroOf TBlogCreate))) /\
  GenerateUpdateParameters TBlog = Ok (VPtr TBlogUpdate (Some (zeroOf TBlogUpdate))) /\
  GenerateUpdateParameters TBlogContent = Ok (VPtr TBlogContentUpdate (Some (zeroOf TBlogContentUpdate))).
Proof. split_and!; vm_compute; reflexivity. Qed.

(** C3: updating a [Blog] writes exactly the fields the request sets: the
    contents are merged by [handleContentUpdate], the owner and the flag are
    replaced, and a field left nil keeps its value; the [ID] and timestamps
    are untouched. *)
Theorem UpdateModel_Blog id cs owner pub items owner' pub' :
  UpdateModelFromUpdateParameters (setPath [3] (VBool pub) (blog id cs owner))
    (blogUpdateParams items owner' pub') =
  Ok (setPath [3] (VBool (default pub pub')) (setPath [2] (VString (default owner owner'))
        (setPath [1] (match items with
                      | None => VSlice TBlogContent cs
                      | Some its => (handleContentUpdate (VSlice TBlogContent cs)
                                      (VSlice TBlogContentParam ((fun '(l, c) => contentParam l c) <$> its))).1
                      end) (blog id cs owner))), None).
Proof. destruct items, owner', pub'; reflexivity. Qed.

(** C22: a content update that sends only a new text erases the content's
    language: the update shape keeps [LanguageID] a non-pointer [string], so
    the omitted field decodes to "" and is copied over the model's
    language id; only the nil [BlogID] is skipped. *)
Theorem UpdateModel_BlogContent_resets_LanguageID lang text blog text' :
  UpdateModelFromUpdateParameters (blogContent lang text blog) (contentTextUpdate text') =
  Ok (blogContent "" text' blog, None).
Proof. reflexivity. Qed.

End Engine.
