(* ===== verification/Update1.v ===== *)
(** * Update1: the first version of the update engine (src/unnamed/part_001)

    Module [Update1] translates [UpdateModelFromUpdateParameters1]
    (part_001:592-646), a method of the engine that no interface declares
    and no handler calls.  It declares [var model *T] and never allocates
    it, so [modelVal := reflect.ValueOf(model).Elem()] is the zero
    [reflect.Value] (here [None]), the loop writes through it, and the
    function returns the pointer [model].  The loop is written for any
    [modelVal], so that the body the code contains is modelled whole; the
    theorems show what it does on the [modelVal] the function passes. *)

From S2P Require Import Prelude GoReflect Orm App Copier Shapes Engine.
Import GoReflect Orm App Copier Shapes Engine.

Module Update1.

(** [reflect.ValueOf(x).Elem()]: the target of a pointer, the zero
    [reflect.Value] ([None]) for a nil pointer; [Elem] panics on a value
    that is neither a pointer nor an interface. *)
Definition valueElem (v : val) : gres (option val) :=
  match v with
  | VPtr _ p => Ok p
  | _ => Err (ErrPanic "reflect: call of reflect.Value.Elem on non-pointer Value")
  end.

(** [v.IsNil()]: defined on pointers and slices (a slice value of the
    model is never nil), a panic on the other kinds. *)
Definition valueIsNil (v : val) : gres bool :=
  match v with
  | VPtr _ p => Ok (bool_decide (p = None))
  | VSlice _ _ => Ok false
  | _ => Err (ErrPanic "reflect: call of reflect.Value.IsNil on non-nilable Value")
  end.

(** One iteration of the loop (part_001:603-642) on [modelVal]: a nil
    parameter is skipped; [FieldByName] on the zero [reflect.Value] panics;
    a model field that is missing or cannot be set is skipped; otherwise
    the parameter's target is assigned or converted, else the error
    ["cannot assign update parameter for field %s: type mismatch (%s vs %s)"]
    ends the function with a nil model. *)
Definition update1Field (modelVal : option val) (fieldDef : field) (updateField : val) : gres (option val) :=
  let! isNil := valueIsNil updateField in
  if isNil then Ok modelVal else
  match modelVal with
  | None => Err (ErrPanic "reflect: call of reflect.Value.FieldByName on zero Value")
  | Some m =>
      match settableField (typeOf m) (fname fieldDef) with
      | None => Ok modelVal
      | Some (p, _) =>
          match getPath p m with
          | None => Ok modelVal
          | Some modelField =>
              let! newValOpt := valueElem updateField in
              match newValOpt with
              | None => Err (ErrPanic "reflect: call of reflect.Value.Type on zero Value")
              | Some newVal =>
                  match assignOrConvert modelField newVal with
                  | (mf', None) => Ok (Some (setPath p mf' m))
                  | (_, Some _) => Err (ErrAssignUpdate (fname fieldDef) (typeOf newVal) (typeOf modelField))
                  end
              end
          end
      end
  end.

Definition update1Step (acc : gres (option val)) (fv : field * val) : gres (option val) :=
  let! mv := acc in update1Field mv fv.1 fv.2.

(** [UpdateModelFromUpdateParameters1(updateParams)]: [modelVal] is the
    target of [model], so the pointer returned holds the struct the loop
    leaves in [modelVal]; with [model] nil, that is [None]. *)
Definition UpdateModelFromUpdateParameters1 (updateParams : val) : gres (option val) :=
  let model : option val := None in
  let! pv := valueElem updateParams in
  match pv with
  | None => Err (ErrPanic "reflect: call of reflect.Value.Type on zero Value")
  | Some paramsVal =>
      let! fvs := structFieldValues paramsVal in
      foldl update1Step (Ok model) fvs
  end.

(** ** What the function returns *)

Lemma update1Step_err e fv : update1Step (Err e) fv = Err e.
Proof. done. Qed.

(** From the zero [reflect.Value], a step skips a nil parameter and
    panics on any other. *)
Lemma update1Field_zero f x :
  res_holds (fun mv => mv = None) (fun e => exists m, e = ErrPanic m) (update1Field None f x).
Proof. unfold update1Field. destruct x as [| | | | | |t [y|]]; simpl; eauto. Qed.

Lemma update1_loop_zero fvs :
  res_holds (fun mv => mv = None) (fun e => exists m, e = ErrPanic m) (foldl update1Step (Ok None) fvs).
Proof.
  apply foldl_result_inv; [exact update1Step_err| |done].
  intros s x ->. apply update1Field_zero.
Qed.

(** C30: [UpdateModelFromUpdateParameters1] never updates a model: it
    panics, or it returns a nil model with no error. *)
Theorem UpdateModel1_never_updates up :
  (exists m, UpdateModelFromUpdateParameters1 up = Err (ErrPanic m)) \/
  UpdateModelFromUpdateParameters1 up = Ok None.
Proof.
  unfold UpdateModelFromUpdateParameters1. destruct up as [| | | | | |t [pv|]]; simpl; eauto.
  destruct pv as [| | | |n fvs| |]; simpl; eauto.
  pose proof (update1_loop_zero fvs) as H. destruct (foldl update1Step _ fvs); simpl in H; [subst; auto|destruct H as [m ->]; eauto].
Qed.

Lemma update1_loop_zero_ok fvs :
  foldl update1Step (Ok None) fvs = Ok None <-> Forall (fun fv => valueIsNil fv.2 = Ok true) fvs.
Proof.
  induction fvs as [|[f x] fvs IH]; simpl; [split; [constructor|done]|].
  rewrite Forall_cons, <-IH. simpl. unfold update1Field.
  destruct (valueIsNil x) as [[]|e]; simpl; [tauto| |];
    rewrite foldl_result_err by exact update1Step_err; split; [done|intros [[=] _]|done|intros [[=] _]].
Qed.

(** [UpdateModelFromUpdateParameters1] returns (nil, nil) exactly when
    every update parameter is a nil pointer; a single parameter set makes
    it panic. *)
Theorem UpdateModel1_ok_iff_all_nil t n fvs :
  UpdateModelFromUpdateParameters1 (VPtr t (Some (VStruct n fvs))) = Ok None <->
  Forall (fun fv => valueIsNil fv.2 = Ok true) fvs.
Proof. apply update1_loop_zero_ok. Qed.

(** on the update shape of [Blog], the empty request gives a nil
    model and no error, while a request that sets [Owner] panics in
    [FieldByName] on the zero [reflect.Value]. *)
Example UpdateModel1_Blog :
  UpdateModelFromUpdateParameters1 (blogUpdateParams None None None) = Ok None /\
  UpdateModelFromUpdateParameters1 (blogUpdateParams None (Some "bob") None) =
  Err (ErrPanic "reflect: call of reflect.Value.FieldByName on zero Value").
Proof. split; vm_compute; reflexivity. Qed.

End Update1.
