(* ===== verification/Repository.v ===== *)
(** * Repository: the GORM repository (src/repository)

    Module [Repository] translates [hasContents] (repository.go:32-54) and
    the five methods of [GenericRepository] (model_repository.go).  GORM is
    a library the code only calls, so the database is an interface: the
    class [Gorm] gives the effect of [First], [Find], [Create], [Save] and
    [Delete] on a database state [DB], and a fault plan [faults] says which
    driver call of one repository call fails and with which message (each
    driver call happens at most once per repository call, so one optional
    failure per call covers every failure pattern).  A connection is the
    committed state and the number of transactions left open.  The
    theorems on the control flow hold for every instance of [Gorm]; the
    instance [TableStore] (rows keyed by [ID]) runs the scenarios. *)

From S2P Require Import Prelude GoReflect Orm App.
Import GoReflect Orm App.

Module Repository.

(** ** [hasContents] *)

(** The model type, dereferenced once when it is a pointer or a slice
    ([GetAll] passes a [[]T]); a field named [Contents] of slice type whose
    element type implements [orm.IContentModel]; [NumField] panics on a
    non-struct. *)
Definition hasContents (t : ty) : gres bool :=
  let typ := match t with TPtr e | TSlice e => e | _ => t end in
  match typ with
  | TStruct _ fs =>
      Ok (existsb (fun f => String.eqb (fname f) "Contents" &&
                            match ftype f with TSlice et => implementsContent et | _ => false end) fs)
  | _ => Err (ErrPanic "reflect: NumField of non-struct type")
  end.

(** ** The database interface *)

(** The argument of [First(&model, id)]: [GetByID] of the service passes a
    [uint], [UpdatePatch] and [Delete] pass the path parameter as a string. *)
Inductive idArg := IdUint (z : Z) | IdString (s : string).

Class Gorm (DB : Type) := {
  (** [tx.First(&model, id)], with [Contents] preloaded or not *)
  gFirst : DB -> bool -> idArg -> option val;
  (** [tx.Find(&models)] *)
  gFind : DB -> bool -> list val;
  (** [tx.Create(model)]: the new state and the model with its [ID] set *)
  gCreate : DB -> val -> DB * val;
  (** [tx.Save(model)] *)
  gSave : DB -> val -> DB;
  (** [tx.Delete(&model)] *)
  gDelete : DB -> val -> DB
}.

Inductive dbop := OpBegin | OpFirst | OpFind | OpCreate | OpSave | OpDelete | OpCommit | OpRollback.

#[export] Instance dbop_eq_dec : EqDecision dbop.
Proof. solve_decision. Defined.

(** The failure, if any, of each driver call of one repository call. *)
Definition faults := dbop -> option string.

Definition noFaults : faults := fun _ => None.

Record conn (DB : Type) := Conn { cdb : DB; copen : nat }.
Arguments Conn {DB} _ _.
Arguments cdb {DB} _.
Arguments copen {DB} _.

Section Repo.
Context {DB : Type} `{!Gorm DB}.

(** [r.db.Begin()]: a failure leaves the connection as it is; a success
    holds one more transaction open. *)
Definition beginTx (fl : faults) (c : conn DB) : gres (conn DB) :=
  match fl OpBegin with
  | Some e => Err (ErrDB e)
  | None => Ok (Conn (cdb c) (Datatypes.S (copen c)))
  end.

(** [tx.Rollback()] after a failed write: the transaction is closed and
    nothing is committed; a failing rollback replaces the error. *)
Definition rollbackWith (fl : faults) (c : conn DB) (err : string) : conn DB * option goerr :=
  (Conn (cdb c) (copen c - 1), Some (ErrDB (match fl OpRollback with Some rb => rb | None => err end))).

(** [tx.Commit()] of the state [w] the transaction wrote. *)
Definition commitTx (fl : faults) (c : conn DB) (w : DB) : conn DB * option goerr :=
  match fl OpCommit with
  | Some e => (Conn (cdb c) (copen c - 1), Some (ErrDB e))
  | None => (Conn w (copen c - 1), None)
  end.

(** [GetByID] (model_repository.go:21-56): the transaction it begins is
    never committed nor rolled back. *)
Definition GetByID (T : ty) (fl : faults) (c : conn DB) (id : idArg) : conn DB * gres val :=
  match beginTx fl c with
  | Err e => (c, Err e)
  | Ok c1 =>
      match hasContents T with
      | Err e => (c1, Err e)
      | Ok preload =>
          match fl OpFirst with
          | Some e => (c1, Err (ErrDB e))
          | None =>
              match gFirst (cdb c1) preload id with
              | Some m => (c1, Ok m)
              | None => (c1, Err (ErrDB "record not found"))
              end
          end
      end
  end.

(** [GetAll] (model_repository.go:59-101) with its scopes as filters; its
    transaction stays open too. *)
Definition GetAll (T : ty) (fl : faults) (c : conn DB) (scopes : list (val -> bool)) : conn DB * gres (list val) :=
  match beginTx fl c with
  | Err e => (c, Err e)
  | Ok c1 =>
      match hasContents (TSlice T) with
      | Err e => (c1, Err e)
      | Ok preload =>
          match fl OpFind with
          | Some e => (c1, Err (ErrDB e))
          | None => (c1, Ok (filter (fun m => forallb (fun sc => sc m) scopes = true) (gFind (cdb c1) preload)))
          end
      end
  end.

(** [Create] (model_repository.go:105-134): the connection afterwards, the
    model as the caller's pointer holds it, and the error. *)
Definition Create (fl : faults) (c : conn DB) (m : val) : conn DB * val * option goerr :=
  match beginTx fl c with
  | Err e => (c, m, Some e)
  | Ok c1 =>
      match fl OpCreate with
      | Some e => let '(c2, err) := rollbackWith fl c1 e in (c2, m, err)
      | None =>
          let '(w, m') := gCreate (cdb c1) m in
          let '(c2, err) := commitTx fl c1 w in (c2, m', err)
      end
  end.

(** [v.FieldByName("Model").FieldByName("ID").Uint()]: a model without an
    embedded [Model] gives the zero [reflect.Value], on which
    [FieldByName] panics; [Uint] panics on a non-[uint] field. *)
Definition modelID (m : val) : gres Z :=
  match fieldValue m "Model" with
  | None => Err (ErrPanic "reflect: call of reflect.Value.FieldByName on zero Value")
  | Some mm =>
      match fieldValue mm "ID" with
      | Some (VUint z) => Ok z
      | Some _ => Err (ErrPanic "reflect: call of reflect.Value.Uint on a non-uint Value")
      | None => Err (ErrPanic "reflect: call of reflect.Value.Uint on zero Value")
      end
  end.

(** [Update] (model_repository.go:138-182) *)
Definition Update (fl : faults) (c : conn DB) (m : val) : gres (conn DB * option goerr) :=
  let! _ := modelID m in
  match beginTx fl c with
  | Err e => Ok (c, Some e)
  | Ok c1 =>
      match fl OpSave with
      | Some e => Ok (rollbackWith fl c1 e)
      | None => Ok (commitTx fl c1 (gSave (cdb c1) m))
      end
  end.

(** [tx.First(&model, id)] inside [Delete]: the row or the error. *)
Definition findForDelete (fl : faults) (c : conn DB) (id : idArg) : val + string :=
  match fl OpFirst with
  | Some e => inr e
  | None => match gFirst (cdb c) false id with Some m => inl m | None => inr "record not found" end
  end.

(** [Delete] (model_repository.go:185-235): find, then delete. *)
Definition Delete (fl : faults) (c : conn DB) (id : idArg) : conn DB * option goerr :=
  match beginTx fl c with
  | Err e => (c, Some e)
  | Ok c1 =>
      match findForDelete fl c1 id with
      | inr e => rollbackWith fl c1 e
      | inl m =>
          match fl OpDelete with
          | Some e => rollbackWith fl c1 e
          | None => commitTx fl c1 (gDelete (cdb c1) m)
          end
      end
  end.

(** ** Properties of the transactions *)

(** After a write: the transactions balanced, and the committed state is
    the written one exactly when there is no error. *)
Definition committed_iff_ok (c c' : conn DB) (err : option goerr) (w : DB) : Prop :=
  copen c' = copen c /\ cdb c' = match err with None => w | Some _ => cdb c end.

Lemma rollbackWith_spec fl c e w :
  let '(c', err) := rollbackWith fl (Conn (cdb c) (Datatypes.S (copen c))) e in
  committed_iff_ok c c' err w /\ err = Some (ErrDB (default e (fl OpRollback))).
Proof. unfold rollbackWith, committed_iff_ok. simpl. rewrite Nat.sub_0_r. by destruct (fl OpRollback). Qed.

Lemma commitTx_spec fl c w :
  let '(c', err) := commitTx fl (Conn (cdb c) (Datatypes.S (copen c))) w in committed_iff_ok c c' err w.
Proof. unfold commitTx, committed_iff_ok. simpl. rewrite Nat.sub_0_r. by destruct (fl OpCommit). Qed.

(** C6: [Create], [Update] and [Delete] close every transaction they
    begin, on every path, and commit exactly when they return no error:
    the committed state is then the one their write produced ([Delete]
    writes the deletion of the row [First] found), and otherwise it is
    unchanged, whatever driver calls fail. *)
Theorem writes_atomic fl c m id :
  (let '(c', _, err) := Create fl c m in committed_iff_ok c c' err (gCreate (cdb c) m).1) /\
  (forall c' err, Update fl c m = Ok (c', err) -> committed_iff_ok c c' err (gSave (cdb c) m)) /\
  (let '(c', err) := Delete fl c id in
   copen c' = copen c /\
   match err with
   | None => exists r, gFirst (cdb c) false id = Some r /\ cdb c' = gDelete (cdb c) r
   | Some _ => cdb c' = cdb c
   end).
Proof.
  split_and!.
  - unfold Create, beginTx. destruct (fl OpBegin); [done|].
    destruct (fl OpCreate).
    + pose proof (rollbackWith_spec fl c s (gCreate (cdb c) m).1) as H.
      destruct (rollbackWith _ _ _) as [c2 err]. apply H.
    + simpl. destruct (gCreate (cdb c) m) as [w m'] eqn:Ec.
      pose proof (commitTx_spec fl c w) as H. destruct (commitTx _ _ _) as [c2 err]. exact H.
  - intros c' err. unfold Update, beginTx. destruct (modelID m); [|done]. simpl.
    destruct (fl OpBegin); [by intros [= <- <-]|].
    destruct (fl OpSave).
    + pose proof (rollbackWith_spec fl c s (gSave (cdb c) m)) as H.
      destruct (rollbackWith _ _ _) as [c2 err2]. intros [= <- <-]. apply H.
    + pose proof (commitTx_spec fl c (gSave (cdb c) m)) as H.
      destruct (commitTx _ _ _) as [c2 err2]. intros [= <- <-]. exact H.
  - unfold Delete, beginTx. destruct (fl OpBegin); [done|].
    assert (Hrb : forall e, let '(c', err) := rollbackWith fl (Conn (cdb c) (Datatypes.S (copen c))) e in
              copen c' = copen c /\
              match err with
              | None => exists r, gFirst (cdb c) false id = Some r /\ cdb c' = gDelete (cdb c) r
              | Some _ => cdb c' = cdb c
              end).
    { intros e. pose proof (rollbackWith_spec fl c e (cdb c)) as H.
      destruct (rollbackWith _ _ _) as [c2 err]. destruct H as [[H1 H2] ->]. by split. }
    unfold findForDelete. simpl. destruct (fl OpFirst); [apply Hrb|].
    destruct (gFirst (cdb c) false id) as [r|] eqn:Hr; [|apply Hrb].
    destruct (fl OpDelete); [apply Hrb|].
    pose proof (commitTx_spec fl c (gDelete (cdb c) r)) as H.
    destruct (commitTx _ _ _) as [c2 [err|]]; destruct H as [H1 H2]; split; eauto.
Qed.

(** C19: [GetByID] and [GetAll] never commit nor roll back the transaction
    they begin: each call whose [Begin] succeeds leaves one more
    transaction open, on every path, errors included. *)
Theorem reads_leave_tx_open T fl c id scopes :
  fl OpBegin = None ->
  copen (GetByID T fl c id).1 = Datatypes.S (copen c) /\ cdb (GetByID T fl c id).1 = cdb c /\
  copen (GetAll T fl c scopes).1 = Datatypes.S (copen c) /\ cdb (GetAll T fl c scopes).1 = cdb c.
Proof.
  intros Hb. unfold GetByID, GetAll, beginTx. rewrite Hb. simpl.
  destruct (hasContents T), (hasContents (TSlice T)); simpl;
    repeat (case_match; simpl); auto.
Qed.

(** C24: when the write or the lookup of [Create], [Update] or [Delete]
    fails and the rollback fails too, the rollback's error is returned and
    the original cause is lost. *)
Theorem rollback_error_replaces fl c m id e1 e2 :
  fl OpBegin = None -> fl OpRollback = Some e2 ->
  (fl OpCreate = Some e1 -> (Create fl c m).2 = Some (ErrDB e2)) /\
  (fl OpSave = Some e1 -> forall c' err, Update fl c m = Ok (c', err) -> err = Some (ErrDB e2)) /\
  (fl OpFirst = Some e1 -> (Delete fl c id).2 = Some (ErrDB e2)).
Proof.
  intros Hb Hr. unfold Create, Update, Delete, beginTx, rollbackWith, findForDelete.
  rewrite Hb, Hr. split_and!; [intros He; by rewrite He| |intros He; by rewrite He].
  intros He c' err. destruct (modelID m); [|done]. simpl. rewrite He. by intros [= _ <-].
Qed.

(** [Update] reads the model's id through [Model.ID] before anything
    else, so on a model without an embedded [orm.Model] (such as a content
    model) it panics whatever the database does. *)
Theorem Update_needs_Model fl c m :
  fieldValue m "Model" = None -> exists msg, Update fl c m = Err (ErrPanic msg).
Proof. intros H. unfold Update, modelID. rewrite H. eauto. Qed.

End Repo.

(** ** A table store *)

(** One table of rows keyed by their [ID], with the next id to assign.
    [First] with a string argument reads it as a decimal id (GORM treats a
    non-numeric string as an SQL condition, which this store does not
    model: it finds nothing). *)
Record table := Table { rows : gmap Z val; nextId : Z }.

Definition rowID (m : val) : Z := match modelID m with Ok z => z | Err _ => 0 end.

Definition setRowID (z : Z) (m : val) : val :=
  match FieldByName (typeOf m) "ID" with Some (p, _) => setPath p (VUint z) m | None => m end.

Fixpoint parseDigits (s : string) (acc : Z) : option Z :=
  match s with
  | EmptyString => Some acc
  | String c s' =>
      let n := Ascii.nat_of_ascii c in
      if (48 <=? n) && (n <=? 57) then parseDigits s' (10 * acc + Z.of_nat (n - 48))%Z else None
  end.

Definition parseID (s : string) : option Z := match s with EmptyString => None | _ => parseDigits s 0 end.

#[export] Instance TableStore : Gorm table := {|
  gFirst t _ id := match id with IdUint z => rows t !! z | IdString s => parseID s ≫= fun z => rows t !! z end;
  gFind t _ := (map_to_list (rows t)).*2;
  gCreate t m := let m' := setRowID (nextId t) m in (Table (<[nextId t := m']> (rows t)) (nextId t + 1), m');
  gSave t m := Table (<[rowID m := m]> (rows t)) (nextId t);
  gDelete t m := Table (delete (rowID m) (rows t)) (nextId t)
|}.

Definition emptyConn : conn table := Conn (Table ∅ 1) 0.

Lemma reads_leave_tx_open_witness :
  copen (GetByID TBlog noFaults emptyConn (IdUint 1)).1 = 1 /\
  cdb (GetByID TBlog noFaults emptyConn (IdUint 1)).1 = cdb emptyConn /\
  copen (GetAll TBlog noFaults emptyConn []).1 = 1 /\ cdb (GetAll TBlog noFaults emptyConn []).1 = cdb emptyConn.
Proof. apply (reads_leave_tx_open TBlog noFaults emptyConn (IdUint 1) []). reflexivity. Defined.

Lemma rollback_error_replaces_witness :
  let fl : faults := fun o => match o with
                              | OpCreate | OpSave | OpFirst => Some "disk I/O error"
                              | OpRollback => Some "driver: bad connection"
                              | _ => None end in
  (fl OpCreate = Some "disk I/O error" ->
     (Create fl emptyConn (blog 0 [] "me")).2 = Some (ErrDB "driver: bad connection")) /\
  (fl OpSave = Some "disk I/O error" -> forall c' err,
     Update fl emptyConn (blog 0 [] "me") = Ok (c', err) -> err = Some (ErrDB "driver: bad connection")) /\
  (fl OpFirst = Some "disk I/O error" -> (Delete fl emptyConn (IdUint 1)).2 = Some (ErrDB "driver: bad connection")).
Proof. intros fl. apply rollback_error_replaces; reflexivity. Defined.

Lemma Update_needs_Model_witness : exists msg, Update noFaults emptyConn (blogContent "en" "Hi" 7) = Err (ErrPanic msg).
Proof. apply Update_needs_Model. vm_compute. reflexivity. Defined.

Lemma writes_atomic_witness :
  let '(c', _, err) := Create noFaults emptyConn (blog 0 [] "me") in
  committed_iff_ok emptyConn c' err (gCreate (cdb emptyConn) (blog 0 [] "me")).1.
Proof. apply (writes_atomic noFaults emptyConn (blog 0 [] "me") (IdUint 1)). Defined.

End Repository.
