(* ===== verification/Interfaces.v ===== *)
(** * Interfaces: the Go interfaces through which the components call each other

    The service holds its engine and its repository as the interfaces
    [Engine[T]] (part_001:10-16) and [Repository[T]] (repository.go:11-23),
    and is itself registered as a [Service[T]] (handler.go:26-37).  Each
    interface is a record of its methods in a module of its own ([EngineI],
    [RepositoryI], [ServiceI]), with the constructor of the code's only
    implementation ([CreateEngine], [NewGenericRepository], and
    [NewModelService] in [Routes], which needs the handlers of [Service]).  The classes [EngineSpec] and
    [RepositorySpec] state what the handlers rely on; the handlers'
    theorems are proved against them, and the instances for the
    implementations discharge them from the theorems of [Shapes] and
    [Repository].  The type parameter [T] is the model type [ty]; the
    repository's [*gorm.DB] is the connection passed to each call, its
    logger is not modelled. *)

From S2P Require Import Prelude GoReflect Orm App Copier Shapes Engine Repository.
Import GoReflect Shapes Engine Repository.

Module EngineI.

(** [type Engine[T any] interface { ... }] *)
Record t := Mk {
  GenerateCreateParameters : gres val;
  GenerateUpdateParameters : gres val;
  GenerateFilterParameters : gres val;
  FillModelFromCreateParameters : val -> gres val;
  UpdateModelFromUpdateParameters : val -> val -> gres (val * option goerr)
}.

(** [CreateEngine[M]()] returns the [engine[M]] of [Shapes] and [Engine]. *)
Definition CreateEngine (T : ty) : t := {|
  GenerateCreateParameters := Shapes.GenerateCreateParameters T;
  GenerateUpdateParameters := Shapes.GenerateUpdateParameters T;
  GenerateFilterParameters := Shapes.GenerateFilterParameters T;
  FillModelFromCreateParameters := Engine.FillModelFromCreateParameters T;
  UpdateModelFromUpdateParameters := Engine.UpdateModelFromUpdateParameters
|}.

(** What the handlers rely on: generating a parameter shape fails only by
    a panic. *)
Class EngineSpec (e : t) : Prop := {
  create_shape_panic_or_ok : panic_or_ok (GenerateCreateParameters e);
  update_shape_panic_or_ok : panic_or_ok (GenerateUpdateParameters e)
}.

#[export] Instance CreateEngine_spec T : EngineSpec (CreateEngine T).
Proof. split; apply shape_panic; auto using paramFields_panic, newShape_panic. Qed.

End EngineI.

Module RepositoryI.

(** [type Repository[T any] interface { ... }], each method taking the
    fault plan of its driver calls and the connection. *)
Record t (DB : Type) := Mk {
  GetByID : faults -> conn DB -> idArg -> conn DB * gres val;
  GetAll : faults -> conn DB -> list (val -> bool) -> conn DB * gres (list val);
  Create : faults -> conn DB -> val -> conn DB * val * option goerr;
  Update : faults -> conn DB -> val -> gres (conn DB * option goerr);
  Delete : faults -> conn DB -> idArg -> conn DB * option goerr
}.
Arguments Mk {DB} _ _ _ _ _.
Arguments GetByID {DB} _ _ _ _.
Arguments GetAll {DB} _ _ _ _.
Arguments Create {DB} _ _ _ _.
Arguments Update {DB} _ _ _ _.
Arguments Delete {DB} _ _ _ _.

(** [NewGenericRepository[T](db, logger)] *)
Definition NewGenericRepository {DB : Type} `{!Gorm DB} (T : ty) : t DB := {|
  GetByID := Repository.GetByID T;
  GetAll := Repository.GetAll T;
  Create := Repository.Create;
  Update := Repository.Update;
  Delete := Repository.Delete
|}.

(** What the handlers rely on: a write leaves as many transactions open
    as before it; a read leaves at most one more and the committed state
    as it was. *)
Class RepositorySpec {DB : Type} (r : t DB) : Prop := {
  create_balanced : forall fl c m, copen (Create r fl c m).1.1 = copen c;
  update_balanced : forall fl c m c' err, Update r fl c m = Ok (c', err) -> copen c' = copen c;
  delete_balanced : forall fl c id, copen (Delete r fl c id).1 = copen c;
  getByID_open : forall fl c id, copen (GetByID r fl c id).1 <= Datatypes.S (copen c);
  getAll_open : forall fl c scopes, copen (GetAll r fl c scopes).1 <= Datatypes.S (copen c);
  getByID_db : forall fl c id, cdb (GetByID r fl c id).1 = cdb c;
  getAll_db : forall fl c scopes, cdb (GetAll r fl c scopes).1 = cdb c
}.

(** Unfold a repository call down to its driver calls and count the
    transactions on every path. *)
Ltac tx_count :=
  unfold Repository.GetByID, Repository.GetAll, Repository.Create, Repository.Update, Repository.Delete,
         findForDelete, rollbackWith, commitTx, beginTx in *;
  repeat (case_match; simplify_eq/=); first [lia|done].

#[export] Instance NewGenericRepository_spec {DB : Type} `{!Gorm DB} T : RepositorySpec (NewGenericRepository T).
Proof. split; simpl; intros; tx_count. Qed.

End RepositoryI.
