(* ===== verification/Service.v ===== *)
(** * Service: the REST handlers (src/service/handler.go)

    Module [Service] translates the five handlers of [modelService]
    ([GetByID], [GetAll], [Create], [UpdatePatch], [Delete]) on top of the
    engine ([Shapes], [Engine]) and the repository ([Repository]).  A
    handler takes the model type, the fault plan of each repository call
    it makes, the database connection and the request (its [{id}] path
    parameter and its body), and returns the connection afterwards with
    the response: a status and a JSON body.  The request body is abstract;
    [readBody] is the framework's decoder ([ctx.ReadBody]) filling a shape
    value.  A panic reaches the recover middleware of [iris.Default()]
    (part_000), which answers 500. *)

From S2P Require Import Prelude GoReflect Orm App Copier Shapes Engine Repository Interfaces.
Import GoReflect Orm App Copier Shapes Engine Repository.
Import (hints) EngineI RepositoryI.

Module Service.

(** The JSON answer: [{"error": err.Error(), "error_code": code}], a model,
    a list of models, or no body. *)
Inductive body := BodyError (err : goerr) (code : string) | BodyValue (v : val) | BodyList (vs : list val) | BodyNone.

Record response := Resp { status : Z; rbody : body }.

Definition badRequest (err : goerr) (code : string) : response := Resp 400 (BodyError err code).

(** The recover middleware's answer to a panic. *)
Definition internalError : response := Resp 500 BodyNone.

(** [if err != nil { ctx.StopWithJSON(iris.StatusBadRequest, ...code) }],
    a panic going to the recover middleware instead. *)
Definition failWith (e : goerr) (code : string) : response :=
  match e with ErrPanic _ => internalError | _ => badRequest e code end.

(** [ctx.Params().GetUint("id")]: a decimal [uint] of at most 64 bits. *)
Definition paramUint (s : string) : gres Z :=
  match parseID s with
  | Some z => if (z <=? uint_max)%Z then Ok z else Err (ErrRequest "strconv.ParseUint: value out of range")
  | None => Err (ErrRequest "strconv.ParseUint: invalid syntax")
  end.

(** The model a [*T] points to. *)
Definition deref (p : val) : val := match p with VPtr _ (Some m) => m | _ => p end.

(** The handlers are methods of [modelService[T]], which holds the engine
    [eng] and the repository [repo] as interfaces. *)
Section Handlers.
Context {DB : Type} (eng : EngineI.t) (repo : RepositoryI.t DB).
Context {Body : Type} (readBody : Body -> val -> gres val).

(** [GetByID] (handler.go:51-77) *)
Definition hGetByID (fl : faults) (c : conn DB) (idParam : string) : conn DB * response :=
  match paramUint idParam with
  | Err e => (c, failWith e "CANT_READ_ID")
  | Ok id =>
      let '(c', r) := RepositoryI.GetByID repo fl c (IdUint id) in
      match r with
      | Err e => (c', failWith e "FETCH_READ_OBJECT_ERROR")
      | Ok obj => (c', Resp 200 (BodyValue obj))
      end
  end.

(** [GetAll] (handler.go:79-106): no scope is passed. *)
Definition hGetAll (fl : faults) (c : conn DB) : conn DB * response :=
  let '(c', r) := RepositoryI.GetAll repo fl c [] in
  match r with
  | Err e => (c', failWith e "FETCH_ERROR")
  | Ok objs => (c', Resp 200 (BodyList objs))
  end.

(** [Create] (handler.go:108-158) *)
Definition hCreate (fl : faults) (c : conn DB) (b : Body) : conn DB * response :=
  match EngineI.GenerateCreateParameters eng with
  | Err e => (c, failWith e "GENERATE_CREATE_PARAMS_ERROR")
  | Ok cp =>
      match readBody b cp with
      | Err e => (c, failWith e "PARSE_CREATE_PARAMS_ERROR")
      | Ok cp' =>
          match EngineI.FillModelFromCreateParameters eng cp' with
          | Err e => (c, failWith e "GENERATE_CREATE_MODEL_ERROR")
          | Ok mp =>
              let '(c', m', err) := RepositoryI.Create repo fl c (deref mp) in
              match err with
              | Some e => (c', failWith e "CREATE_ERROR")
              | None => (c', Resp 201 (BodyValue m'))
              end
          end
      end
  end.

(** [UpdatePatch] (handler.go:160-224): the model is read with the raw
    path parameter, then updated, then saved; [fl1] and [fl2] are the
    fault plans of the two repository calls. *)
Definition hUpdatePatch (fl1 fl2 : faults) (c : conn DB) (idParam : string) (b : Body)
    : conn DB * response :=
  let '(c1, r) := RepositoryI.GetByID repo fl1 c (IdString idParam) in
  match r with
  | Err e => (c1, failWith e "NOT_FOUND")
  | Ok obj =>
      match EngineI.GenerateUpdateParameters eng with
      | Err e => (c1, failWith e "GENERATE_UPDATE_PARAMS_ERROR")
      | Ok up =>
          match readBody b up with
          | Err e => (c1, failWith e "PARSE_UPDATE_PARAMS_ERROR")
          | Ok up' =>
              match EngineI.UpdateModelFromUpdateParameters eng obj up' with
              | Err e => (c1, failWith e "GENERATE_UPDATE_MODEL_ERROR")
              | Ok (m', Some e) => (c1, failWith e "GENERATE_UPDATE_MODEL_ERROR")
              | Ok (m', None) =>
                  match RepositoryI.Update repo fl2 c1 m' with
                  | Err e => (c1, failWith e "UPDATE_ERROR")
                  | Ok (c2, Some e) => (c2, failWith e "UPDATE_ERROR")
                  | Ok (c2, None) => (c2, Resp 200 (BodyValue m'))
                  end
              end
          end
      end
  end.

(** [Delete] (handler.go:226-242) *)
Definition hDelete (fl : faults) (c : conn DB) (idParam : string) : conn DB * response :=
  let '(c', err) := RepositoryI.Delete repo fl c (IdString idParam) in
  match err with
  | Some e => (c', failWith e "DELETE_ERROR")
  | None => (c', Resp 204 BodyNone)
  end.

End Handlers.

(** ** Properties of the handlers *)

Definition code_of (r : response) : option string :=
  match rbody r with BodyError _ code => Some code | _ => None end.

Lemma failWith_code e code code' : code_of (failWith e code) = Some code' -> code' = code.
Proof. destruct e; simpl; try by intros [= ->]. Qed.

Lemma failWith_panic m code : failWith (ErrPanic m) code = internalError.
Proof. done. Qed.

(** An error answer carries its own code and status 400, or is the 500
    of a panic. *)
Lemma failWith_answer e code code0 (l : list Z) :
  code <> code0 -> 400%Z ∈ l -> 500%Z ∈ l ->
  code_of (failWith e code) <> Some code0 /\ status (failWith e code) ∈ l.
Proof. intros Hc H4 H5. destruct e; simpl; split; try done; intros [= ?]; congruence. Qed.

Section Props.
Context {DB : Type} (eng : EngineI.t) (repo : RepositoryI.t DB).
Context {Body : Type} (readBody : Body -> val -> gres val).

Lemma hCreate_answers `{!EngineI.EngineSpec eng} fl c b :
  code_of (hCreate eng repo readBody fl c b).2 <> Some "GENERATE_CREATE_PARAMS_ERROR" /\
  status (hCreate eng repo readBody fl c b).2 ∈ [201; 400; 500]%Z.
Proof.
  unfold hCreate. pose proof (EngineI.create_shape_panic_or_ok (e:=eng)) as HG.
  destruct (EngineI.GenerateCreateParameters eng) as [cp|e]; [|destruct HG as [m ->]; simpl; split; [done|set_solver]].
  destruct (readBody b cp); [|simpl; apply failWith_answer; [done|set_solver|set_solver]].
  destruct (EngineI.FillModelFromCreateParameters eng _); [|simpl; apply failWith_answer; [done|set_solver|set_solver]].
  destruct (RepositoryI.Create repo fl c _) as [[c' m'] [e|]]; simpl; [apply failWith_answer; [done|set_solver|set_solver]|].
  split; [done|set_solver].
Qed.

Lemma hUpdatePatch_answers `{!EngineI.EngineSpec eng} fl fl2 c s b :
  code_of (hUpdatePatch eng repo readBody fl fl2 c s b).2 <> Some "GENERATE_UPDATE_PARAMS_ERROR" /\
  status (hUpdatePatch eng repo readBody fl fl2 c s b).2 ∈ [200; 400; 500]%Z.
Proof.
  unfold hUpdatePatch. destruct (RepositoryI.GetByID repo fl c (IdString s)) as [c1 [obj|e]];
    [|simpl; apply failWith_answer; [done|set_solver|set_solver]].
  pose proof (EngineI.update_shape_panic_or_ok (e:=eng)) as HG.
  destruct (EngineI.GenerateUpdateParameters eng) as [up|e]; [|destruct HG as [m ->]; simpl; split; [done|set_solver]].
  destruct (readBody b up); [|simpl; apply failWith_answer; [done|set_solver|set_solver]].
  destruct (EngineI.UpdateModelFromUpdateParameters eng obj _) as [[m' [e|]]|e];
    [simpl; apply failWith_answer; [done|set_solver|set_solver]| |simpl; apply failWith_answer; [done|set_solver|set_solver]].
  destruct (RepositoryI.Update repo fl2 c1 m') as [[c2 [e|]]|e]; simpl;
    [apply failWith_answer; [done|set_solver|set_solver]|split; [done|set_solver]|apply failWith_answer; [done|set_solver|set_solver]].
Qed.

(** C20: the answers [GENERATE_CREATE_PARAMS_ERROR] and
    [GENERATE_UPDATE_PARAMS_ERROR] are dead for every engine whose shape
    generators only fail by panicking (as [CreateEngine]'s do): the recover
    middleware turns the panic into a 500.  Every answer of [Create] is
    201, 400 or 500 and every answer of [UpdatePatch] 200, 400 or 500. *)
Theorem generate_param_errors_unreachable `{!EngineI.EngineSpec eng} fl fl2 c s b :
  code_of (hCreate eng repo readBody fl c b).2 <> Some "GENERATE_CREATE_PARAMS_ERROR" /\
  code_of (hUpdatePatch eng repo readBody fl fl2 c s b).2 <> Some "GENERATE_UPDATE_PARAMS_ERROR" /\
  status (hCreate eng repo readBody fl c b).2 ∈ [201; 400; 500]%Z /\
  status (hUpdatePatch eng repo readBody fl fl2 c s b).2 ∈ [200; 400; 500]%Z.
Proof.
  destruct (hCreate_answers fl c b), (hUpdatePatch_answers fl fl2 c s b). auto.
Qed.

(** The transaction balance of each handler, shared by the theorems on
    one request and on a server's run. *)
Lemma handlers_tx_balance `{!RepositoryI.RepositorySpec repo} fl fl2 c s b :
  copen (hCreate eng repo readBody fl c b).1 = copen c /\
  copen (hDelete repo fl c s).1 = copen c /\
  copen (hGetByID repo fl c s).1 <= Datatypes.S (copen c) /\
  copen (hGetAll repo fl c).1 <= Datatypes.S (copen c) /\
  copen (hUpdatePatch eng repo readBody fl fl2 c s b).1 <= Datatypes.S (copen c).
Proof.
  split_and!.
  - unfold hCreate. destruct (EngineI.GenerateCreateParameters eng) as [cp|]; [|done].
    destruct (readBody b cp) as [cp'|]; [|done].
    destruct (EngineI.FillModelFromCreateParameters eng cp') as [mp|]; [|done].
    pose proof (RepositoryI.create_balanced fl c (deref mp)) as Hb.
    destruct (RepositoryI.Create repo fl c (deref mp)) as [[c' m'] [e|]]; done.
  - unfold hDelete. pose proof (RepositoryI.delete_balanced fl c (IdString s)) as Hb.
    destruct (RepositoryI.Delete repo fl c _) as [c' [e|]]; done.
  - unfold hGetByID. destruct (paramUint s) as [id|]; [|simpl; lia].
    pose proof (RepositoryI.getByID_open fl c (IdUint id)) as Hb.
    destruct (RepositoryI.GetByID repo fl c _) as [c' [o|e]]; done.
  - unfold hGetAll. pose proof (RepositoryI.getAll_open fl c []) as Hb.
    destruct (RepositoryI.GetAll repo fl c _) as [c' [o|e]]; done.
  - unfold hUpdatePatch. pose proof (RepositoryI.getByID_open fl c (IdString s)) as Hb.
    destruct (RepositoryI.GetByID repo fl c _) as [c1 [o|e]]; simpl in *; [|done].
    destruct (EngineI.GenerateUpdateParameters eng) as [up|]; [|done].
    destruct (readBody b up) as [up'|]; [|done].
    destruct (EngineI.UpdateModelFromUpdateParameters eng o up') as [[m' [e|]]|]; [done| |done].
    destruct (RepositoryI.Update repo fl2 c1 m') as [[c2 e]|] eqn:Hu; [|done].
    apply RepositoryI.update_balanced in Hu. destruct e; simpl; lia.
Qed.

(** C8: for every repository whose writes close their transactions and
    whose reads open at most one (as [NewGenericRepository]'s do), a
    [POST] or a [DELETE] leaves as many transactions open as before, and
    a [GET] or a [PATCH] at most one more, whatever fails. *)
Theorem handlers_tx_bounded `{!RepositoryI.RepositorySpec repo} fl fl2 c s b :
  copen (hCreate eng repo readBody fl c b).1 = copen c /\
  copen (hDelete repo fl c s).1 = copen c /\
  copen (hGetByID repo fl c s).1 <= Datatypes.S (copen c) /\
  copen (hGetAll repo fl c).1 <= Datatypes.S (copen c) /\
  copen (hUpdatePatch eng repo readBody fl fl2 c s b).1 <= Datatypes.S (copen c).
Proof. apply handlers_tx_balance. Qed.

End Props.

(** The service [main] builds for [Blog] (part_000), on the table store. *)
Abbreviation blogEngine := (EngineI.CreateEngine TBlog).
Abbreviation blogRepo := (RepositoryI.NewGenericRepository (DB:=table) TBlog).

(** [GET /{id}] of a well-formed id that is not in the database
    answers 400 with [FETCH_READ_OBJECT_ERROR], never a 5xx. *)
Theorem hGetByID_missing {DB : Type} `{!Gorm DB} T c s id b :
  paramUint s = Ok id -> hasContents T = Ok b -> gFirst (cdb c) b (IdUint id) = None ->
  (hGetByID (RepositoryI.NewGenericRepository T) noFaults c s).2 =
  badRequest (ErrDB "record not found") "FETCH_READ_OBJECT_ERROR".
Proof.
  intros Hs Hb Hf. unfold hGetByID. rewrite Hs. simpl. unfold GetByID, beginTx. simpl. rewrite Hb. simpl.
  by rewrite Hf.
Qed.

(** ** Scenarios on the table store *)

(** A decoder for the scenarios: the body is the value its JSON text
    decodes to, accepted when it has the shape's type. *)
Definition readValue (b : val) (shape : val) : gres val :=
  match shape with
  | VPtr t (Some _) => if bool_decide (typeOf b = t) then Ok (VPtr t (Some b)) else Err (ErrRequest "json: cannot unmarshal")
  | _ => Err (ErrRequest "json: Unmarshal(non-pointer)")
  end.

(** [POST] a blog, [DELETE /1] answers 204, and [GET /1] then answers
    400 with [FETCH_READ_OBJECT_ERROR]: the blog is no longer retrievable. *)
Example delete_scenario owner pub :
  let '(c1, r1) := hCreate blogEngine blogRepo readValue noFaults emptyConn (deref (blogCreateParams [("en", "Hello")] owner pub)) in
  let '(c2, r2) := hDelete blogRepo noFaults c1 "1" in
  let '(c3, r3) := hGetByID blogRepo noFaults c2 "1" in
  status r1 = 201%Z /\ r2 = Resp 204 BodyNone /\
  r3 = badRequest (ErrDB "record not found") "FETCH_READ_OBJECT_ERROR".
Proof. vm_compute. auto. Qed.

(** the scenario of the specification: [POST] a blog with an "en" and
    an "ar" content, [PATCH /1] with one "en" content of a new text: the
    stored blog has exactly two contents, "ar" unchanged and "en"
    replaced, in either order; the [GetByID] of the [PATCH] leaves one
    transaction open. *)
Example update_scenario :
  let '(c1, _) := hCreate blogEngine blogRepo readValue noFaults emptyConn
                    (deref (blogCreateParams [("en", "Hello"); ("ar", "Marhaba")] "me" false)) in
  let '(c2, r2) := hUpdatePatch blogEngine blogRepo readValue noFaults noFaults c1 "1"
                    (deref (blogUpdateParams (Some [("en", "Hi")]) None None)) in
  status r2 = 200%Z /\ copen c2 = 1 /\
  exists l, (rows (cdb c2) !! 1%Z ≫= getPath [1]) = Some (VSlice TBlogContent l) /\
    l ≡ₚ [blogContent "en" "Hi" 0; blogContent "ar" "Marhaba" 0].
Proof.
  vm_compute. split; [done|]. split; [done|]. eexists. split; [reflexivity|].
  first [reflexivity | apply Permutation_swap].
Qed.

Lemma generate_param_errors_unreachable_witness :
  code_of (hCreate blogEngine blogRepo readValue noFaults emptyConn (blog 0 [] "")).2 <> Some "GENERATE_CREATE_PARAMS_ERROR" /\
  code_of (hUpdatePatch blogEngine blogRepo readValue noFaults noFaults emptyConn "1" (blog 0 [] "")).2 <> Some "GENERATE_UPDATE_PARAMS_ERROR" /\
  status (hCreate blogEngine blogRepo readValue noFaults emptyConn (blog 0 [] "")).2 ∈ [201; 400; 500]%Z /\
  status (hUpdatePatch blogEngine blogRepo readValue noFaults noFaults emptyConn "1" (blog 0 [] "")).2 ∈ [200; 400; 500]%Z.
Proof. exact (generate_param_errors_unreachable blogEngine blogRepo readValue noFaults noFaults emptyConn "1" (blog 0 [] "")). Defined.

Lemma handlers_tx_bounded_witness :
  copen (hCreate blogEngine blogRepo readValue noFaults emptyConn (blog 0 [] "")).1 = copen emptyConn /\
  copen (hDelete blogRepo noFaults emptyConn "1").1 = copen emptyConn /\
  copen (hGetByID blogRepo noFaults emptyConn "1").1 <= Datatypes.S (copen emptyConn) /\
  copen (hGetAll blogRepo noFaults emptyConn).1 <= Datatypes.S (copen emptyConn) /\
  copen (hUpdatePatch blogEngine blogRepo readValue noFaults noFaults emptyConn "1" (blog 0 [] "")).1 <=
    Datatypes.S (copen emptyConn).
Proof. exact (handlers_tx_bounded blogEngine blogRepo readValue noFaults noFaults emptyConn "1" (blog 0 [] "")). Defined.

Lemma hGetByID_missing_witness :
  (hGetByID blogRepo noFaults emptyConn "7").2 = badRequest (ErrDB "record not found") "FETCH_READ_OBJECT_ERROR".
Proof. apply (hGetByID_missing TBlog emptyConn "7" 7 true); reflexivity. Defined.

End Service.
