(* ===== verification/Routes.v ===== *)
(** * Routes: the [Service[T]] interface and the registration of its routes

    Module [ServiceI] is the interface [Service[T]] (handler.go:26-37): five
    handlers of an [iris.Context], here the parameters the router bound,
    the request body and the fault plans of the repository calls the
    request makes.  [NewModelService] (handler.go:44-49) builds it from an
    engine and a repository with the handlers of [Service].

    Module [Routes] translates [RegisterHandler] (handler.go:8-16) and
    [structNameToSnake] (helpers.go:305-320): the
    five routes under [/{snake_case name of T}].  [strcase.ToSnake] is a
    library the code only calls, so it is the section variable [ToSnake].
    The router of Iris is a library too; [serve] is the part of it the
    routes rely on: a request goes to the first route of its method whose
    pattern matches its path segments, a [{id}] segment matching one
    non-empty segment, and no route answers 404. *)

From S2P Require Import Prelude GoReflect Orm App Copier Shapes Engine Repository Interfaces Service.
Import GoReflect Orm App Engine Repository Service.

Module ServiceI.

(** The [iris.Context] of a request, as the handlers read it. *)
Record ctx (Body : Type) := Ctx { params : list (string * string); body : Body; fl1 : faults; fl2 : faults }.
Arguments Ctx {Body} _ _ _ _.
Arguments params {Body} _.
Arguments body {Body} _.
Arguments fl1 {Body} _.
Arguments fl2 {Body} _.

Definition handler (DB Body : Type) : Type := ctx Body -> conn DB -> conn DB * response.

(** [type Service[T any] interface { ... }] *)
Record t (DB Body : Type) := Mk {
  GetByID : handler DB Body;
  GetAll : handler DB Body;
  Create : handler DB Body;
  UpdatePatch : handler DB Body;
  Delete : handler DB Body
}.
Arguments Mk {DB Body} _ _ _ _ _.
Arguments GetByID {DB Body} _ _ _.
Arguments GetAll {DB Body} _ _ _.
Arguments Create {DB Body} _ _ _.
Arguments UpdatePatch {DB Body} _ _ _.
Arguments Delete {DB Body} _ _ _.

(** [ctx.Params().Get(key)]: the bound value, "" when there is none. *)
Definition paramGet {Body} (x : ctx Body) (key : string) : string :=
  match list_find (fun kv => kv.1 = key) (params x) with Some (_, (_, v)) => v | None => "" end.

(** [NewModelService[T](eng, repo)]: the [modelService[T]] whose methods
    are the handlers of [Service]. *)
Definition NewModelService {DB Body : Type} (eng : EngineI.t) (repo : RepositoryI.t DB)
    (readBody : Body -> val -> gres val) : t DB Body := {|
  GetByID := fun x c => hGetByID repo (fl1 x) c (paramGet x "id");
  GetAll := fun x c => hGetAll repo (fl1 x) c;
  Create := fun x c => hCreate eng repo readBody (fl1 x) c (body x);
  UpdatePatch := fun x c => hUpdatePatch eng repo readBody (fl1 x) (fl2 x) c (paramGet x "id") (body x);
  Delete := fun x c => hDelete repo (fl1 x) c (paramGet x "id")
|}.

End ServiceI.

Module Routes.

(** A segment of a route pattern: a literal or a parameter [{name}]. *)
Inductive seg := Lit (s : string) | Param (name : string).

Record route (DB Body : Type) := Route { rmethod : string; rpattern : list seg; rhandler : ServiceI.handler DB Body }.
Arguments Route {DB Body} _ _ _.
Arguments rmethod {DB Body} _.
Arguments rpattern {DB Body} _.
Arguments rhandler {DB Body} _.

Section Register.
Context {DB Body : Type}.
(** [strcase.ToSnake] *)
Variable ToSnake : string -> string.

(** [structNameToSnake(i)]: the snake-case name of the struct type of [i]
    or of the struct it points to, "" for any other type. *)
Definition structNameToSnake (t : ty) : string :=
  let t := match t with TPtr e => e | _ => t end in
  match t with TStruct n _ => ToSnake n | _ => "" end.

(** [RegisterHandler[T](api, service)]: the routes registered on the
    party [api] (given by its path segments), for the service of [T]
    ([new(T)] has type [*T]). *)
Definition RegisterHandler (T : ty) (api : list string) (service : ServiceI.t DB Body) : list (route DB Body) :=
  let routerName := structNameToSnake (TPtr T) in
  let base := (Lit <$> api) ++ [Lit routerName] in
  [Route "GET" base (ServiceI.GetAll service);
   Route "GET" (base ++ [Param "id"]) (ServiceI.GetByID service);
   Route "POST" base (ServiceI.Create service);
   Route "DELETE" (base ++ [Param "id"]) (ServiceI.Delete service);
   Route "PATCH" (base ++ [Param "id"]) (ServiceI.UpdatePatch service)].

End Register.

(** ** The router *)

(** The parameters a pattern binds on a path, if it matches. *)
Fixpoint matchPath (pat : list seg) (path : list string) : option (list (string * string)) :=
  match pat, path with
  | [], [] => Some []
  | Lit s :: pat', x :: path' => if String.eqb s x then matchPath pat' path' else None
  | Param n :: pat', x :: path' =>
      if String.eqb x "" then None else (fun ps => (n, x) :: ps) <$> matchPath pat' path'
  | _, _ => None
  end.

Definition routeMatch {DB Body} (meth : string) (path : list string) (r : route DB Body) : option (list (string * string)) :=
  if String.eqb (rmethod r) meth then matchPath (rpattern r) path else None.

Fixpoint findRoute {DB Body} (routes : list (route DB Body)) (meth : string) (path : list string)
    : option (route DB Body * list (string * string)) :=
  match routes with
  | [] => None
  | r :: rs => match routeMatch meth path r with Some ps => Some (r, ps) | None => findRoute rs meth path end
  end.

(** A request with its method, path, body and fault plans, on the
    connection [c]. *)
Definition serve {DB Body} (routes : list (route DB Body)) (meth : string) (path : list string) (b : Body)
    (f1 f2 : faults) (c : conn DB) : conn DB * response :=
  match findRoute routes meth path with
  | Some (r, ps) => rhandler r (ServiceI.Ctx ps b f1 f2) c
  | None => (c, Resp 404 BodyNone)
  end.


(** ** The application *)

(** The wiring of [main] (part_000:55-61): the engine and the repository
    of [Blog], its [modelService], and its routes on the party [/api]. *)
Definition mainRoutes {DB Body : Type} `{!Gorm DB} (ToSnake : string -> string)
    (readBody : Body -> val -> gres val) : list (route DB Body) :=
  let eng := EngineI.CreateEngine TBlog in
  let repo := RepositoryI.NewGenericRepository TBlog in
  let blogService := ServiceI.NewModelService eng repo readBody in
  RegisterHandler ToSnake TBlog ["api"] blogService.

(** A request, and a sequence of requests served one after the other on
    the same connection, with no driver failure. *)
Record request (Body : Type) := Request { method : string; path : list string; reqBody : Body }.
Arguments Request {Body} _ _ _.
Arguments method {Body} _.
Arguments path {Body} _.
Arguments reqBody {Body} _.

Fixpoint runRequests {DB Body} (routes : list (route DB Body)) (reqs : list (request Body)) (c : conn DB)
    : conn DB * list response :=
  match reqs with
  | [] => (c, [])
  | r :: rs =>
      let '(c1, resp) := serve routes (method r) (path r) (reqBody r) noFaults noFaults c in
      let '(c2, resps) := runRequests routes rs c1 in
      (c2, resp :: resps)
  end.

(** The blog service of [main] on the table store, with [toSnakeCase] for
    [strcase.ToSnake] (both give "blog" for "Blog"). *)
Definition blogApp : list (route table val) := mainRoutes Copier.toSnakeCase readValue.

(** ** Properties of the registered routes *)

Lemma matchPath_length pat path ps : matchPath pat path = Some ps -> length pat = length path.
Proof.
  revert path ps. induction pat as [|[x|x] pat IH]; intros [|y path] ps; simpl; try done.
  - case_match; [|done]. intros Hm. by rewrite (IH _ _ Hm).
  - case_match; [done|]. destruct (matchPath pat path) eqn:E; [|done]. intros _. by rewrite (IH _ _ E).
Qed.

Lemma matchPath_lits api pat path : matchPath ((Lit <$> api) ++ pat) (api ++ path) = matchPath pat path.
Proof. induction api as [|a api IH]; simpl; [done|]. by rewrite String.eqb_refl. Qed.

(** A route that matches a request has the request's method and one
    pattern segment per path segment. *)
Definition route_key {DB Body} (r : route DB Body) : string * nat := (rmethod r, length (rpattern r)).

Lemma routeMatch_key {DB Body} meth path (r : route DB Body) :
  is_Some (routeMatch meth path r) -> route_key r = (meth, length path).
Proof.
  unfold routeMatch, route_key. destruct (String.eqb_spec (rmethod r) meth) as [->|]; [|by intros []].
  intros [ps Hps]. by rewrite (matchPath_length _ _ _ Hps).
Qed.

(** In a list whose elements have distinct keys, at most one element has
    a given key. *)
Lemma filter_key_le1 {A K} (key : A -> K) (P : A -> Prop) `{!forall x, Decision (P x)} k l :
  NoDup (key <$> l) -> (forall x, P x -> key x = k) -> length (filter P l) <= 1.
Proof.
  intros Hnd HP. induction l as [|x l IH]; simpl; [lia|]. rewrite fmap_cons in Hnd.
  apply NoDup_cons in Hnd as [Hx Hnd]. rewrite filter_cons. case_decide as Hpx; [|by apply IH].
  assert (Hnil : forall l', (forall y, y ∈ l' -> P y -> False) -> filter P l' = []).
  { induction l' as [|y l' IHl]; intros Hy; [done|]. rewrite filter_cons.
    case_decide; [exfalso; apply (Hy y); [apply list_elem_of_here|done]|]. apply IHl. intros z Hz. apply Hy. by apply list_elem_of_further. }
  rewrite Hnil; [simpl; lia|]. intros y Hy Hpy. apply Hx.
  rewrite (HP x Hpx), <-(HP y Hpy). by apply list_elem_of_fmap_2.
Qed.

(** C10: the routes [RegisterHandler] registers are unambiguous: every
    request (method and path) matches at most one of them, whatever the
    party and the type's name. *)
Theorem RegisterHandler_unambiguous {DB Body} ToSnake T api (service : ServiceI.t DB Body) meth path :
  length (filter (fun r => is_Some (routeMatch meth path r)) (RegisterHandler ToSnake T api service)) <= 1.
Proof.
  apply (filter_key_le1 route_key _ (meth, length path)); [|intros r; apply routeMatch_key].
  unfold route_key. simpl. rewrite !length_app. simpl. generalize (length (Lit <$> api)). intros k.
  apply NoDup_ListNoDup. repeat constructor; simpl; intros Hin;
    repeat (destruct Hin as [Hin|Hin]); simplify_eq; try done; lia.
Qed.

Lemma paramGet_id {Body} id b f1 f2 : ServiceI.paramGet (Body:=Body) (ServiceI.Ctx [("id", id)] b f1 f2) "id" = id.
Proof. done. Qed.

(** C9: a request reaches the handler its route names: for the service
    [NewModelService eng repo] of a struct type [T] registered on the
    party [api], [GET], [POST] on [api/name] and [GET], [DELETE], [PATCH] on
    [api/name/id] run [GetAll], [Create], [GetByID], [Delete] and
    [UpdatePatch] with the path's [id]. *)
Theorem serve_RegisterHandler {DB Body} ToSnake n fs api eng (repo : RepositoryI.t DB)
    (readBody : Body -> val -> gres val) id b f1 f2 c :
  id <> "" ->
  let routes := RegisterHandler ToSnake (TStruct n fs) api (ServiceI.NewModelService eng repo readBody) in
  let base := api ++ [ToSnake n] in
  serve routes "GET" base b f1 f2 c = hGetAll repo f1 c /\
  serve routes "POST" base b f1 f2 c = hCreate eng repo readBody f1 c b /\
  serve routes "GET" (base ++ [id]) b f1 f2 c = hGetByID repo f1 c id /\
  serve routes "DELETE" (base ++ [id]) b f1 f2 c = hDelete repo f1 c id /\
  serve routes "PATCH" (base ++ [id]) b f1 f2 c = hUpdatePatch eng repo readBody f1 f2 c id b.
Proof.
  intros Hid. cbv zeta. unfold serve, RegisterHandler, structNameToSnake. cbn [findRoute].
  unfold routeMatch. cbn [rmethod rpattern]. rewrite <-!app_assoc. simpl app. rewrite !matchPath_lits. simpl.
  rewrite !String.eqb_refl. destruct (String.eqb_spec id "") as [->|_]; [done|]. simpl.
  split_and!; reflexivity.
Qed.

Lemma serve_RegisterHandler_witness :
  let routes := RegisterHandler Copier.toSnakeCase TBlog ["api"] (ServiceI.NewModelService blogEngine blogRepo readValue) in
  serve routes "DELETE" ["api"; "blog"; "1"] (blog 0 [] "") noFaults noFaults emptyConn =
  hDelete blogRepo noFaults emptyConn "1".
Proof.
  cbv zeta. destruct (serve_RegisterHandler Copier.toSnakeCase "Blog" (match TBlog with TStruct _ fs => fs | _ => [] end)
    ["api"] blogEngine blogRepo readValue "1" (blog 0 [] "") noFaults noFaults emptyConn ltac:(done)) as (_ & _ & _ & H & _).
  exact H.
Defined.

(** a session of the blog service: create a blog, patch its "en" content,
    read it, delete it, read it again.  Every answer is the expected one,
    and the three reads (the one of the [PATCH] included) leave three
    transactions open on the connection: the leak of [GetByID] adds up
    across requests. *)
Example blog_session :
  let reqs := [Request "POST" ["api"; "blog"] (deref (blogCreateParams [("en", "Hello"); ("ar", "Marhaba")] "me" false));
               Request "PATCH" ["api"; "blog"; "1"] (deref (blogUpdateParams (Some [("en", "Hi")]) None None));
               Request "GET" ["api"; "blog"; "1"] (VBool false);
               Request "DELETE" ["api"; "blog"; "1"] (VBool false);
               Request "GET" ["api"; "blog"; "1"] (VBool false)] in
  let '(c, resps) := runRequests blogApp reqs emptyConn in
  status <$> resps = [201; 200; 200; 204; 400]%Z /\ copen c = 3 /\ rows (cdb c) = ∅.
Proof. vm_compute. split_and!; reflexivity. Qed.

End Routes.
