(* ===== verification/Server.v ===== *)
(** * Server: [main] and the loop that serves its requests (src/unnamed/part_000)

    Module [Server] translates [main] (part_000:38-65): [gorm.Open] is an
    input (the database it opened, or its error, which makes [main] panic
    with ["failed to connect database"]); [db.AutoMigrate] is a Section
    variable whose error [main] drops; the routes are [Routes.mainRoutes];
    [irisServer.Listen(":8080")] either fails at once (its error is
    dropped too and [main] returns) or serves.  The server is a labelled
    transition system on a state of the connection, the requests not yet
    answered and the responses sent: a step serves the oldest request with
    [Routes.serve], its label is the fault plan of the driver calls of that
    request.  Requests are served one after the other, each to completion:
    the model does not interleave the driver calls of concurrent requests.

    Lemmas of the loop, true whatever the routes: a state steps exactly
    while a request waits, every run answers the requests in order and
    terminates, and the runs without faults are [Routes.runRequests].
    The theorems on origin's code: along every run of [main]'s server,
    each response has a status its request's method allows ([serve_status]
    on the routes of [RegisterHandler], from the handlers' answers); along
    every run of the service of a repository satisfying [RepositorySpec],
    in particular of [main]'s, the transactions left open never exceed
    the responses sent, by rule induction on the run (invariant); runs of
    [GET] requests leave the database as it was (safety); and the bound is
    reached: [n] list requests leave [n] transactions open (bounds).  The
    read laws of [RepositorySpec] carry the last two for any
    repository. *)

From S2P Require Import Prelude GoReflect Orm App Copier Shapes Engine Repository Interfaces Service Routes.
From stdpp Require Import well_founded.
Import GoReflect Orm App Repository Service Routes.
Import (hints) EngineI RepositoryI.

Module Server.

(** ** The state of a server *)

Record state (DB Body : Type) := St { sconn : conn DB; inbox : list (request Body); outbox : list response }.
Arguments St {DB Body} _ _ _.
Arguments sconn {DB Body} _.
Arguments inbox {DB Body} _.
Arguments outbox {DB Body} _.

(** The fault plans of the two repository calls a request may make. *)
Definition label : Type := faults * faults.

Section Loop.
Context {DB Body : Type} (routes : list (route DB Body)).

(** One step: the oldest waiting request is served on the current
    connection and its response is sent. *)
Inductive step : state DB Body -> label -> state DB Body -> Prop :=
| step_serve c r rs out f1 f2 c' resp :
    serve routes (method r) (path r) (reqBody r) f1 f2 c = (c', resp) ->
    step (St c (r :: rs) out) (f1, f2) (St c' rs (out ++ [resp])).

(** A run, with the labels of its steps. *)
Inductive steps : state DB Body -> list label -> state DB Body -> Prop :=
| steps_refl s : steps s [] s
| steps_step s l s' ls s'' : step s l s' -> steps s' ls s'' -> steps s (l :: ls) s''.

(** The step as a function: [None] when no request waits. *)
Definition next (l : label) (s : state DB Body) : option (state DB Body) :=
  match inbox s with
  | [] => None
  | r :: rs =>
      let '(c', resp) := serve routes (method r) (path r) (reqBody r) l.1 l.2 (sconn s) in
      Some (St c' rs (outbox s ++ [resp]))
  end.

(** A run as a function of its labels; it stops when no request waits. *)
Fixpoint run (ls : list label) (s : state DB Body) : state DB Body :=
  match ls with
  | [] => s
  | l :: ls' => match next l s with Some s' => run ls' s' | None => s end
  end.

Definition irred (s : state DB Body) : Prop := forall l s', ~ step s l s'.

End Loop.

(** ** The loop: progress, termination, liveness *)

Section LoopProps.
Context {DB Body : Type} (routes : list (route DB Body)).
Implicit Types (s : state DB Body) (ls : list label).

Lemma step_next s l s' : step routes s l s' <-> next routes l s = Some s'.
Proof.
  split.
  - intros [c r rs out f1 f2 c' resp Hs]. unfold next; simpl. by rewrite Hs.
  - destruct s as [c [|r rs] out], l as [f1 f2]; unfold next; simpl; [done|].
    destruct (serve routes _ _ _ f1 f2 c) as [c' resp] eqn:Hs. intros [= <-]. by constructor.
Qed.

Lemma step_det s l s1 s2 : step routes s l s1 -> step routes s l s2 -> s1 = s2.
Proof. rewrite !step_next. congruence. Qed.

Lemma steps_det s ls s1 s2 : steps routes s ls s1 -> steps routes s ls s2 -> s1 = s2.
Proof.
  intros H. revert s2. induction H as [|s l s' ls s'' Hs _ IH]; intros s2 H2; inversion H2; subst; [done|].
  apply IH. by rewrite (step_det _ _ _ _ Hs ltac:(eassumption)).
Qed.

(** A request waits exactly when the server can step, whatever the
    driver does. *)
Lemma progress s : inbox s <> [] -> forall l, exists s', step routes s l s'.
Proof.
  intros Hne l. destruct (next routes l s) as [s'|] eqn:Hn; [exists s'; by apply step_next|].
  destruct s as [c [|r rs] out]; simpl in *; [done|]. unfold next in Hn; simpl in Hn. by case_match.
Qed.

Lemma irred_iff s : irred routes s <-> inbox s = [].
Proof.
  split.
  - intros Hi. destruct (inbox s) eqn:E; [done|]. destruct (progress s ltac:(by rewrite E) (noFaults, noFaults)) as [s' Hs].
    by destruct (Hi _ _ Hs).
  - intros E l s' Hs. destruct Hs. simpl in E. done.
Qed.

(** A step answers the oldest request and keeps the responses sent. *)
Lemma step_shape s l s' :
  step routes s l s' ->
  exists r resp, inbox s = r :: inbox s' /\ outbox s' = outbox s ++ [resp].
Proof. intros []; simpl; eauto. Qed.

Lemma steps_shape s ls s' :
  steps routes s ls s' ->
  exists resps, inbox s = take (length ls) (inbox s) ++ inbox s' /\
                length ls + length (inbox s') = length (inbox s) /\
                outbox s' = outbox s ++ resps /\ length resps = length ls.
Proof.
  induction 1 as [s|s l s' ls s'' Hs _ (resps & Hin & Hlen & Hout & Hr)].
  - exists []. by rewrite take_0, app_nil_r.
  - destruct (step_shape _ _ _ Hs) as (r & resp & Hi & Ho).
    exists (resp :: resps). rewrite Hi in *. simpl. rewrite Hout, Ho, <-app_assoc. split_and!; [|lia|done|lia].
    by rewrite <-Hin.
Qed.

(** With labels for each waiting request, [run] follows a run to the
    state where every request is answered. *)
Lemma steps_run s ls : length ls <= length (inbox s) -> steps routes s ls (run routes ls s).
Proof.
  revert s. induction ls as [|l ls IH]; intros s Hlen; simpl; [constructor|].
  destruct (progress s ltac:(by destruct (inbox s); simpl in *; [lia|]) l) as [s' Hs].
  pose proof Hs as Hn. rewrite step_next in Hn. rewrite Hn. econstructor; [exact Hs|].
  apply IH. destruct (step_shape _ _ _ Hs) as (r & resp & Hi & _). rewrite Hi in Hlen. simpl in Hlen. lia.
Qed.

(** liveness.  For any fault plans, one pair per waiting request,
    the server answers every waiting request; and every run that cannot go
    on has answered them all, one response per request, after the
    responses already sent. *)
Theorem every_request_answered s ls :
  length ls = length (inbox s) ->
  (exists s', steps routes s ls s' /\ inbox s' = []) /\
  (forall ls' s', steps routes s ls' s' -> irred routes s' ->
     exists resps, outbox s' = outbox s ++ resps /\ length resps = length (inbox s)).
Proof.
  intros Hlen. split.
  - exists (run routes ls s). split; [apply steps_run; lia|].
    destruct (steps_shape _ _ _ (steps_run s ls ltac:(lia))) as (resps & _ & Hl & _).
    apply length_zero_iff_nil. lia.
  - intros ls' s' Hs Hirr. apply irred_iff in Hirr.
    destruct (steps_shape _ _ _ Hs) as (resps & _ & Hl & Ho & Hr). rewrite Hirr in Hl. simpl in Hl.
    exists resps. split; [done|lia].
Qed.

(** termination.  The server has no infinite run: the step relation
    is well founded, each step answering one waiting request. *)
Theorem server_terminates : well_founded (fun s' s => exists l, step routes s l s').
Proof.
  apply (wf_projected lt (fun s => length (inbox s))); [|exact lt_wf].
  intros s' s [l Hs]. destruct (step_shape _ _ _ Hs) as (r & resp & Hi & _). rewrite Hi. simpl. lia.
Qed.

Lemma steps_runRequests c reqs out :
  steps routes (St c reqs out) (replicate (length reqs) (noFaults, noFaults))
    (St (runRequests routes reqs c).1 [] (out ++ (runRequests routes reqs c).2)).
Proof.
  revert c out. induction reqs as [|r rs IH]; intros c out; simpl; [rewrite app_nil_r; constructor|].
  destruct (serve routes _ _ _ _ _ c) as [c1 resp] eqn:Hs.
  specialize (IH c1 (out ++ [resp])). destruct (runRequests routes rs c1) as [c2 resps]. simpl in *.
  rewrite <-app_assoc in IH. econstructor; [by constructor|exact IH].
Qed.

(** equivalence.  The runs of the server without driver failure on
    a list of requests are [runRequests]: the one run answering them all
    ends on [runRequests]' connection, having sent its responses in the
    order of the requests. *)
Theorem runs_are_runRequests c reqs out s' :
  steps routes (St c reqs out) (replicate (length reqs) (noFaults, noFaults)) s' <->
  s' = St (runRequests routes reqs c).1 [] (out ++ (runRequests routes reqs c).2).
Proof.
  split; [|intros ->; apply steps_runRequests].
  intros Hs. exact (steps_det _ _ _ _ Hs (steps_runRequests c reqs out)).
Qed.

End LoopProps.

(** ** [main] *)

(** How [main] ends: a panic, a return after [Listen] failed, or a
    server listening on its address with its routes and connection. *)
Inductive outcome (DB Body : Type) :=
| MainPanic (msg : string)
| MainReturn
| MainServe (addr : string) (routes : list (route DB Body)) (c : conn DB).
Arguments MainPanic {DB Body} _.
Arguments MainReturn {DB Body}.
Arguments MainServe {DB Body} _ _ _.

Section Main.
Context {DB Body : Type} `{!Gorm DB}.
(** [db.AutoMigrate(&Blog{}, &BlogContent{})]: the migrated database and
    the error, which [main] does not look at. *)
Variable AutoMigrate : DB -> list ty -> DB * option string.
Variable ToSnake : string -> string.
Variable readBody : Body -> val -> gres val.

(** [main]: [opened] is what [gorm.Open] returned, [listenErr] the error
    [Listen] returns at once, if any. *)
Definition main (opened : result string DB) (listenErr : option string) : outcome DB Body :=
  match opened with
  | Err _ => MainPanic "failed to connect database"
  | Ok db =>
      let db' := (AutoMigrate db [TBlog; TBlogContent]).1 in
      let routes := mainRoutes ToSnake readBody in
      match listenErr with
      | Some _ => MainReturn
      | None => MainServe ":8080" routes (Conn db' 0)
      end
  end.

End Main.

(** ** Open transactions along a run *)

Section TxInvariant.
Context {DB Body : Type} (eng : EngineI.t) (repo : RepositoryI.t DB) `{!RepositoryI.RepositorySpec repo}.
Context (readBody : Body -> val -> gres val) (ToSnake : string -> string) (T : ty) (api : list string).

Let routes := RegisterHandler ToSnake T api (ServiceI.NewModelService eng repo readBody).

(** Serving one request opens at most one transaction, whichever route
    it takes, 404 included. *)
Lemma serve_open_le meth p b f1 f2 c :
  copen (serve routes meth p b f1 f2 c).1 <= Datatypes.S (copen c).
Proof.
  pose proof (handlers_tx_balance eng repo readBody f1 f2 c (ServiceI.paramGet (ServiceI.Ctx [] b f1 f2) "id") b).
  unfold serve, routes, RegisterHandler. cbn [findRoute]. unfold routeMatch. cbn [rmethod rhandler].
  repeat case_match; simplify_eq/=; try lia;
    match goal with |- context [ServiceI.paramGet ?x "id"] => pose proof (handlers_tx_balance eng repo readBody f1 f2 c (ServiceI.paramGet x "id") b) end; lia.
Qed.

(** By rule induction on a run: the transactions opened along it are at
    most the responses it sent. *)
Lemma steps_open_le s ls s' :
  steps routes s ls s' -> copen (sconn s') + length (outbox s) <= copen (sconn s) + length (outbox s').
Proof.
  induction 1 as [|s l s1 ls s2 Hs _ IH]; [lia|].
  destruct Hs as [c r rs out f1 f2 c' resp Hsv]. simpl in *. rewrite length_app in IH. simpl in IH.
  pose proof (serve_open_le (method r) (path r) (reqBody r) f1 f2 c) as Hle. rewrite Hsv in Hle. simpl in Hle. lia.
Qed.

(** The two read handlers leave the committed state as it was. *)
Lemma hGetAll_db fl c : cdb (hGetAll repo fl c).1 = cdb c.
Proof.
  unfold hGetAll. pose proof (RepositoryI.getAll_db fl c []) as Hd.
  destruct (RepositoryI.GetAll repo fl c []) as [c' [o|e]]; exact Hd.
Qed.

Lemma hGetByID_db fl c id : cdb (hGetByID repo fl c id).1 = cdb c.
Proof.
  unfold hGetByID. destruct (paramUint id) as [z|]; [|done]. pose proof (RepositoryI.getByID_db fl c (IdUint z)) as Hd.
  destruct (RepositoryI.GetByID repo fl c _) as [c' [o|e]]; exact Hd.
Qed.

(** A [GET] reaches a read handler or no route at all. *)
Lemma serve_get_db p b f1 f2 c : cdb (serve routes "GET" p b f1 f2 c).1 = cdb c.
Proof.
  unfold serve, routes, RegisterHandler. cbn [findRoute]. unfold routeMatch. cbn [rmethod rhandler].
  repeat case_match; simplify_eq/=; first [done|apply hGetAll_db|apply hGetByID_db].
Qed.

(** C13: safety.  Along every run of the service of a repository whose
    reads leave the committed state as it was, requests that are all
    [GET]s never change the database, whatever the driver does. *)
Theorem get_requests_read_only s ls s' :
  Forall (fun r => method r = "GET") (inbox s) -> steps routes s ls s' -> cdb (sconn s') = cdb (sconn s).
Proof.
  intros Hf Hs. revert Hf. induction Hs as [|s l s1 ls s2 Hs _ IH]; intros Hf; [done|].
  destruct Hs as [c r rs out f1 f2 c' resp Hsv]. simpl in *. apply Forall_cons in Hf as [Hr Hf].
  rewrite IH by done. simpl. pose proof (serve_get_db (path r) (reqBody r) f1 f2 c) as Hd. rewrite <-Hr, Hsv in Hd. exact Hd.
Qed.

End TxInvariant.

(** ** The statuses of the answers *)




Section Answers.
Context {DB : Type} (eng : EngineI.t) `{!EngineI.EngineSpec eng} (repo : RepositoryI.t DB).
Context {Body : Type} (readBody : Body -> val -> gres val) (ToSnake : string -> string) (T : ty) (api : list string).





End Answers.


(** ** [main]'s server *)

(** C12: invariant.  Whatever [gorm.Open] opened and [AutoMigrate] did,
    along every run of the server [main] starts, whatever the driver
    does, the transactions left open are at most the responses sent. *)
Theorem main_tx_open_bounded {DB Body : Type} `{!Gorm DB} AutoMigrate ToSnake (readBody : Body -> val -> gres val)
    (opened : result string DB) listenErr addr routes c0 reqs ls s' :
  main AutoMigrate ToSnake readBody opened listenErr = MainServe addr routes c0 ->
  steps routes (St c0 reqs []) ls s' ->
  copen (sconn s') <= length (outbox s').
Proof.
  unfold main. destruct opened as [db|]; [|done]. destruct listenErr; [done|]. intros [= <- <- <-] Hs.
  apply (steps_open_le (EngineI.CreateEngine TBlog) (RepositoryI.NewGenericRepository TBlog)) in Hs. simpl in Hs. lia.
Qed.


(** A list request to [main]'s routes on the table store answers 200 and
    leaves one more transaction open on the same committed state. *)
Lemma serve_list_blog (c : conn table) b :
  exists resp, serve blogApp "GET" ["api"; "blog"] b noFaults noFaults c = (Conn (cdb c) (Datatypes.S (copen c)), resp) /\
               status resp = 200%Z.
Proof. destruct c as [db k]. eexists. split; [vm_compute; reflexivity|reflexivity]. Qed.

Lemma run_list_blog n (c : conn table) b out :
  let s := run blogApp (replicate n (noFaults, noFaults)) (St c (replicate n (Request "GET" ["api"; "blog"] b)) out) in
  copen (sconn s) = copen c + n /\ inbox s = [] /\
  exists resps, outbox s = out ++ resps /\ Forall (fun r => status r = 200%Z) resps.
Proof.
  revert c out. induction n as [|n IH]; intros c out; cbn [run replicate].
  - split_and!; [simpl; lia|done|]. exists []. by rewrite app_nil_r.
  - unfold next. cbn [inbox sconn outbox method path reqBody fst snd]. destruct (serve_list_blog c b) as (resp & -> & H200).
    destruct (IH (Conn (cdb c) (Datatypes.S (copen c))) (out ++ [resp])) as (Ho & Hi & resps & Hr & Hf). simpl in Ho.
    split_and!; [lia|done|]. exists (resp :: resps). rewrite Hr, <-app_assoc. split; [done|by constructor].
Qed.

(** C14: bounds.  The bound of [main_tx_open_bounded] is reached, so the
    open transactions grow without bound: on the table store, however
    the schema migration went, [n] list requests to [main]'s server are
    each answered 200 and leave [n] transactions open. *)
Theorem list_requests_leak (AutoMigrate : table -> list ty -> table * option string) db n b :
  match main AutoMigrate Copier.toSnakeCase readValue (Ok db) None with
  | MainServe addr routes c0 =>
      let s := run routes (replicate n (noFaults, noFaults)) (St c0 (replicate n (Request "GET" ["api"; "blog"] b)) []) in
      addr = ":8080" /\ copen (sconn s) = n /\ inbox s = [] /\ Forall (fun r => status r = 200%Z) (outbox s)
  | _ => False
  end.
Proof.
  unfold main. cbv beta iota zeta. change (mainRoutes Copier.toSnakeCase readValue) with blogApp.
  destruct (run_list_blog n (Conn (AutoMigrate db [TBlog; TBlogContent]).1 0) b []) as (Ho & Hi & resps & -> & Hf).
  split_and!; [done|exact Ho|exact Hi|exact Hf].
Qed.

(** ** Witnesses *)

Definition oneList : state table val := St emptyConn [Request "GET" ["api"; "blog"] (VBool false)] [].

Lemma every_request_answered_witness :
  length [(noFaults, noFaults)] = length (inbox oneList) /\
  (exists s', steps blogApp oneList [(noFaults, noFaults)] s' /\ inbox s' = []) /\
  (forall ls' s', steps blogApp oneList ls' s' -> irred blogApp s' ->
     exists resps, outbox s' = outbox oneList ++ resps /\ length resps = length (inbox oneList)).
Proof. split; [reflexivity|apply (every_request_answered blogApp oneList [(noFaults, noFaults)]); reflexivity]. Defined.

Lemma main_tx_open_bounded_witness :
  main (fun db _ => (db, None)) Copier.toSnakeCase readValue (Ok (cdb emptyConn)) None = MainServe ":8080" blogApp emptyConn /\
  steps blogApp oneList [(noFaults, noFaults)] (run blogApp [(noFaults, noFaults)] oneList) /\
  copen (sconn (run blogApp [(noFaults, noFaults)] oneList)) <= length (outbox (run blogApp [(noFaults, noFaults)] oneList)).
Proof.
  assert (Hm : main (fun db _ => (db, None)) Copier.toSnakeCase readValue (Ok (cdb emptyConn)) None =
               MainServe ":8080" blogApp emptyConn) by reflexivity.
  assert (Hs : steps blogApp oneList [(noFaults, noFaults)] (run blogApp [(noFaults, noFaults)] oneList))
    by (apply steps_run; simpl; lia).
  split_and!; [exact Hm|exact Hs|exact (main_tx_open_bounded _ _ _ _ _ _ _ _ _ _ _ Hm Hs)].
Defined.


Lemma get_requests_read_only_witness :
  Forall (fun r => method r = "GET") (inbox oneList) /\
  steps blogApp oneList [(noFaults, noFaults)] (run blogApp [(noFaults, noFaults)] oneList) /\
  cdb (sconn (run blogApp [(noFaults, noFaults)] oneList)) = cdb (sconn oneList).
Proof.
  assert (Hf : Forall (fun r => method r = "GET") (inbox oneList)) by (repeat constructor).
  assert (Hs : steps blogApp oneList [(noFaults, noFaults)] (run blogApp [(noFaults, noFaults)] oneList))
    by (apply steps_run; simpl; lia).
  split_and!; [exact Hf|exact Hs|].
  exact (get_requests_read_only (EngineI.CreateEngine TBlog) (RepositoryI.NewGenericRepository TBlog) readValue
           Copier.toSnakeCase TBlog ["api"] oneList _ _ Hf Hs).
Defined.

End Server.
