(* ===== verification/Concurrency.v ===== *)
(** * Concurrency: handlers split at their repository calls, run by a scheduler

    Iris serves each request on a goroutine of its own, and the handlers
    of [Service] (handler.go) share the connection.  A handler's effect on
    the database happens in its repository calls, each of which runs in a
    transaction of its own: [UpdatePatch] reads the model in [GetByID], then
    saves the updated model in [Update] (handler.go:160-224).  Module
    [Concurrency] writes each handler as a [prog]: its answer, or one
    atomic repository call on the connection followed by the rest of the
    handler.  A pool of such threads runs under a scheduler that picks,
    at each step, the thread whose next repository call happens.  Each
    repository call is atomic: the model says nothing of interleavings
    inside one call, whose transaction isolates it.

    Lemmas of the model: each [prog] run alone is its handler, running the
    threads one after the other is a schedule, no schedule is infinite
    (the continuations of a program are well founded, and so is the
    replacement of one thread by a continuation) and every schedule that
    cannot go on has answered every request.  The theorems on origin's
    code follow the threads on the table store, for any table whose row 1
    holds a blog with any contents, owner and flag, step by step
    ([read_step], [save_step], [delete_step]): two [PATCH]es of the blog
    lose one update in the interleaving where both read before either
    saves, while both serial orders keep both; and a [DELETE] run between
    a [PATCH]'s read and its save is undone, the blog stored again, while
    both serial orders leave it deleted. *)

From S2P Require Import Prelude GoReflect Orm App Copier Shapes Engine Repository Interfaces Service Routes Server.
From stdpp Require Import well_founded.
Import GoReflect Orm App Engine Repository Service.

Module Concurrency.

(** ** Handlers as programs of atomic repository calls *)

Section Prog.
Context {DB : Type}.

(** A handler from one repository call to the next: its answer, or a
    repository call on the connection giving the new connection and the
    rest of the handler. *)
Inductive prog :=
| Done (resp : response)
| Call (k : conn DB -> conn DB * prog).

(** A program run alone, with no other thread in between. *)
Fixpoint runProg (p : prog) (c : conn DB) : conn DB * response :=
  match p with
  | Done r => (c, r)
  | Call k => let '(c', p') := k c in runProg p' c'
  end.

End Prog.
Arguments prog : clear implicits.

Section Handlers.
Context {DB : Type} (eng : EngineI.t) (repo : RepositoryI.t DB).
Context {Body : Type} (readBody : Body -> val -> gres val).

(** [GetByID] (handler.go:51-77) *)
Definition pGetByID (fl : faults) (idParam : string) : prog DB :=
  match paramUint idParam with
  | Err e => Done (failWith e "CANT_READ_ID")
  | Ok id =>
      Call (fun c =>
        let '(c', r) := RepositoryI.GetByID repo fl c (IdUint id) in
        (c', Done match r with
                  | Err e => failWith e "FETCH_READ_OBJECT_ERROR"
                  | Ok obj => Resp 200 (BodyValue obj)
                  end))
  end.

(** [GetAll] (handler.go:79-106) *)
Definition pGetAll (fl : faults) : prog DB :=
  Call (fun c =>
    let '(c', r) := RepositoryI.GetAll repo fl c [] in
    (c', Done match r with
              | Err e => failWith e "FETCH_ERROR"
              | Ok objs => Resp 200 (BodyList objs)
              end)).

(** [Create] (handler.go:108-158): the shape and the model are built
    before the one repository call. *)
Definition pCreate (fl : faults) (b : Body) : prog DB :=
  match EngineI.GenerateCreateParameters eng with
  | Err e => Done (failWith e "GENERATE_CREATE_PARAMS_ERROR")
  | Ok cp =>
      match readBody b cp with
      | Err e => Done (failWith e "PARSE_CREATE_PARAMS_ERROR")
      | Ok cp' =>
          match EngineI.FillModelFromCreateParameters eng cp' with
          | Err e => Done (failWith e "GENERATE_CREATE_MODEL_ERROR")
          | Ok mp =>
              Call (fun c =>
                let '(c', m', err) := RepositoryI.Create repo fl c (deref mp) in
                (c', Done match err with
                          | Some e => failWith e "CREATE_ERROR"
                          | None => Resp 201 (BodyValue m')
                          end))
          end
      end
  end.

(** The second half of [UpdatePatch], from the model it read: the update
    shape, the body, the engine, then the repository's [Update]. *)
Definition pUpdateRest (fl2 : faults) (b : Body) (obj : val) : prog DB :=
  match EngineI.GenerateUpdateParameters eng with
  | Err e => Done (failWith e "GENERATE_UPDATE_PARAMS_ERROR")
  | Ok up =>
      match readBody b up with
      | Err e => Done (failWith e "PARSE_UPDATE_PARAMS_ERROR")
      | Ok up' =>
          match EngineI.UpdateModelFromUpdateParameters eng obj up' with
          | Err e => Done (failWith e "GENERATE_UPDATE_MODEL_ERROR")
          | Ok (m', Some e) => Done (failWith e "GENERATE_UPDATE_MODEL_ERROR")
          | Ok (m', None) =>
              Call (fun c =>
                match RepositoryI.Update repo fl2 c m' with
                | Err e => (c, Done (failWith e "UPDATE_ERROR"))
                | Ok (c2, Some e) => (c2, Done (failWith e "UPDATE_ERROR"))
                | Ok (c2, None) => (c2, Done (Resp 200 (BodyValue m')))
                end)
          end
      end
  end.

(** [UpdatePatch] (handler.go:160-224): [GetByID], then the rest. *)
Definition pUpdatePatch (fl1 fl2 : faults) (idParam : string) (b : Body) : prog DB :=
  Call (fun c =>
    let '(c1, r) := RepositoryI.GetByID repo fl1 c (IdString idParam) in
    (c1, match r with
         | Err e => Done (failWith e "NOT_FOUND")
         | Ok obj => pUpdateRest fl2 b obj
         end)).

(** [Delete] (handler.go:226-242) *)
Definition pDelete (fl : faults) (idParam : string) : prog DB :=
  Call (fun c =>
    let '(c', err) := RepositoryI.Delete repo fl c (IdString idParam) in
    (c', Done match err with
              | Some e => failWith e "DELETE_ERROR"
              | None => Resp 204 BodyNone
              end)).

End Handlers.

(** ** A pool of threads and its scheduler *)

(** The connection and the threads, one per request being served, by
    number. *)
Record pool (DB : Type) := Pool { pconn : conn DB; threads : list (prog DB) }.
Arguments Pool {DB} _ _.
Arguments pconn {DB} _.
Arguments threads {DB} _.

Section Pool.
Context {DB : Type}.
Implicit Types (s : pool DB) (p : prog DB).

(** The scheduler runs the next repository call of thread [i]. *)
Inductive cstep : pool DB -> nat -> pool DB -> Prop :=
| cstep_call c ts i k c' p' :
    ts !! i = Some (Call k) -> k c = (c', p') ->
    cstep (Pool c ts) i (Pool c' (<[i:=p']> ts)).

Inductive csteps : pool DB -> list nat -> pool DB -> Prop :=
| csteps_refl s : csteps s [] s
| csteps_step s i s' sch s'' : cstep s i s' -> csteps s' sch s'' -> csteps s (i :: sch) s''.

Definition cnext (i : nat) s : option (pool DB) :=
  match threads s !! i with
  | Some (Call k) => let '(c', p') := k (pconn s) in Some (Pool c' (<[i:=p']> (threads s)))
  | _ => None
  end.

(** A schedule run as a function; the choice of a thread that has
    answered, or of no thread, is skipped. *)
Fixpoint crun (sch : list nat) s : pool DB :=
  match sch with
  | [] => s
  | i :: sch' => crun sch' (default s (cnext i s))
  end.

Definition is_done p : bool := match p with Done _ => true | Call _ => false end.

Definition answer p : option response := match p with Done r => Some r | Call _ => None end.

Definition cirred s : Prop := forall i s', ~ cstep s i s'.

(** Every choice of the schedule is a thread with a call left. *)
Fixpoint schedulable (sch : list nat) s : bool :=
  match sch with
  | [] => true
  | i :: sch' => match cnext i s with Some s' => schedulable sch' s' | None => false end
  end.

End Pool.

(** ** Properties *)

(** The continuations of a program. *)
Definition sub {DB} (p' p : prog DB) : Prop :=
  match p with Call k => exists c, (k c).2 = p' | Done _ => False end.

(** Induction on programs, through the continuations of a call. *)
Fixpoint prog_ind' {DB} (P : prog DB -> Prop) (HD : forall r, P (Done r))
    (HC : forall k, (forall c, P (k c).2) -> P (Call k)) (p : prog DB) : P p :=
  match p with
  | Done r => HD r
  | Call k => HC k (fun c => match k c as x return P x.2 with (_, p') => prog_ind' P HD HC p' end)
  end.

Lemma prog_acc {DB} (p : prog DB) : Acc sub p.
Proof.
  induction p as [r|k IH] using prog_ind'; constructor; simpl; [done|].
  intros p' [c <-]. apply IH.
Qed.

(** One element of a list replaced by a smaller one. *)
Definition lstep {A} (R : A -> A -> Prop) (l' l : list A) : Prop :=
  exists i x x', l !! i = Some x /\ R x' x /\ l' = <[i:=x']> l.

Lemma lstep_acc_cons {A} (R : A -> A -> Prop) x : Acc R x -> forall l, Acc (lstep R) l -> Acc (lstep R) (x :: l).
Proof.
  induction 1 as [x Hx IHx]. intros l Hl. induction Hl as [l Hl IHl].
  constructor. intros l' ([|i] & y & y' & Hi & Hr & ->); simpl in *; simplify_eq.
  - apply IHx; [done|]. by constructor.
  - apply IHl. by exists i, y, y'.
Qed.

Lemma lstep_wf {A} (R : A -> A -> Prop) : well_founded R -> well_founded (lstep R).
Proof.
  intros HR l. induction l as [|x l IH].
  - constructor. intros l' (i & x & x' & Hi & _). done.
  - by apply lstep_acc_cons.
Qed.

Section PoolProps.
Context {DB : Type}.
Implicit Types (s : pool DB) (p : prog DB).

Lemma cstep_next s i s' : cstep s i s' <-> cnext i s = Some s'.
Proof.
  split.
  - intros [c ts j k c' p' Hi Hk]. unfold cnext; simpl. by rewrite Hi, Hk.
  - destruct s as [c ts]. unfold cnext; simpl. destruct (ts !! i) as [[r|k]|] eqn:Hi; try done.
    destruct (k c) as [c' p'] eqn:Hk. intros [= <-]. by econstructor.
Qed.

Lemma crun_csteps sch : forall s, schedulable sch s = true -> csteps s sch (crun sch s).
Proof.
  induction sch as [|i sch IH]; intros s Hs; simpl in *; [constructor|].
  destruct (cnext i s) as [s'|] eqn:Hn; [|done]. econstructor; [by apply cstep_next|]. by apply IH.
Qed.

Lemma cstep_lstep s i s' : cstep s i s' -> lstep sub (threads s') (threads s).
Proof. intros [c ts j k c' p' Hi Hk]. exists j, (Call k), p'. simpl. split_and!; [done| |done]. exists c. by rewrite Hk. Qed.

Lemma cirred_iff s : cirred s <-> Forall (fun p => is_done p = true) (threads s).
Proof.
  split.
  - intros Hirr. apply Forall_lookup. intros i [r|k] Hi; [done|]. exfalso.
    destruct s as [c ts]. destruct (k c) as [c' p'] eqn:Hk. by apply (Hirr i (Pool c' (<[i:=p']> ts))); econstructor.
  - intros Hall i s' Hs. inversion Hs as [c ts j k c' p' Hi Hk]; subst. simpl in Hall.
    by pose proof (Forall_lookup_1 _ _ _ _ Hall Hi).
Qed.

End PoolProps.

Section PoolClaims.
Context {DB : Type}.
Implicit Types (s : pool DB) (p : prog DB).

Lemma csteps_trans s sch1 s1 sch2 s2 : csteps s sch1 s1 -> csteps s1 sch2 s2 -> csteps s (sch1 ++ sch2) s2.
Proof. induction 1; simpl; [done|]. intros Hs2. econstructor; eauto. Qed.

(** termination.  Under every scheduler the pool has no infinite
    run: each step moves one thread past one of its repository calls. *)
Theorem pool_terminates : well_founded (fun s' s : pool DB => exists i, cstep s i s').
Proof.
  apply (wf_projected (lstep sub) threads).
  - intros s' s [i Hs]. by apply (cstep_lstep _ i).
  - apply lstep_wf. intros p. apply prog_acc.
Qed.

(** liveness.  From every pool, some schedule lets every thread
    answer; and every schedule that cannot go on has let every thread
    answer, so no request is left without its response. *)
Theorem every_thread_answers s :
  (exists sch s', csteps s sch s' /\ Forall (fun p => is_done p = true) (threads s')) /\
  (forall sch s', csteps s sch s' -> cirred s' -> Forall (fun p => is_done p = true) (threads s')).
Proof.
  split; [|intros sch s' _ Hirr; by apply cirred_iff].
  induction s as [s IH] using (well_founded_induction pool_terminates).
  destruct (decide (Forall (fun p => is_done p = true) (threads s))) as [Hall|Hnot].
  - exists [], s. split; [constructor|done].
  - apply not_Forall_Exists in Hnot; [|intros p; apply _].
    apply Exists_exists in Hnot as [[r|k] [Hin Hp]]; [by destruct Hp|].
    apply list_elem_of_lookup in Hin as [i Hi]. destruct s as [c ts]. destruct (k c) as [c' p'] eqn:Hk.
    assert (Hs : cstep (Pool c ts) i (Pool c' (<[i:=p']> ts))) by (econstructor; eauto).
    destruct (IH _ (ex_intro _ i Hs)) as (sch & s'' & Hs' & Hd). exists (i :: sch), s''. split; [econstructor; eauto|done].
Qed.

(** Thread [i] run to its answer with no other thread in between. *)
Lemma run_thread p : forall c ts i, ts !! i = Some p ->
  exists sch, csteps (Pool c ts) sch (Pool (runProg p c).1 (<[i:=Done (runProg p c).2]> ts)).
Proof.
  induction p as [r|k IH] using prog_ind'; intros c ts i Hi.
  - exists []. simpl. rewrite list_insert_id by done. constructor.
  - simpl. destruct (k c) as [c' p'] eqn:Hk.
    assert (Hi' : <[i:=p']> ts !! i = Some p') by (apply list_lookup_insert_eq; eapply lookup_lt_Some; eauto).
    specialize (IH c). rewrite Hk in IH. destruct (IH c' _ _ Hi') as [sch Hsch].
    rewrite list_insert_insert_eq in Hsch. exists (i :: sch). econstructor; [by econstructor|exact Hsch].
Qed.

(** The threads run one after the other, each alone. *)
Fixpoint runSerial (ts : list (prog DB)) (c : conn DB) : conn DB * list response :=
  match ts with
  | [] => (c, [])
  | p :: ts' => let '(c1, r) := runProg p c in let '(c2, rs) := runSerial ts' c1 in (c2, r :: rs)
  end.

Lemma serial_schedule_aux ts : forall c pre,
  exists sch, csteps (Pool c ((Done <$> pre) ++ ts)) sch
                     (Pool (runSerial ts c).1 ((Done <$> pre) ++ (Done <$> (runSerial ts c).2))).
Proof.
  induction ts as [|p ts IH]; intros c pre; simpl.
  - exists []. constructor.
  - destruct (run_thread p c ((Done <$> pre) ++ p :: ts) (length pre)) as [sch1 H1].
    { rewrite lookup_app_r; rewrite length_fmap; [|lia]. by rewrite Nat.sub_diag. }
    destruct (runProg p c) as [c1 r] eqn:Hp. simpl in H1.
    rewrite <-(Nat.add_0_r (length pre)), <-(length_fmap (Done (DB:=DB)) pre), insert_app_r in H1. simpl in H1.
    destruct (IH c1 (pre ++ [r])) as [sch2 H2]. rewrite fmap_app, <-app_assoc in H2. simpl in H2.
    destruct (runSerial ts c1) as [c2 rs]. simpl in *. rewrite <-app_assoc in H2. exists (sch1 ++ sch2). by eapply csteps_trans.
Qed.

(** refinement.  Running the requests one after the other, each to
    its answer, is one schedule of the pool: every behaviour of a server
    serving one request at a time is a behaviour of the concurrent one. *)
Theorem serial_is_schedule c ts :
  exists sch, csteps (Pool c ts) sch (Pool (runSerial ts c).1 (Done <$> (runSerial ts c).2)).
Proof. apply (serial_schedule_aux ts c []). Qed.

End PoolClaims.

Section HandlerClaims.
Context {DB : Type} (eng : EngineI.t) (repo : RepositoryI.t DB).
Context {Body : Type} (readBody : Body -> val -> gres val).

(** equivalence.  Each handler split at its repository calls, run
    alone, is the handler of [Service]: same connection, same answer, on
    every path. *)
Theorem progs_are_handlers fl fl2 c s b :
  runProg (pGetByID repo fl s) c = hGetByID repo fl c s /\
  runProg (pGetAll repo fl) c = hGetAll repo fl c /\
  runProg (pCreate eng repo readBody fl b) c = hCreate eng repo readBody fl c b /\
  runProg (pUpdatePatch eng repo readBody fl fl2 s b) c = hUpdatePatch eng repo readBody fl fl2 c s b /\
  runProg (pDelete repo fl s) c = hDelete repo fl c s.
Proof.
  unfold pGetByID, pGetAll, pCreate, pUpdatePatch, pUpdateRest, pDelete, hGetByID, hGetAll, hCreate, hUpdatePatch, hDelete.
  split_and!; simpl; repeat (case_match; simplify_eq/=); done.
Qed.

End HandlerClaims.

(** ** Interleavings on the blog service *)

(** The blog stored as row 1: identifier 1, its contents, owner and flag. *)
Definition blogRow (cs : list val) (owner : string) (pub : bool) : val := setPath [3] (VBool pub) (blog 1 cs owner).

(** [PATCH /api/blog/1] setting the owner, or the flag, and [DELETE /api/blog/1]. *)
Definition patchOwner (o : string) : prog table :=
  pUpdatePatch blogEngine blogRepo readValue noFaults noFaults "1" (deref (blogUpdateParams None (Some o) None)).

Definition patchPublish (p : bool) : prog table :=
  pUpdatePatch blogEngine blogRepo readValue noFaults noFaults "1" (deref (blogUpdateParams None None (Some p))).

Definition deleteBlog : prog table := pDelete blogRepo noFaults "1".

(** The owner and the flag of row 1, if it is stored. *)
Definition storedBlog (s : pool table) : option (val * val) :=
  m ← rows (cdb (pconn s)) !! 1%Z; o ← getPath [2] m; f ← getPath [3] m; Some (o, f).

Definition statuses (s : pool table) : list (option Z) := (fun p => status <$> answer p) <$> threads s.

(** The save that ends a [PATCH] of the blog, once the model is updated. *)
Definition save (m' : val) : prog table :=
  Call (fun c => match RepositoryI.Update blogRepo noFaults c m' with
                 | Err e => (c, Done (failWith e "UPDATE_ERROR"))
                 | Ok (c2, Some e) => (c2, Done (failWith e "UPDATE_ERROR"))
                 | Ok (c2, None) => (c2, Done (Resp 200 (BodyValue m')))
                 end).

(** What one repository call of each thread does on the table store. *)

Lemma get_row (t : table) k m : rows t !! 1%Z = Some m ->
  Repository.GetByID TBlog noFaults (Conn t k) (IdString "1") = (Conn t (S k), Ok m).
Proof.
  intros H. unfold Repository.GetByID.
  change (beginTx noFaults (Conn t k)) with (Ok (E:=goerr) (Conn t (S k))). cbv iota beta.
  change (hasContents TBlog) with (Ok (E:=goerr) true). cbv iota beta.
  change (noFaults OpFirst) with (@None string). cbv iota beta.
  change (gFirst (cdb (Conn t (S k))) true (IdString "1")) with (rows t !! 1%Z). by rewrite H.
Qed.

Lemma get_missing (t : table) k : rows t !! 1%Z = None ->
  Repository.GetByID TBlog noFaults (Conn t k) (IdString "1") = (Conn t (S k), Err (ErrDB "record not found")).
Proof.
  intros H. unfold Repository.GetByID.
  change (beginTx noFaults (Conn t k)) with (Ok (E:=goerr) (Conn t (S k))). cbv iota beta.
  change (hasContents TBlog) with (Ok (E:=goerr) true). cbv iota beta.
  change (noFaults OpFirst) with (@None string). cbv iota beta.
  change (gFirst (cdb (Conn t (S k))) true (IdString "1")) with (rows t !! 1%Z). by rewrite H.
Qed.

(** The engine's update of the row read, for each request body. *)
Lemma rest_owner cs owner pub o :
  pUpdateRest blogEngine blogRepo readValue noFaults (deref (blogUpdateParams None (Some o) None)) (blogRow cs owner pub) =
  save (blogRow cs o pub).
Proof. reflexivity. Qed.

Lemma rest_publish cs owner pub p :
  pUpdateRest blogEngine blogRepo readValue noFaults (deref (blogUpdateParams None None (Some p))) (blogRow cs owner pub) =
  save (blogRow cs owner p).
Proof. reflexivity. Qed.

Lemma read_step (t : table) k ts i b m :
  ts !! i = Some (pUpdatePatch blogEngine blogRepo readValue noFaults noFaults "1" b) -> rows t !! 1%Z = Some m ->
  cstep (Pool (Conn t k) ts) i (Pool (Conn t (S k)) (<[i:=pUpdateRest blogEngine blogRepo readValue noFaults b m]> ts)).
Proof.
  intros Hi Hm. apply cstep_next. unfold cnext. cbn [threads pconn]. rewrite Hi. unfold pUpdatePatch. cbv beta iota.
  change (RepositoryI.GetByID blogRepo noFaults (Conn t k) (IdString "1"))
    with (Repository.GetByID TBlog noFaults (Conn t k) (IdString "1")).
  rewrite (get_row t k m Hm). reflexivity.
Qed.

Lemma read_missing_step (t : table) k ts i b :
  ts !! i = Some (pUpdatePatch blogEngine blogRepo readValue noFaults noFaults "1" b) -> rows t !! 1%Z = None ->
  cstep (Pool (Conn t k) ts) i
    (Pool (Conn t (S k)) (<[i:=Done (failWith (ErrDB "record not found") "NOT_FOUND")]> ts)).
Proof.
  intros Hi Hm. apply cstep_next. unfold cnext. cbn [threads pconn]. rewrite Hi. unfold pUpdatePatch. cbv beta iota.
  change (RepositoryI.GetByID blogRepo noFaults (Conn t k) (IdString "1"))
    with (Repository.GetByID TBlog noFaults (Conn t k) (IdString "1")).
  rewrite (get_missing t k Hm). reflexivity.
Qed.

Lemma save_step (t : table) k ts i cs o pub :
  ts !! i = Some (save (blogRow cs o pub)) ->
  cstep (Pool (Conn t k) ts) i
    (Pool (Conn (Table (<[1%Z := blogRow cs o pub]> (rows t)) (nextId t)) k)
          (<[i:=Done (Resp 200 (BodyValue (blogRow cs o pub)))]> ts)).
Proof.
  intros Hi. apply cstep_next. unfold cnext. cbn [threads pconn]. rewrite Hi. unfold save. cbv beta iota.
  change (RepositoryI.Update blogRepo noFaults (Conn t k) (blogRow cs o pub))
    with (Ok (E:=goerr) (Conn (Table (<[1%Z := blogRow cs o pub]> (rows t)) (nextId t)) (S k - 1), @None goerr)).
  simpl. by rewrite Nat.sub_0_r.
Qed.

Lemma delete_step (t : table) k ts i cs o pub :
  ts !! i = Some deleteBlog -> rows t !! 1%Z = Some (blogRow cs o pub) ->
  cstep (Pool (Conn t k) ts) i
    (Pool (Conn (Table (delete 1%Z (rows t)) (nextId t)) k) (<[i:=Done (Resp 204 BodyNone)]> ts)).
Proof.
  intros Hi Hm. apply cstep_next. unfold cnext. cbn [threads pconn]. rewrite Hi. unfold deleteBlog, pDelete. cbv beta iota.
  change (RepositoryI.Delete blogRepo noFaults (Conn t k) (IdString "1"))
    with (Repository.Delete noFaults (Conn t k) (IdString "1")).
  unfold Repository.Delete.
  change (beginTx noFaults (Conn t k)) with (Ok (E:=goerr) (Conn t (S k))). cbv iota beta.
  unfold findForDelete. change (noFaults OpFirst) with (@None string). cbv iota beta.
  change (gFirst (cdb (Conn t (S k))) false (IdString "1")) with (rows t !! 1%Z). rewrite Hm. cbv iota beta.
  change (noFaults OpDelete) with (@None string). cbv iota beta. simpl. by rewrite Nat.sub_0_r.
Qed.

(** One step of a run, its thread found by evaluation. *)
Ltac run_step H :=
  eapply csteps_step; [H; first [reflexivity | cbn [rows]; by rewrite ?lookup_insert_eq, ?lookup_delete_eq] |].

(** C15: lost update.  Take any table whose row 1 holds a blog, with any
    contents, owner and flag, and two [PATCH]es of it, one setting the
    owner to [o], the other the flag to [p].  Served one after the other,
    in either order, the stored blog ends with both changes.  Interleaved
    (both read, then both save) both answer 200 and the stored blog has
    the flag [p] but its old owner: the second [Save] writes back the
    model it read before the first save. *)
Theorem lost_update (t : table) k cs owner pub o p :
  rows t !! 1%Z = Some (blogRow cs owner pub) ->
  let s0 := Pool (Conn t k) [patchOwner o; patchPublish p] in
  (exists s', csteps s0 [0; 0; 1; 1] s' /\ storedBlog s' = Some (VString o, VBool p)) /\
  (exists s', csteps s0 [1; 1; 0; 0] s' /\ storedBlog s' = Some (VString o, VBool p)) /\
  (exists s', csteps s0 [0; 1; 0; 1] s' /\ storedBlog s' = Some (VString owner, VBool p) /\
              statuses s' = [Some 200%Z; Some 200%Z]).
Proof.
  intros Hrow s0. split_and!; eexists; split_and?.
  - run_step ltac:(eapply read_step). rewrite rest_owner.
    run_step ltac:(eapply save_step).
    run_step ltac:(eapply read_step). rewrite rest_publish.
    run_step ltac:(eapply save_step). apply csteps_refl.
  - unfold storedBlog. cbn [pconn cdb rows]. by rewrite lookup_insert_eq.
  - run_step ltac:(eapply read_step). rewrite rest_publish.
    run_step ltac:(eapply save_step).
    run_step ltac:(eapply read_step). rewrite rest_owner.
    run_step ltac:(eapply save_step). apply csteps_refl.
  - unfold storedBlog. cbn [pconn cdb rows]. by rewrite lookup_insert_eq.
  - run_step ltac:(eapply read_step). run_step ltac:(eapply read_step). rewrite rest_owner, rest_publish.
    run_step ltac:(eapply save_step). run_step ltac:(eapply save_step). apply csteps_refl.
  - unfold storedBlog. cbn [pconn cdb rows]. by rewrite lookup_insert_eq.
  - reflexivity.
Qed.

(** C16: a deleted blog saved back.  Take any table whose row 1 holds a
    blog, a [PATCH] of its owner and a [DELETE] of it.  Served one after
    the other the blog is gone at the end: [PATCH] then [DELETE] answer 200
    and 204, [DELETE] then [PATCH] answer 204 and 400 ([NOT_FOUND]).  When
    the [DELETE] runs between the [PATCH]'s read and its save, both
    succeed (200 and 204) and [Save] stores the deleted blog again, with
    the new owner. *)
Theorem delete_resurrected (t : table) k cs owner pub o :
  rows t !! 1%Z = Some (blogRow cs owner pub) ->
  let s0 := Pool (Conn t k) [patchOwner o; deleteBlog] in
  (exists s', csteps s0 [0; 0; 1] s' /\ storedBlog s' = None /\ statuses s' = [Some 200%Z; Some 204%Z]) /\
  (exists s', csteps s0 [1; 0] s' /\ storedBlog s' = None /\ statuses s' = [Some 400%Z; Some 204%Z]) /\
  (exists s', csteps s0 [0; 1; 0] s' /\ storedBlog s' = Some (VString o, VBool pub) /\
              statuses s' = [Some 200%Z; Some 204%Z]).
Proof.
  intros Hrow s0. split_and!; eexists; split_and?.
  - run_step ltac:(eapply read_step). rewrite rest_owner.
    run_step ltac:(eapply save_step). run_step ltac:(eapply delete_step). apply csteps_refl.
  - unfold storedBlog. cbn [pconn cdb rows]. by rewrite lookup_delete_eq.
  - reflexivity.
  - run_step ltac:(eapply delete_step). run_step ltac:(eapply read_missing_step). apply csteps_refl.
  - unfold storedBlog. cbn [pconn cdb rows]. by rewrite lookup_delete_eq.
  - reflexivity.
  - run_step ltac:(eapply read_step). run_step ltac:(eapply delete_step). rewrite rest_owner.
    run_step ltac:(eapply save_step). apply csteps_refl.
  - unfold storedBlog. cbn [pconn cdb rows]. by rewrite lookup_insert_eq.
  - reflexivity.
Qed.

(** ** Witnesses *)

Definition oneBlog : table := Table {[1%Z := blogRow [] "me" false]} 2.

Lemma lost_update_witness :
  rows oneBlog !! 1%Z = Some (blogRow [] "me" false) /\
  let s0 := Pool (Conn oneBlog 0) [patchOwner "alice"; patchPublish true] in
  (exists s', csteps s0 [0; 0; 1; 1] s' /\ storedBlog s' = Some (VString "alice", VBool true)) /\
  (exists s', csteps s0 [1; 1; 0; 0] s' /\ storedBlog s' = Some (VString "alice", VBool true)) /\
  (exists s', csteps s0 [0; 1; 0; 1] s' /\ storedBlog s' = Some (VString "me", VBool true) /\
              statuses s' = [Some 200%Z; Some 200%Z]).
Proof.
  assert (H : rows oneBlog !! 1%Z = Some (blogRow [] "me" false)) by reflexivity.
  split; [exact H|exact (lost_update oneBlog 0 [] "me" false "alice" true H)].
Defined.

Lemma delete_resurrected_witness :
  rows oneBlog !! 1%Z = Some (blogRow [] "me" false) /\
  let s0 := Pool (Conn oneBlog 0) [patchOwner "alice"; deleteBlog] in
  (exists s', csteps s0 [0; 0; 1] s' /\ storedBlog s' = None /\ statuses s' = [Some 200%Z; Some 204%Z]) /\
  (exists s', csteps s0 [1; 0] s' /\ storedBlog s' = None /\ statuses s' = [Some 400%Z; Some 204%Z]) /\
  (exists s', csteps s0 [0; 1; 0] s' /\ storedBlog s' = Some (VString "alice", VBool false) /\
              statuses s' = [Some 200%Z; Some 204%Z]).
Proof.
  assert (H : rows oneBlog !! 1%Z = Some (blogRow [] "me" false)) by reflexivity.
  split; [exact H|exact (delete_resurrected oneBlog 0 [] "me" false "alice" H)].
Defined.

End Concurrency.
